(** * Speed_Matters2: one demux, four rendered variants, serial remux

    A shallow embedding of [variant.py]:
    - [Np], [Ops] : the NumPy values the effect engine computes with
                    (uint8 and float64 sample grids, casts, clipping) and
                    the array operations of the pipelines;
    - [Effects]   : the four pipelines of [apply_video_effects], each a
                    list of statements that bind [img] anew or write into
                    the array it refers to;
    - [Engine]    : [apply_video_effects] run on a store of shared arrays;
    - [Py]        : state, exceptions and [try]/[except];
    - [Demux]     : [demux_video_once] against the decode boundary;
    - [Render]    : [process_all_frames] against the encode boundary, and
                    the thread fan-out of [main];
    - [Mux]       : [mux_videos] against the filesystem and the remux tool.

    float64 is Rocq's primitive binary64 ([PrimFloat]); a uint8 sample is
    a [Z] with the wrap-around modulo 256 written out.  What NumPy, SciPy
    and libm compute beyond IEEE arithmetic ([Extern]) and what the
    unseeded random source draws ([Draws]) are parameters: the theorems
    hold for all of them. *)

From Stdlib Require Import ZArith List Bool Lia Floats Uint63.
From stdpp Require Import base list strings gmap.
Import ListNotations.

Set Warnings "-inexact-float".
Local Open Scope Z_scope.

(* ------------------------------------------------------------------ *)
(** ** NumPy values *)
(* ------------------------------------------------------------------ *)
Module Np.

(** A plane is a [h x w] array, a grid a [h x w x channels] array, both
    row-major as NumPy stores them. *)
Definition plane (A : Type) : Type := list (list A).
Definition grid (A : Type) : Type := list (list (list A)).

(** The two dtypes the pipelines use. *)
Inductive ndarray : Type :=
| U8 (d : grid Z)
| F64 (d : grid float).

Definition is_u8 (a : ndarray) : bool :=
  match a with U8 _ => true | F64 _ => false end.

(** *** Scalars *)

(** An integer (int64 or uint8 in the source) as a double. *)
Definition of_Z (z : Z) : float :=
  if z <? 0 then (- PrimFloat.of_uint63 (Uint63.of_Z (- z)))%float
  else PrimFloat.of_uint63 (Uint63.of_Z z).
Definition of_nat (n : nat) : float := of_Z (Z.of_nat n).

(** Truncation toward zero of a finite double; [None] on NaN and the
    infinities. *)
Definition trunc (f : float) : option Z :=
  match Prim2SF f with
  | S754_zero _ => Some 0
  | S754_finite s m e =>
      let a := if 0 <=? e then Z.shiftl (Z.pos m) e
               else Z.shiftr (Z.pos m) (- e) in
      Some (if s then - a else a)
  | S754_infinity _ | S754_nan => None
  end.

(** Floor of a double (zeros, NaN and the infinities are returned as
    they are, and so is every double without a fractional part). *)
Definition floor (f : float) : float :=
  match Prim2SF f with
  | S754_finite s m e =>
      if 0 <=? e then f
      else
        let a := Z.shiftr (Z.pos m) (- e) in
        if Z.shiftl a (- e) =? Z.pos m then f
        else if s then of_Z (- (a + 1)) else of_Z a
  | _ => f
  end.

Definition wrap8 (z : Z) : Z := z mod 256.

(** [np.clip(x, lo, hi)] on float64: [minimum(maximum(x, lo), hi)], where
    a NaN operand comes out as NaN. *)
Definition fmax (a b : float) : float :=
  if (is_nan a || (b <? a)%float)%bool then a else b.
Definition fmin (a b : float) : float :=
  if (is_nan a || (a <? b)%float)%bool then a else b.
Definition clip (lo hi x : float) : float := fmin (fmax x lo) hi.
Definition clip255 (x : float) : float := clip 0 255 x.

(** *** Shapes *)

Definition height {A} (g : list (list A)) : nat := length g.
Definition width {A} (g : list (list A)) : nat := length (hd [] g).

(** [planar h w p]: [p] has shape [(h, w)]. *)
Definition planar {A} (h w : nat) (p : list (list A)) : Prop :=
  length p = h ∧ Forall (fun row => length row = w) p.

(** [framed h w g]: [g] has shape [(h, w, 3)]. *)
Definition framed {A} (h w : nat) (g : grid A) : Prop :=
  planar h w g ∧ Forall (Forall (fun px => length px = 3%nat)) g.

Definition all_samples {A} (P : A -> Prop) (g : grid A) : Prop :=
  Forall (Forall (Forall P)) g.

Definition in_range (z : Z) : Prop := 0 <= z <= 255.

(** A well-formed array of shape [(h, w, 3)]: uint8 samples lie in
    [0, 255]. *)
Definition nd_framed (h w : nat) (a : ndarray) : Prop :=
  match a with
  | U8 g => framed h w g ∧ all_samples in_range g
  | F64 g => framed h w g
  end.

(** *** Elementwise traversals *)

Definition plane_imap {A B} (f : nat -> nat -> A -> B) (p : list (list A))
  : list (list B) :=
  imap (fun y row => imap (fun x a => f y x a) row) p.

Definition grid_imap {A B} (f : nat -> nat -> nat -> A -> B) (g : grid A)
  : grid B :=
  plane_imap (fun y x px => imap (fun c v => f y x c v) px) g.

Definition grid_map {A B} (f : A -> B) (g : grid A) : grid B :=
  map (map (map f)) g.

(** [img[:, :, c]] as a plane; a missing channel reads as [d]. *)
Definition channel {A} (d : A) (c : nat) (g : grid A) : plane A :=
  map (map (fun px => nth c px d)) g.

(** [img[:, :, c] = p]: the plane is written row by row and sample by
    sample into channel [c].  The shapes agree wherever the pipelines
    use it ([set_channel_framed]). *)
Definition set_channel {A} (c : nat) (p : plane A) (g : grid A) : grid A :=
  zip_with (fun prow row => zip_with (fun v px => <[c := v]> px) prow row) p g.

End Np.

(* ------------------------------------------------------------------ *)
(** ** What the effect engine takes from outside the repository *)
(* ------------------------------------------------------------------ *)

(** The library functions whose numerics are NumPy's, SciPy's, libm's or
    the C compiler's.  Arithmetic, comparisons and square roots are
    IEEE 754 and are computed; these are not. *)
Class Extern : Type := {
  (** the C cast of a NaN, an infinity or an out-of-range double to
      [uint8] (undefined in C; the low byte of whatever comes out) *)
  cast_undefined : float -> Z;
  np_power : float -> float -> float;
  np_sin : float -> float;
  np_exp : float -> float;
  (** [np.linspace(start, stop, num)[i]] *)
  np_linspace : float -> float -> nat -> nat -> float;
  (** [np.percentile(plane, q)] *)
  np_percentile : Np.plane float -> float -> float;
  (** [ndimage.gaussian_filter(img, sigma)] *)
  gaussian_filter : Np.ndarray -> float -> Np.ndarray;
  (** [ndimage.median_filter(img, size)] *)
  median_filter : Np.ndarray -> nat -> Np.ndarray;
  (** [ndimage.uniform_filter(img, size)] *)
  uniform_filter : Np.ndarray -> nat -> Np.ndarray;
  (** [ndimage.sobel(plane)] *)
  sobel : Np.plane float -> Np.plane float
}.

(** SciPy's filters return an array of the shape and dtype of their
    input. *)
Record ExternLaws (E : Extern) : Prop := {
  gaussian_filter_framed : forall h w a s,
    Np.nd_framed h w a -> Np.nd_framed h w (gaussian_filter a s);
  median_filter_framed : forall h w a n,
    Np.nd_framed h w a -> Np.nd_framed h w (median_filter a n);
  uniform_filter_framed : forall h w a n,
    Np.nd_framed h w a -> Np.nd_framed h w (uniform_filter a n);
  sobel_planar : forall h w p,
    Np.planar h w p -> Np.planar h w (sobel p)
}.

(** The draws one call of [apply_video_effects] takes from the unseeded
    generator, one field per [np.random] call site, indexed by the
    position the draw lands on. *)
Record Draws : Type := {
  (* variant 0 *)
  film_grain : nat -> nat -> nat -> float;      (* normal(0, 5) *)
  (* variant 1 *)
  digital_noise : nat -> nat -> nat -> Z;       (* randint(-10, 10) *)
  corrupt_u : nat -> nat -> float;              (* random() *)
  corrupt_val : nat -> nat -> nat -> Z;         (* randint(0, 255), per channel *)
  (* variant 2 *)
  moss_texture : nat -> nat -> nat -> float;    (* normal(0, 3) *)
  bark_u : nat -> nat -> nat -> float;          (* random() *)
  sunlight_u : nat -> nat -> float;             (* random() *)
  organic_grain : nat -> nat -> nat -> float;   (* normal(0, 2) *)
  (* variant 3 *)
  embers_u : nat -> nat -> float;               (* random() *)
  ember_green : nat -> nat -> Z;                (* randint(100, 200) *)
  smoke_u : nat -> nat -> float;                (* random() *)
  flicker : nat -> nat -> nat -> float;         (* normal(1, 0.05) *)
  flame_texture : nat -> nat -> nat -> float    (* normal(0, 8) *)
}.

(* ------------------------------------------------------------------ *)
(** ** The effect engine: array operations *)
(* ------------------------------------------------------------------ *)
Module Ops.
Import Np.

Section WithExtern.
Context {E : Extern}.
Local Open Scope float_scope.

(** The C cast [(npy_uint8) x] behind [astype(np.uint8)] and behind a
    store of a double into a uint8 array: truncation when the truncated
    value fits. *)
Definition cast_u8 (x : float) : Z :=
  match trunc x with
  | Some z => if ((0 <=? z) && (z <=? 255))%Z%bool then z
              else wrap8 (cast_undefined x)
  | None => wrap8 (cast_undefined x)
  end.

Definition as_float (a : ndarray) : grid float :=
  match a with
  | U8 g => grid_map of_Z g
  | F64 g => g
  end.

Definition astype_u8 (a : ndarray) : ndarray :=
  match a with
  | U8 g => U8 g
  | F64 g => U8 (grid_map cast_u8 g)
  end.

Definition rows (a : ndarray) : nat :=
  match a with U8 g => height g | F64 g => height g end.
Definition cols (a : ndarray) : nat :=
  match a with U8 g => width g | F64 g => width g end.

(** *** Arithmetic with a Python int

    [img + k] keeps the dtype of [img]: on uint8 the sum wraps modulo
    256, on float64 it is a float sum. *)
Definition add_int (k : Z) (a : ndarray) : ndarray :=
  match a with
  | U8 g => U8 (grid_map (fun z => wrap8 (z + k)%Z) g)
  | F64 g => F64 (grid_map (fun v => v + of_Z k) g)
  end.

(** [k - img]. *)
Definition rsub_int (k : Z) (a : ndarray) : ndarray :=
  match a with
  | U8 g => U8 (grid_map (fun z => wrap8 (k - z)%Z) g)
  | F64 g => F64 (grid_map (fun v => of_Z k - v) g)
  end.

(** The same sum on one sample [v] read out of an array of dtype uint8
    ([u8 = true]) or float64. *)
Definition sample_add_int (u8 : bool) (k : Z) (v : float) : float :=
  if u8 then of_Z (wrap8 (default 0%Z (trunc v) + k)%Z) else v + of_Z k.

(** [np.clip(img, 0, 255)] keeps the dtype as well. *)
Definition np_clip255 (a : ndarray) : ndarray :=
  match a with
  | U8 g => U8 (grid_map (fun z => Z.min (Z.max z 0) 255) g)
  | F64 g => F64 (grid_map clip255 g)
  end.

(** *** Expressions that build a new float64 array *)

(** [f(img)] sample by sample, for an [f] that goes through a Python
    float. *)
Definition fmap_all (f : float -> float) (a : ndarray) : ndarray :=
  F64 (grid_map f (as_float a)).

(** The same with the position [(y, x, c)] of the sample: broadcasting
    against an array built from [np.ogrid], [np.arange] or a draw of
    shape [img.shape]. *)
Definition fmap_idx (f : nat -> nat -> nat -> float -> float) (a : ndarray)
  : ndarray :=
  F64 (grid_imap f (as_float a)).

(** The same with the whole pixel in hand ([np.dot] along the last
    axis). *)
Definition fmap_px (f : nat -> list float -> float) (a : ndarray) : ndarray :=
  F64 (map (map (fun px => imap (fun c _ => f c px) px)) (as_float a)).

(** *** Assignments into the array [img] refers to

    [upd y x c px] is the double to store at [(y, x, c)], computed from
    the pixel [px] as it was before the statement, or [None] where the
    statement leaves the sample alone.  The store casts to the dtype of
    the array. *)
Definition update {A} (rd : A -> float) (wr : float -> A)
    (upd : nat -> nat -> nat -> list float -> option float) (g : grid A)
  : grid A :=
  plane_imap (fun y x px =>
    let fl := map rd px in
    imap (fun c v => match upd y x c fl with Some r => wr r | None => v end) px)
    g.

Definition inplace (upd : nat -> nat -> nat -> list float -> option float)
    (a : ndarray) : ndarray :=
  match a with
  | U8 g => U8 (update of_Z cast_u8 upd g)
  | F64 g => F64 (update (fun v => v) (fun v => v) upd g)
  end.

Definition chan (px : list float) (c : nat) : float := nth c px 0.

(** [img[:, :, c] = f(img[:, :, c])] *)
Definition chan_inplace (c : nat) (f : float -> float) : ndarray -> ndarray :=
  inplace (fun _ _ k px => if (k =? c)%nat then Some (f (chan px c)) else None).

(** [img[:, :, c] = f(img[:, :, c], aux)] for an [aux] of shape [(h, w)]
    given by position. *)
Definition chan_inplace_idx (c : nat) (f : nat -> nat -> float -> float)
  : ndarray -> ndarray :=
  inplace (fun y x k px => if (k =? c)%nat then Some (f y x (chan px c)) else None).

(** [img[mask] = f(img[mask])] for a mask of shape [(h, w, 3)] computed
    from the samples themselves. *)
Definition masked_inplace (m : float -> bool) (f : float -> float)
  : ndarray -> ndarray :=
  inplace (fun _ _ k px => if m (chan px k) then Some (f (chan px k)) else None).

(** [img[:, :, c][mask[:, :, c]] = f(...)] *)
Definition chan_masked (c : nat) (m : float -> bool) (f : float -> float)
  : ndarray -> ndarray :=
  inplace (fun _ _ k px =>
    if ((k =? c)%nat && m (chan px c))%bool then Some (f (chan px c)) else None).

(** [img[mask] = f(img[mask])] for a mask of shape [(h, w)]: every
    channel of the pixels it selects. *)
Definition pixels_inplace (m : nat -> nat -> bool) (f : float -> float)
  : ndarray -> ndarray :=
  inplace (fun y x k px => if m y x then Some (f (chan px k)) else None).

(** [img[:, :, c] = p] for a float plane [p] computed apart. *)
Definition assign_channel (c : nat) (p : plane float) (a : ndarray) : ndarray :=
  match a with
  | U8 g => U8 (set_channel c (map (map cast_u8) p) g)
  | F64 g => F64 (set_channel c p g)
  end.

(** *** [np.roll]

    [np.roll(l, shift)[j] = l[(j - shift) mod n]]. *)
Definition np_roll {A} (shift : Z) (l : list A) : list A :=
  let n := length l in
  let k := Z.to_nat (shift mod Z.of_nat n)%Z in
  drop (n - k) l ++ take (n - k) l.

(** [img[:, :, c] = np.roll(img[:, :, c], shift, axis)], which moves
    samples and casts nothing. *)
Definition roll_plane {A} (axis : nat) (shift : Z) (p : plane A) : plane A :=
  match axis with
  | O => np_roll shift p
  | _ => map (np_roll shift) p
  end.

Definition roll_channel (c axis : nat) (shift : Z) (a : ndarray) : ndarray :=
  match a with
  | U8 g => U8 (set_channel c (roll_plane axis shift (channel 0%Z c g)) g)
  | F64 g => F64 (set_channel c (roll_plane axis shift (channel 0 c g)) g)
  end.

(** [np.roll(img, shift, axis=1)] *)
Definition roll_columns (shift : Z) (a : ndarray) : ndarray :=
  match a with
  | U8 g => U8 (map (np_roll shift) g)
  | F64 g => F64 (map (np_roll shift) g)
  end.

(** *** Pixelation: [img[::2, ::2]], [np.repeat(., 2, axis)], [[:h, :w]] *)
Fixpoint every_second {A} (l : list A) : list A :=
  match l with
  | [] => []
  | x :: t => x :: match t with [] => [] | _ :: t' => every_second t' end
  end.

Fixpoint repeat_each {A} (l : list A) : list A :=
  match l with
  | [] => []
  | x :: t => x :: x :: repeat_each t
  end.

Definition pixelate_grid {A} (g : grid A) : grid A :=
  let h := height g in
  let w := width g in
  let small := map every_second (every_second g) in
  map (take w) (take h (map repeat_each (repeat_each small))).

Definition pixelate (a : ndarray) : ndarray :=
  match a with
  | U8 g => U8 (pixelate_grid g)
  | F64 g => F64 (pixelate_grid g)
  end.

(** *** Geometry shared by the distortion, flare and vignette steps *)

(** [np.sqrt((x - cx)**2 + (y - cy)**2)], the squares in int64. *)
Definition distance_to (cy cx y x : nat) : float :=
  PrimFloat.sqrt (of_Z ((Z.of_nat x - Z.of_nat cx) ^ 2 + (Z.of_nat y - Z.of_nat cy) ^ 2)%Z).

(** [distance / max_distance] for the centre [(h // 2, w // 2)] *)
Definition radial (h w y x : nat) : float :=
  let cy := (h / 2)%nat in
  let cx := (w / 2)%nat in
  distance_to cy cx y x / PrimFloat.sqrt (of_Z (Z.of_nat cx ^ 2 + Z.of_nat cy ^ 2)%Z).

(** [np.clip(1 - (distance / max_distance) ** p, lo, 1)] *)
Definition vignette (p lo : float) (h w y x : nat) : float :=
  clip lo 1 (1 - np_power (radial h w y x) p).

(** [img * vignette[:, :, np.newaxis]] *)
Definition apply_vignette (p lo : float) (a : ndarray) : ndarray :=
  fmap_idx (fun y x _ v => v * vignette p lo (rows a) (cols a) y x) a.

(** [np.mean(img, axis=2)] *)
Definition mean_px (px : list float) : float :=
  fold_left PrimFloat.add px 0 / of_nat (length px).

Definition mean_plane (a : ndarray) : plane float :=
  map (map mean_px) (as_float a).

(** [edges = ndimage.sobel(np.mean(img, axis=2));
     edges = (edges > np.percentile(edges, q)).astype(float)] *)
Definition edge_mask (q : float) (a : ndarray) : plane float :=
  let edges := sobel (mean_plane a) in
  let t := np_percentile edges q in
  map (map (fun e => if t <? e then 1 else 0)) edges.

(** [img[:, :, c] = np.clip(img[:, :, c] + edges * k, 0, 255)] *)
Definition add_edges (c : nat) (q k : float) (a : ndarray) : ndarray :=
  assign_channel c
    (zip_with (zip_with (fun v e => clip255 (v + e * k)))
       (channel 0 c (as_float a)) (edge_mask q a))
    a.

End WithExtern.
End Ops.

(* ------------------------------------------------------------------ *)
(** ** The effect engine: the four pipelines *)
(* ------------------------------------------------------------------ *)
Module Effects.
Import Np Ops.

(** A statement of a pipeline either binds [img] to a new array or
    writes into the array [img] refers to. *)
Inductive step : Type :=
| Rebind (f : ndarray -> ndarray)        (* [img = f(img)] *)
| InPlace (f : ndarray -> ndarray)       (* [img[...] = ...] *)
| When (c : ndarray -> bool) (s : step). (* [if c(img): s] *)

(** A statement with the number of the elementary operation (1..25, as
    the comments of the source count them) it belongs to. *)
Definition op : Type := (nat * step)%type.

Section Pipelines.
Context {E : Extern} (D : Draws).
Local Open Scope float_scope.

Definition sepia : list (list float) :=
  [ [0.393; 0.769; 0.189]; [0.349; 0.686; 0.168]; [0.272; 0.534; 0.131] ].

(** [np.dot(img, sepia.T)[..., j]] *)
Definition sepia_dot (j : nat) (px : list float) : float :=
  fold_left PrimFloat.add (zip_with PrimFloat.mul px (nth j sepia [])) 0.

(** Variant 0, "Classic Film". *)
Definition classic_film : list op :=
  [ (1%nat, Rebind (rsub_int 255));
    (2%nat, Rebind (fun a => astype_u8 (np_clip255 (add_int 30 a))));
    (3%nat, Rebind (fun a =>
        astype_u8 (fmap_all (fun v => clip255 (v * 1.2 + 128)) (add_int (-128) a))));
    (4%nat, Rebind (fmap_px sepia_dot));
    (4%nat, Rebind (fun a => astype_u8 (np_clip255 a)));
    (5%nat, Rebind (fmap_all (fun v => np_power (v / 255.0) 0.8 * 255)));
    (5%nat, Rebind astype_u8);
    (6%nat, InPlace (chan_inplace 0 (fun v => clip255 (v * 1.1))));
    (* 7: [hsv] is filled and never read; the statement on [img] is this one *)
    (7%nat, Rebind (fun a => astype_u8 (fmap_all (fun v => clip255 (v * 1.15)) a)));
    (8%nat, Rebind (fun a =>
        astype_u8 (fmap_idx (fun y x c v => clip255 (v + film_grain D y x c)) a)));
    (9%nat, Rebind (fun a => astype_u8 (fmap_all (fun v => clip255 (v * 1.1 - 10)) a)));
    (10%nat, InPlace (chan_inplace 0 (fun v => clip255 (v * 1.05))));
    (10%nat, InPlace (chan_inplace 2 (fun v => clip255 (v * 0.95))));
    (11%nat, Rebind (fun a => gaussian_filter a 0.5));
    (11%nat, Rebind astype_u8);
    (12%nat, InPlace (masked_inplace (fun v => 200 <? v)
                        (fun v => of_Z (cast_u8 (v * 0.9)))));
    (13%nat, InPlace (masked_inplace (fun v => v <? 50)
                        (fun v => of_Z (cast_u8 (v * 1.2)))));
    (14%nat, InPlace (chan_inplace 0 (fun v => clip255 (v * 1.1))));
    (14%nat, InPlace (chan_inplace 1 (fun v => clip255 (v * 1.05))));
    (15%nat, InPlace (fun a =>
        masked_inplace (fun v => (50 <? v) && (v <? 200))
          (fun v => clip255 (sample_add_int (is_u8 a) (-128) v * 1.1 + 128)) a));
    (16%nat, InPlace (roll_channel 0 1 1));
    (16%nat, InPlace (roll_channel 2 1 (-1)));
    (17%nat, Rebind (fmap_all (fun v => v * 0.95 + 20)));
    (18%nat, InPlace (chan_inplace 1 (fun v => clip255 (v * 1.02))));
    (19%nat, Rebind (fmap_all (fun v => np_power (v / 255.0) 0.9 * 255)));
    (20%nat, Rebind (fmap_all (fun v => clip255 (v * 1.03))));
    (21%nat, Rebind (fmap_all (fun v => clip255 (v * 0.98 + 5))));
    (22%nat, Rebind (fun a =>
        fmap_idx (fun y x _ v =>
          clip255 (v / (1 + 0.1 * radial (rows a) (cols a) y x))) a));
    (23%nat, InPlace (chan_inplace 1 (fun v => clip255 (v * 0.98))));
    (24%nat, Rebind (fmap_all (fun v => clip255 (v * 1.01))));
    (25%nat, Rebind (apply_vignette 1.5 0.3)) ].

(** [np.any(mask)] for a mask of shape [(h, w)] *)
Definition any_pixel (m : nat -> nat -> bool) (a : ndarray) : bool :=
  existsb (fun y => existsb (fun x => m y x) (seq 0 (cols a))) (seq 0 (rows a)).

Definition corrupt_mask (y x : nat) : bool := corrupt_u D y x <? 0.001.

(** [circuit[::20, :] = 255; circuit[:, ::20] = 255] *)
Definition circuit (y x : nat) : float :=
  if ((y mod 20 =? 0)%nat || (x mod 20 =? 0)%nat)%bool then 255 else 0.

(** [border_mask[:5, :] = 1; [-5:, :] = 1; [:, :5] = 1; [:, -5:] = 1] *)
Definition border_mask (h w y x : nat) : float :=
  if ((y <? 5)%nat || (h <=? y + 5)%nat || (x <? 5)%nat || (w <=? x + 5)%nat)%bool
  then 1 else 0.

(** Variant 1, "Cyberpunk/Neon". *)
Definition cyberpunk : list op :=
  [ (1%nat, InPlace (chan_inplace 2 (fun v => clip255 (v * 1.4))));
    (2%nat, InPlace (chan_inplace 0 (fun v => v * 0.6)));
    (3%nat, InPlace (chan_inplace 1 (fun v => v * 0.8)));
    (4%nat, Rebind (fun a =>
        fmap_all (fun v => clip255 (v * 1.6 + 128)) (add_int (-128) a)));
    (5%nat, Rebind (fmap_idx (fun y x c v =>
        clip255 (v + of_Z (digital_noise D y x c)))));
    (6%nat, InPlace (chan_masked 1 (fun v => 180 <? v) (fun v => clip255 (v * 1.2))));
    (6%nat, InPlace (chan_masked 2 (fun v => 180 <? v) (fun v => clip255 (v * 1.2))));
    (7%nat, InPlace (chan_masked 0 (fun v => v <? 80) (fun v => clip255 (v * 1.3))));
    (7%nat, InPlace (chan_masked 2 (fun v => v <? 80) (fun v => clip255 (v * 1.2))));
    (8%nat, InPlace (inplace (fun y _ k px =>
        if (y mod 4 =? 0)%nat then Some (chan px k * 0.8) else None)));
    (9%nat, Rebind (fmap_all (fun v => floor (v / 16) * 16)));
    (10%nat, Rebind (fmap_all (fun v => clip255 (v * 1.2))));
    (11%nat, InPlace (inplace (fun y x k px =>
        if ((y mod 8 =? 0)%nat && (x mod 8 =? 0)%nat)%bool
        then Some (clip255 (chan px k * 1.5)) else None)));
    (12%nat, InPlace (add_edges 2 90 50));
    (13%nat, Rebind (fmap_all (fun v => clip255 (v * 1.1))));
    (14%nat, InPlace (roll_channel 0 0 2));
    (14%nat, InPlace (roll_channel 2 0 (-2)));
    (15%nat, Rebind pixelate);
    (16%nat, InPlace (chan_inplace 2 (fun v => clip255 (v * 1.1))));
    (17%nat, Rebind (fmap_idx (fun y _ _ v =>
        clip255 (v + np_sin (of_nat y * 0.1) * 5))));
    (18%nat, When (any_pixel corrupt_mask) (InPlace (inplace (fun y x k _ =>
        if ((k =? 0)%nat && corrupt_mask y x)%bool
        then Some (of_Z (corrupt_val D 0 y x)) else None))));
    (18%nat, When (any_pixel corrupt_mask) (InPlace (inplace (fun y x k _ =>
        if ((k =? 1)%nat && corrupt_mask y x)%bool
        then Some (of_Z (corrupt_val D 1 y x)) else None))));
    (18%nat, When (any_pixel corrupt_mask) (InPlace (inplace (fun y x k _ =>
        if ((k =? 2)%nat && corrupt_mask y x)%bool
        then Some (of_Z (corrupt_val D 2 y x)) else None))));
    (19%nat, Rebind (fmap_idx (fun y x _ v => clip255 (v + circuit y x * 0.1))));
    (20%nat, InPlace (fun a => chan_inplace_idx 2 (fun y x v =>
        clip255 (v + border_mask (rows a) (cols a) y x * 100)) a));
    (21%nat, Rebind (fmap_all (fun v => clip255 (v * 0.95 + 15))));
    (22%nat, InPlace (chan_inplace 1 (fun v => clip255 (v * 1.05))));
    (23%nat, Rebind (fmap_all (fun v => clip255 (v * 1.02))));
    (24%nat, InPlace (chan_inplace 2 (fun v => clip255 (v * 1.03))));
    (25%nat, Rebind (apply_vignette 1.2 0.4));
    (25%nat, InPlace (fun a => chan_inplace_idx 2 (fun y x v =>
        clip255 (v + (1 - vignette 1.2 0.4 (rows a) (cols a) y x) * 20)) a)) ].

(** Variant 2, "Nature/Organic". *)
Definition nature : list op :=
  [ (1%nat, InPlace (chan_inplace 1 (fun v => clip255 (v * 1.5))));
    (2%nat, InPlace (chan_inplace 0 (fun v => v * 0.7)));
    (3%nat, InPlace (chan_inplace 2 (fun v => v * 0.7)));
    (4%nat, Rebind (fun a => gaussian_filter a 1.2));
    (5%nat, Rebind (fmap_all (fun v => clip255 (v * 0.9 + 10))));
    (6%nat, Rebind (fmap_idx (fun y x c v => clip255 (v + moss_texture D y x c))));
    (7%nat, Rebind (fmap_idx (fun y _ _ v =>
        v * (1 + np_sin (of_nat y * 0.3) * 0.1))));
    (8%nat, InPlace (chan_inplace 1 (fun v => clip255 (v * 1.2))));
    (9%nat, Rebind (fmap_idx (fun y x c v => clip255 (v + bark_u D y x c * 5))));
    (10%nat, InPlace (pixels_inplace (fun y x => sunlight_u D y x <? 0.1)
                        (fun v => clip255 (v * 1.3))));
    (11%nat, Rebind (fun a => median_filter a 2));
    (12%nat, InPlace (chan_inplace 1 (fun v => clip255 (v * 1.1))));
    (13%nat, Rebind (fun a =>
        fmap_all (fun v => clip255 (v * 0.9 + 128)) (add_int (-128) a)));
    (14%nat, Rebind (fmap_idx (fun _ x _ v =>
        clip255 (v + np_sin (of_nat x * 0.2) * 10))));
    (15%nat, InPlace (chan_inplace 0 (fun v => clip255 (v * 1.05))));
    (15%nat, InPlace (chan_inplace 1 (fun v => clip255 (v * 1.1))));
    (16%nat, Rebind (fun a => uniform_filter a 2));
    (17%nat, Rebind (fmap_all (fun v => clip255 (v * 1.05))));
    (18%nat, InPlace (inplace (fun _ _ k px =>
        if ((k =? 1)%nat && (chan px 0 <? chan px 1) && (chan px 2 <? chan px 1))%bool
        then Some (clip255 (chan px 1 * 1.2)) else None)));
    (19%nat, Rebind (fmap_all (fun v => v * 0.98 + 5)));
    (20%nat, Rebind (fmap_idx (fun y x c v => clip255 (v + organic_grain D y x c))));
    (21%nat, InPlace (chan_inplace 0 (fun v => clip255 (v * 1.02))));
    (22%nat, InPlace (chan_inplace 0 (fun v => clip255 (v * 1.03))));
    (22%nat, InPlace (chan_inplace 1 (fun v => clip255 (v * 1.02))));
    (23%nat, Rebind (fmap_all (fun v => v * 0.99 + 3)));
    (24%nat, InPlace (chan_inplace 1 (fun v => clip255 (v * 1.01))));
    (25%nat, Rebind (apply_vignette 1.3 0.5));
    (25%nat, InPlace (fun a => chan_inplace_idx 1 (fun y x v =>
        clip255 (v + (1 - vignette 1.3 0.5 (rows a) (cols a) y x) * 10)) a)) ].

Definition embers (y x : nat) : bool := embers_u D y x <? 0.005.

(** [int(np.sin(img.shape[0] * 0.1))] *)
Definition distort_shift (a : ndarray) : Z :=
  default 0%Z (trunc (np_sin (of_nat (rows a) * 0.1))).

(** Variant 3, "Fire/Energy". *)
Definition fire : list op :=
  [ (1%nat, InPlace (chan_inplace 0 (fun v => clip255 (v * 1.6))));
    (2%nat, InPlace (chan_inplace 1 (fun v => v * 0.6)));
    (3%nat, InPlace (chan_inplace 2 (fun v => v * 0.4)));
    (4%nat, Rebind (fmap_all (fun v => clip255 (v * 1.3 - 30))));
    (5%nat, Rebind (fmap_idx (fun _ x _ v =>
        clip255 (v + np_sin (of_nat x * 0.5) * 2))));
    (6%nat, InPlace (inplace (fun y x k _ =>
        if ((k =? 0)%nat && embers y x)%bool then Some 255 else None)));
    (6%nat, InPlace (inplace (fun y x k _ =>
        if ((k =? 1)%nat && embers y x)%bool
        then Some (of_Z (ember_green D y x)) else None)));
    (7%nat, Rebind (fmap_idx (fun y _ _ v =>
        clip255 (v + np_sin (of_nat y * 0.8) * 5))));
    (8%nat, InPlace (chan_inplace 0 (fun v => clip255 (v * 1.2))));
    (8%nat, InPlace (chan_inplace 1 (fun v => clip255 (v * 1.1))));
    (9%nat, InPlace (chan_masked 0 (fun v => 150 <? v) (fun v => clip255 (v * 1.2))));
    (10%nat, InPlace (pixels_inplace (fun y x => smoke_u D y x <? 0.02)
                        (fun v => of_Z (cast_u8 (v * 0.7 + 50)))));
    (11%nat, InPlace (inplace (fun _ _ k px =>
        if ((k =? 1)%nat && (100 <? chan px 0) && (50 <? chan px 1))%bool
        then Some (clip255 (chan px 1 * 1.3)) else None)));
    (12%nat, InPlace (inplace (fun _ _ k px =>
        if (k =? 0)%nat
        then Some (clip255 (chan px 0 + (chan px 0 + chan px 1) / 2 * 0.1))
        else None)));
    (13%nat, InPlace (inplace (fun _ _ k px =>
        if ((k =? 1)%nat && (200 <? chan px 0))%bool
        then Some (clip255 (chan px 1 * 1.5)) else None)));
    (14%nat, Rebind (fmap_idx (fun y x c v => clip255 (v * flicker D y x c))));
    (15%nat, InPlace (fun a => chan_inplace_idx 0 (fun y _ v =>
        clip255 (v + np_linspace 0 20 (rows a) y)) a));
    (16%nat, InPlace (add_edges 0 85 40));
    (17%nat, InPlace (chan_inplace_idx 0 (fun _ x v =>
        clip255 (v + np_sin (of_nat x * 0.3) * 15))));
    (18%nat, Rebind (fmap_all (fun v => clip255 (v * 1.1))));
    (19%nat, InPlace (inplace (fun _ _ k px =>
        if ((k =? 0)%nat && (mean_px px <? 80))%bool
        then Some (clip255 (chan px 0 * 1.4)) else None)));
    (20%nat, When (fun a => negb (distort_shift a =? 0)%Z)
               (Rebind (fun a => roll_columns (distort_shift a) a)));
    (21%nat, Rebind (fmap_idx (fun y x c v => clip255 (v + flame_texture D y x c))));
    (22%nat, InPlace (fun a => chan_inplace_idx 0 (fun y x v =>
        clip255 (v + np_exp (- distance_to (rows a / 3) (cols a / 3) y x / 50) * 30)) a));
    (23%nat, InPlace (chan_inplace 0 (fun v => clip255 (v * 1.05))));
    (24%nat, Rebind (fmap_all (fun v => clip255 (v * 1.02))));
    (25%nat, Rebind (apply_vignette 1.1 0.4));
    (25%nat, InPlace (fun a => chan_inplace_idx 0 (fun y x v =>
        clip255 (v + (1 - vignette 1.1 0.4 (rows a) (cols a) y x) * 30)) a)) ].

(** The chain of [if effect_variant == ...] tests; any other id runs
    no statement. *)
Definition pipeline (effect_variant : Z) : list op :=
  if (effect_variant =? 0)%Z then classic_film
  else if (effect_variant =? 1)%Z then cyberpunk
  else if (effect_variant =? 2)%Z then nature
  else if (effect_variant =? 3)%Z then fire
  else [].

End Pipelines.
End Effects.

(* ------------------------------------------------------------------ *)
(** ** The effect engine: running a pipeline on shared arrays *)
(* ------------------------------------------------------------------ *)
Module Engine.
Import Np Ops Effects.

(** The arrays alive during a run, by address; a Python name or a list
    entry holds an address. *)
Abbreviation store := (list ndarray).

Definition fetch (s : store) (r : nat) : ndarray := default (U8 []) (s !! r).

(** One statement, run with [img] bound to address [r]: a new binding
    allocates, an assignment through an index overwrites in place. *)
Fixpoint exec (st : step) (s : store) (r : nat) : store * nat :=
  match st with
  | Rebind f => (s ++ [f (fetch s r)], length s)
  | InPlace f => (<[r := f (fetch s r)]> s, r)
  | When c st' => if c (fetch s r) then exec st' s r else (s, r)
  end.

Definition run (ops : list op) (s : store) (r : nat) : store * nat :=
  fold_left (fun sr o => exec (snd o) (fst sr) (snd sr)) ops (s, r).

(** The value semantics of the same statements, for what [img] holds. *)
Fixpoint step_value (st : step) (a : ndarray) : ndarray :=
  match st with
  | Rebind f => f a
  | InPlace f => f a
  | When c st' => if c a then step_value st' a else a
  end.

Definition eval (ops : list op) (a : ndarray) : ndarray :=
  fold_left (fun a o => step_value (snd o) a) ops a.

(** [preserves P st]: the array function of [st] keeps [P]. *)
Fixpoint preserves (P : ndarray -> Prop) (st : step) : Prop :=
  match st with
  | Rebind f => forall a, P a -> P (f a)
  | InPlace f => forall a, P a -> P (f a)
  | When _ st' => preserves P st'
  end.

(** The assignments a pipeline makes before it first binds [img] anew:
    these write into the array the caller passed. *)
Fixpoint leading (ops : list op) : list op :=
  match ops with
  | (n, InPlace f) :: t => (n, InPlace f) :: leading t
  | _ => []
  end.

(** The first statement that is not a plain assignment, if any, is a
    new binding. *)
Fixpoint rebinds_first (ops : list op) : bool :=
  match ops with
  | [] => true
  | (_, InPlace _) :: t => rebinds_first t
  | (_, Rebind _) :: _ => true
  | (_, When _ _) :: _ => false
  end.

(** The statements of the operation numbered [n]. *)
Definition numbered (n : nat) (ops : list op) : list op :=
  filter (fun o => (fst o =? n)%nat) ops.

(** The statements of the operations numbered up to [n]. *)
Definition upto (n : nat) (ops : list op) : list op :=
  filter (fun o => (fst o <=? n)%nat) ops.

Section WithExtern.
Context {E : Extern} (D : Draws).

(** [apply_video_effects(img, effect_variant)]: the call receives the
    address of the caller's array, runs the pipeline of the variant and
    returns [img.astype(np.uint8)], a new array. *)
Definition apply_video_effects (s : store) (img : nat) (effect_variant : Z)
  : store * nat :=
  let sr := run (pipeline D effect_variant) s img in
  exec (Rebind astype_u8) (fst sr) (snd sr).

(** The array the call returns, as a value. *)
Definition effect_of (a : ndarray) (effect_variant : Z) : ndarray :=
  astype_u8 (eval (pipeline D effect_variant) a).

End WithExtern.
End Engine.

(* ------------------------------------------------------------------ *)
(** ** Python control flow: state, exceptions, [try]/[except] *)
(* ------------------------------------------------------------------ *)
Module Py.

(** An exception instance caught by [except Exception], by its message. *)
Definition exn : Type := string.

Inductive outcome (A : Type) : Type :=
| Returns (a : A)
| Raises (e : exn).
Arguments Returns {A} a.
Arguments Raises {A} e.

(** A computation over a world [W]: what it did to the world stays done
    when it raises. *)
Definition M (W A : Type) : Type := W -> outcome A * W.

Definition ret {W A} (a : A) : M W A := fun s => (Returns a, s).

Definition bind {W A B} (m : M W A) (k : A -> M W B) : M W B :=
  fun s => match m s with
           | (Returns a, s') => k a s'
           | (Raises e, s') => (Raises e, s')
           end.

Definition raise {W A} (e : exn) : M W A := fun s => (Raises e, s).

(** A call across a boundary whose outcome the world decides. *)
Definition call {W A} (o : outcome A) : M W A := fun s => (o, s).

Definition modify {W} (f : W -> W) : M W unit := fun s => (Returns tt, f s).

(** [try: body  except Exception as e: handler(e)] *)
Definition try_except {W A} (body : M W A) (handler : exn -> M W A) : M W A :=
  fun s => match body s with
           | (Returns a, s') => (Returns a, s')
           | (Raises e, s') => handler e s'
           end.

Definition returned {A} (o : outcome A) : bool :=
  match o with Returns _ => true | Raises _ => false end.

(** [for x in l: body(i, x)], [i] counting from [i0]. *)
Fixpoint for_each {W A} (i0 : nat) (l : list A) (body : nat -> A -> M W unit)
  : M W unit :=
  match l with
  | [] => ret tt
  | x :: t => bind (body i0 x) (fun _ => for_each (S i0) t body)
  end.

(** [for x in l: acc = body(i, x, acc)], for a loop that grows a value. *)
Fixpoint for_fold {W A B} (i0 : nat) (l : list A) (acc : B)
    (body : nat -> A -> B -> M W B) : M W B :=
  match l with
  | [] => ret acc
  | x :: t => bind (body i0 x acc) (fun acc' => for_fold (S i0) t acc' body)
  end.

Declare Scope py_scope.
Delimit Scope py_scope with py.
Notation "x <- c1 ;; c2" := (bind c1 (fun x => c2))
  (at level 100, c1 at next level, right associativity) : py_scope.
Notation "c1 ;;; c2" := (bind c1 (fun _ => c2))
  (at level 100, right associativity) : py_scope.

End Py.

(* ------------------------------------------------------------------ *)
(** ** [demux_video_once] *)
(* ------------------------------------------------------------------ *)
Module Demux.
Import Np Py.
Local Open Scope py_scope.

(** [stream.type]: ['video'], ['audio'] or anything else. *)
Inductive stream_type : Type := Video | Audio | Other.

Definition fraction : Type := (Z * Z)%type.

Record stream : Type := {
  type : stream_type;
  s_width : Z;
  s_height : Z;
  average_rate : fraction;
  s_time_base : fraction;
  s_rate : Z;
  s_channels : Z;
  s_layout : string
}.

Record video_info : Type := {
  width : Z;
  height : Z;
  rate : fraction;
  time_base : fraction
}.

Record audio_info : Type := {
  a_rate : Z;
  channels : Z;
  layout : string
}.

(** The decode boundary.  [container.decode(video=0)] is a lazy finite
    sequence: it yields frames and then either ends or raises;
    [frame.to_ndarray(format='rgb24')] gives the sample grid or raises. *)
Record raw_frame : Type := { to_ndarray : outcome ndarray }.

Record container : Type := {
  streams : outcome (list stream);
  decode_yields : list raw_frame;
  decode_ends : option exn;
  close : outcome unit
}.

(** What happens to the decode resource, in order. *)
Inductive event : Type :=
| Opened          (* [av.open] returned a container *)
| CloseCalled     (* [container.close()] was entered *)
| Closed.         (* [container.close()] returned *)

Definition log : Type := list event.

Definition emit (e : event) : M log unit := modify (fun l => l ++ [e]).

(** [for stream in container.streams: if stream.type == 'video': ...; break] *)
Fixpoint first_video (ss : list stream) : option video_info :=
  match ss with
  | [] => None
  | s :: t =>
      match type s with
      | Video => Some {| width := s_width s; height := s_height s;
                         rate := average_rate s; time_base := s_time_base s |}
      | _ => first_video t
      end
  end.

Fixpoint first_audio (ss : list stream) : option audio_info :=
  match ss with
  | [] => None
  | s :: t =>
      match type s with
      | Audio => Some {| a_rate := s_rate s; channels := s_channels s;
                         layout := s_layout s |}
      | _ => first_audio t
      end
  end.

(** [for frame in container.decode(video=0): frames.append(frame.to_ndarray(...))],
    [frames] being the list accumulated so far. *)
Fixpoint decode_loop (frames : list ndarray) (items : list raw_frame)
    (ending : option exn) : M log (list ndarray) :=
  match items with
  | [] => match ending with
          | None => ret frames
          | Some e => raise e
          end
  | f :: t =>
      img <- call (to_ndarray f) ;;
      decode_loop (frames ++ [img]) t ending
  end.

Definition result : Type :=
  (option (list ndarray) * option video_info * option audio_info)%type.

(** The body of the [try]. *)
Definition demux_body (av_open : string -> outcome container)
    (input_file : string)
  : M log (list ndarray * option video_info * option audio_info) :=
  c <- call (av_open input_file) ;;
  emit Opened ;;;
  ss <- call (streams c) ;;
  let video := first_video ss in
  ss' <- call (streams c) ;;
  let audio := first_audio ss' in
  frames <- decode_loop [] (decode_yields c) (decode_ends c) ;;
  emit CloseCalled ;;;
  call (close c) ;;;
  emit Closed ;;;
  ret (frames, video, audio).

Definition demux_video_once (av_open : string -> outcome container)
    (input_file : string) : M log result :=
  try_except
    (r <- demux_body av_open input_file ;;
     ret (Some (fst (fst r)), snd (fst r), snd r))
    (fun _ => ret (None, None, None)).

(** Where a run can fail: the calls of the [try] body that cross the
    decode boundary. *)
Inductive failure : Type :=
| AtOpen              (* [av.open] raises: missing or corrupt file *)
| AtStreams           (* reading [container.streams] raises *)
| AtFrame (k : nat)   (* [to_ndarray] raises on the [k]-th frame *)
| AtDecode            (* the decoder raises after the frames it yielded *)
| AtClose.            (* [container.close()] raises *)

Inductive fails_at (av_open : string -> outcome container) (input_file : string)
  : failure -> Prop :=
| fails_open e :
    av_open input_file = Raises e ->
    fails_at av_open input_file AtOpen
| fails_streams c e :
    av_open input_file = Returns c -> streams c = Raises e ->
    fails_at av_open input_file AtStreams
| fails_frame c k f e :
    av_open input_file = Returns c ->
    decode_yields c !! k = Some f -> to_ndarray f = Raises e ->
    fails_at av_open input_file (AtFrame k)
| fails_decode c e :
    av_open input_file = Returns c -> decode_ends c = Some e ->
    fails_at av_open input_file AtDecode
| fails_close c e :
    av_open input_file = Returns c -> close c = Raises e ->
    fails_at av_open input_file AtClose.

(** The triple of a failed run. *)
Definition absent : result := (None, None, None).

End Demux.

(* ------------------------------------------------------------------ *)
(** ** [process_all_frames] and the thread fan-out of [main] *)
(* ------------------------------------------------------------------ *)
Module Render.
Import Np Py.
Local Open Scope py_scope.

Definition packet : Type := Z.

(** A file a renderer has written: left unfinished, or closed.  A path
    with no entry is a file that does not exist. *)
Inductive file : Type :=
| Partial (written : list packet)
| Finalized (written : list packet).

(** The world a renderer runs in: the arrays it shares with its
    siblings, and the files on disk. *)
Record world : Type := {
  arrays : Engine.store;
  fs : gmap string file
}.

Definition set_arrays (s : Engine.store) (w : world) : world :=
  {| arrays := s; fs := fs w |}.
Definition set_fs (f : gmap string file) (w : world) : world :=
  {| arrays := arrays w; fs := f |}.

(** The encode boundary as one renderer meets it: the outcome of every
    call it makes, by the number of the frame (and of the packet), and
    what the library has on disk of an output it opened and never
    closed.  Of the disk the boundary promises one thing, that [close]
    finalizes the file; when the file first appears and how much of it
    is there before [close] is the library's business. *)
Record encoder : Type := {
  open_out : outcome unit;              (* [av.open(output_file, mode='w')] *)
  add_stream : outcome unit;            (* [add_stream('libx264', rate=30)] and the three attributes *)
  from_ndarray : nat -> outcome unit;   (* [av.VideoFrame.from_ndarray] *)
  encode : nat -> outcome (list packet);(* [video_stream.encode(new_frame)] *)
  mux : nat -> nat -> outcome unit;     (* [out_container.mux(packet)] *)
  flush : outcome (list packet);        (* [video_stream.encode()] *)
  close_out : outcome unit;             (* [out_container.close()] *)
  unclosed : option (list packet)       (* on disk of an output never closed:
                                           nothing of it, or an unfinished file *)
}.

(** [out_container], as the renderer holds it between [av.open] and
    [close]: the packets muxed into it so far. *)
Definition output : Type := list packet.

(** The run is over and [close] was not reached: the target is what the
    library leaves of the output, an unfinished file or the target as it
    was before the open. *)
Definition abandon (enc : encoder) (path : string) (w : world) : world :=
  match unclosed enc with
  | Some written => set_fs (<[path := Partial written]> (fs w)) w
  | None => w
  end.

(** A call on the open output.  Nothing between it and the [except]
    closes the output, so a raise here abandons it. *)
Definition on_output {A} (enc : encoder) (path : string) (o : outcome A)
  : M world A :=
  fun w => match o with
           | Returns a => (Returns a, w)
           | Raises e => (Raises e, abandon enc path w)
           end.

(** [close] has returned: the file is finalized over the packets
    muxed. *)
Definition finalize (path : string) (out : output) : M world unit :=
  modify (fun w => set_fs (<[path := Finalized out]> (fs w)) w).

Section WithExtern.
Context {E : Extern}.

(** [processed_img = apply_video_effects(img, effect_variant)] on the
    shared arrays. *)
Definition effects (D : Draws) (img : nat) (effect_variant : Z) : M world nat :=
  fun w =>
    let sr := Engine.apply_video_effects D (arrays w) img effect_variant in
    (Returns (snd sr), set_arrays (fst sr) w).

(** [out_container.mux(packet)], the [j]-th packet of frame [i] *)
Definition mux_one (enc : encoder) (output_file : string) (i j : nat)
    (p : packet) (out : output) : M world output :=
  on_output enc output_file (mux enc i j) ;;;
  ret (out ++ [p]).

(** [for packet in packets: out_container.mux(packet)] *)
Definition mux_packets (enc : encoder) (output_file : string) (i : nat)
    (packets : list packet) (out : output) : M world output :=
  for_fold 0 packets out (mux_one enc output_file i).

(** One turn of [for img in all_frames]; [draws i] are the draws of the
    call on frame [i]. *)
Definition render_frame (enc : encoder) (draws : nat -> Draws)
    (output_file : string) (effect_variant : Z) (i img : nat) (out : output)
  : M world output :=
  processed_img <- effects (draws i) img effect_variant ;;
  on_output enc output_file (from_ndarray enc i) ;;;
  packets <- on_output enc output_file (encode enc i) ;;
  mux_packets enc output_file i packets out.

(** The arrays after the effect calls on [all_frames], frame [i0]
    onwards, each call working on what the calls before it left. *)
Fixpoint render_arrays (draws : nat -> Draws) (effect_variant : Z) (i0 : nat)
    (all_frames : list nat) (s : Engine.store) : Engine.store :=
  match all_frames with
  | [] => s
  | img :: t =>
      render_arrays draws effect_variant (S i0) t
        (fst (Engine.apply_video_effects (draws i0) s img effect_variant))
  end.

(** The body of the [try]. *)
Definition render_body (enc : encoder) (draws : nat -> Draws)
    (all_frames : list nat) (output_file : string) (effect_variant : Z)
  : M world unit :=
  call (open_out enc) ;;;
  on_output enc output_file (add_stream enc) ;;;
  out <- for_fold 0 all_frames []
           (render_frame enc draws output_file effect_variant) ;;
  packets <- on_output enc output_file (flush enc) ;;
  out <- mux_packets enc output_file (length all_frames) packets out ;;
  on_output enc output_file (close_out enc) ;;;
  finalize output_file out.

Definition process_all_frames (enc : encoder) (draws : nat -> Draws)
    (all_frames : list nat) (output_file : string) (effect_variant : Z)
    (thread_id : nat) : M world unit :=
  try_except
    (render_body enc draws all_frames output_file effect_variant)
    (fun _ => ret tt).

Definition processed_files : list string :=
  ["temp_processed_1.mp4"; "temp_processed_2.mp4";
   "temp_processed_3.mp4"; "temp_processed_4.mp4"]%string.

(** The four threads of [main], each run to its end before the next
    starts, in the order [schedule] gives. *)
Definition render_all (encs : nat -> encoder) (draws : nat -> nat -> Draws)
    (all_frames : list nat) (schedule : list nat) : M world unit :=
  for_each 0 schedule (fun _ i =>
    process_all_frames (encs i) (draws i) all_frames
      (nth i processed_files ""%string) (Z.of_nat i) i).

(** The arrays after the renderers of [schedule] have all made their
    effect calls. *)
Definition fan_out_arrays (draws : nat -> nat -> Draws) (all_frames : list nat)
    (schedule : list nat) (s : Engine.store) : Engine.store :=
  fold_left (fun s i => render_arrays (draws i) (Z.of_nat i) 0 all_frames s)
    schedule s.

End WithExtern.

(** *** What an encoder lets through

    Read off the outcomes alone: whether every call of a run over [n]
    frames returns, and the packets such a run writes. *)
Definition muxes (enc : encoder) (i j0 : nat) (packets : list packet) : bool :=
  forallb (fun j => returned (mux enc i j)) (seq j0 (length packets)).

Definition frame_packets (enc : encoder) (i : nat) : list packet :=
  match encode enc i with Returns ps => ps | Raises _ => [] end.

Definition frame_ok (enc : encoder) (i : nat) : bool :=
  returned (from_ndarray enc i) && returned (encode enc i) &&
  muxes enc i 0 (frame_packets enc i).

Definition flush_packets (enc : encoder) : list packet :=
  match flush enc with Returns ps => ps | Raises _ => [] end.

Definition clean (enc : encoder) (n : nat) : bool :=
  returned (open_out enc) && returned (add_stream enc) &&
  forallb (frame_ok enc) (seq 0 n) &&
  returned (flush enc) && muxes enc n 0 (flush_packets enc) &&
  returned (close_out enc).

Definition packets_of (enc : encoder) (n : nat) : list packet :=
  concat (map (frame_packets enc) (seq 0 n)) ++ flush_packets enc.

(** Every file but [path] is as it was. *)
Definition same_files_except (path : string) (w w' : world) : Prop :=
  forall p, p <> path -> fs w' !! p = fs w !! p.

End Render.

(* ------------------------------------------------------------------ *)
(** ** [mux_videos] *)
(* ------------------------------------------------------------------ *)
Module Mux.
Import Py.
Local Open Scope py_scope.

(** The filesystem and the remux tool as the loop meets them: the
    outcome of the calls of iteration [i]. *)
Record tools : Type := {
  path_exists : nat -> string -> bool;             (* [os.path.exists] *)
  subprocess_run : nat -> list string -> outcome Z;(* [result.returncode] *)
  copy2 : nat -> string -> string -> outcome unit  (* [shutil.copy2] *)
}.

(** The calls [mux_videos] makes, in order. *)
Inductive event : Type :=
| Exists (i : nat) (path : string)
| Ffmpeg (i : nat) (cmd : list string)
| Copy (i : nat) (src dst : string).

Definition log : Type := list event.

Definition emit (e : event) : M log unit := modify (fun l => l ++ [e]).

Definition ffmpeg_cmd (processed_file final_output : string) : list string :=
  ["ffmpeg"; "-y"; "-i"; processed_file; "-i"; "test.mp4";
   "-c:v"; "copy"; "-c:a"; "aac"; "-map"; "0:v:0"; "-map"; "1:a:0";
   "-shortest"; final_output]%string.

(** One iteration of the loop: the [try] with its [continue]. *)
Definition mux_pair (T : tools) (i : nat) (processed_file final_output : string)
  : M log unit :=
  try_except
    (emit (Exists i processed_file) ;;;
     if negb (path_exists T i processed_file) then ret tt
     else
       let cmd := ffmpeg_cmd processed_file final_output in
       emit (Ffmpeg i cmd) ;;;
       returncode <- call (subprocess_run T i cmd) ;;
       if (returncode =? 0)%Z then ret tt
       else
         emit (Copy i processed_file final_output) ;;;
         call (copy2 T i processed_file final_output))
    (fun _ => ret tt).

Definition mux_videos (T : tools) (processed_files final_outputs : list string)
  : M log unit :=
  for_each 0 (zip processed_files final_outputs) (fun i po =>
    mux_pair T i (fst po) (snd po)).

(** The calls one iteration makes, read off the outcomes the tools
    give it. *)
Definition pair_events (T : tools) (i : nat) (processed_file final_output : string)
  : list event :=
  Exists i processed_file ::
  if path_exists T i processed_file then
    Ffmpeg i (ffmpeg_cmd processed_file final_output) ::
    match subprocess_run T i (ffmpeg_cmd processed_file final_output) with
    | Returns returncode =>
        if (returncode =? 0)%Z then []
        else [Copy i processed_file final_output]
    | Raises _ => []
    end
  else [].

Definition is_exists (e : event) : bool :=
  match e with Exists _ _ => true | _ => false end.

End Mux.

(* ------------------------------------------------------------------ *)
(** ** [main]: demux, fan-out, remux, cleanup *)
(* ------------------------------------------------------------------ *)
Module Driver.
Import Np Py.
Local Open Scope py_scope.

Definition input_file : string := "test.mp4".

Definition final_outputs : list string :=
  ["out1.mp4"; "out2.mp4"; "out3.mp4"; "out4.mp4"]%string.

(** Everything [main] meets outside itself.  [schedule] is the order in
    which the four threads run to their end, a permutation of
    [0; 1; 2; 3]; [output_exists] is what [os.path.exists] answers for
    a final output once the remux phase is over. *)
Record environment : Type := {
  input_exists : bool;                              (* [os.path.exists(input_file)] *)
  av_open : string -> outcome Demux.container;
  encoders : nat -> Render.encoder;
  draws : nat -> nat -> Draws;
  schedule : list nat;
  subprocess_run : nat -> list string -> outcome Z;
  copy2 : nat -> string -> string -> outcome unit;
  output_exists : string -> bool;
  remove : string -> outcome unit                   (* [os.remove] *)
}.

(** The world of a run: the decode resource, the arrays and the files
    of the renderers, the calls of the remux phase. *)
Record world : Type := {
  decoding : Demux.log;
  rendering : Render.world;
  muxing : Mux.log
}.

Definition in_decoding {A} (m : M Demux.log A) : M world A :=
  fun w => let r := m (decoding w) in
           (fst r, {| decoding := snd r; rendering := rendering w;
                      muxing := muxing w |}).

Definition in_rendering {A} (m : M Render.world A) : M world A :=
  fun w => let r := m (rendering w) in
           (fst r, {| decoding := decoding w; rendering := snd r;
                      muxing := muxing w |}).

Definition in_muxing {A} (m : M Mux.log A) : M world A :=
  fun w => let r := m (muxing w) in
           (fst r, {| decoding := decoding w; rendering := rendering w;
                      muxing := snd r |}).

(** The frames demux returned become arrays the threads share;
    [all_frames] holds their addresses, in decode order. *)
Definition load (frames : list ndarray) : M Render.world (list nat) :=
  fun w => (Returns (seq (length (Render.arrays w)) (length frames)),
            Render.set_arrays (Render.arrays w ++ frames) w).

(** [os.path.exists] on the files of the run. *)
Definition on_disk (files : gmap string Render.file) (path : string) : bool :=
  bool_decide (is_Some (files !! path)).

(** The tools of the remux phase.  The phase writes final outputs only,
    so a rendered file exists throughout it exactly when the renderers
    left it on disk. *)
Definition tools_of (env : environment) (files : gmap string Render.file)
  : Mux.tools :=
  {| Mux.path_exists := fun _ path => on_disk files path;
     Mux.subprocess_run := subprocess_run env;
     Mux.copy2 := copy2 env |}.

(** [if os.path.exists(temp_file): os.remove(temp_file)] inside its
    [try]. *)
Definition remove_temp (env : environment) (temp_file : string)
  : M Render.world unit :=
  try_except
    (fun w =>
       if on_disk (Render.fs w) temp_file
       then (call (remove env temp_file) ;;;
             modify (fun w' => Render.set_fs (delete temp_file (Render.fs w')) w')) w
       else ret tt w)
    (fun _ => ret tt).

(** The end of [main]: the temporary files go only if all the final
    outputs are there. *)
Definition cleanup (env : environment) : M Render.world unit :=
  if forallb (output_exists env) final_outputs
  then for_each 0 Render.processed_files (fun _ temp_file => remove_temp env temp_file)
  else ret tt.

Section WithExtern.
Context {E : Extern}.

(** [main] up to the join of the threads: [None] when it returned
    early (no input file, or demux failed), the shared frame list
    otherwise. *)
Definition decode_and_render (env : environment) : M world (option (list nat)) :=
  if negb (input_exists env) then ret None
  else
    r <- in_decoding (Demux.demux_video_once (av_open env) input_file) ;;
    match fst (fst r) with
    | None => ret None
    | Some frames =>
        all_frames <- in_rendering (load frames) ;;
        in_rendering (Render.render_all (encoders env) (draws env) all_frames
                        (schedule env)) ;;;
        ret (Some all_frames)
    end.

(** [main] from [mux_videos] on. *)
Definition mux_and_cleanup (env : environment) : M world unit :=
  fun w =>
    (in_muxing (Mux.mux_videos (tools_of env (Render.fs (rendering w)))
                  Render.processed_files final_outputs) ;;;
     in_rendering (cleanup env)) w.

Definition main (env : environment) : M world unit :=
  r <- decode_and_render env ;;
  match r with
  | None => ret tt
  | Some _ => mux_and_cleanup env
  end.

End WithExtern.

(** A run starts with no array, nothing decoded, nothing muxed, and
    whatever files earlier runs left. *)
Definition boot (files : gmap string Render.file) : world :=
  {| decoding := [];
     rendering := {| Render.arrays := []; Render.fs := files |};
     muxing := [] |}.

End Driver.

(* ------------------------------------------------------------------ *)
(** ** Concrete inputs *)
(* ------------------------------------------------------------------ *)
Module Sample.
Import Np Py.

(** A 1x2 frame: a dark and a bright pixel. *)
Definition two_pixels : ndarray := U8 [ [ [10; 20; 30]; [200; 220; 240] ] ].

(** A container with no stream at all: nothing to decode. *)
Definition empty_container : Demux.container :=
  {| Demux.streams := Returns [];
     Demux.decode_yields := [];
     Demux.decode_ends := None;
     Demux.close := Returns tt |}.

Definition hd_720 : Demux.stream :=
  {| Demux.type := Demux.Video; Demux.s_width := 1280; Demux.s_height := 720;
     Demux.average_rate := (30, 1); Demux.s_time_base := (1, 30);
     Demux.s_rate := 0; Demux.s_channels := 0; Demux.s_layout := "" |}.

Definition sd_480 : Demux.stream :=
  {| Demux.type := Demux.Video; Demux.s_width := 640; Demux.s_height := 480;
     Demux.average_rate := (15, 1); Demux.s_time_base := (1, 15);
     Demux.s_rate := 0; Demux.s_channels := 0; Demux.s_layout := "" |}.

Definition subtitles : Demux.stream :=
  {| Demux.type := Demux.Other; Demux.s_width := 0; Demux.s_height := 0;
     Demux.average_rate := (0, 1); Demux.s_time_base := (0, 1);
     Demux.s_rate := 0; Demux.s_channels := 0; Demux.s_layout := "" |}.

Definition stereo : Demux.stream :=
  {| Demux.type := Demux.Audio; Demux.s_width := 0; Demux.s_height := 0;
     Demux.average_rate := (0, 1); Demux.s_time_base := (1, 44100);
     Demux.s_rate := 44100; Demux.s_channels := 2; Demux.s_layout := "stereo" |}.

Definition surround : Demux.stream :=
  {| Demux.type := Demux.Audio; Demux.s_width := 0; Demux.s_height := 0;
     Demux.average_rate := (0, 1); Demux.s_time_base := (1, 48000);
     Demux.s_rate := 48000; Demux.s_channels := 6; Demux.s_layout := "5.1" |}.

(** A container with a video and two audio streams that decodes to two
    frames. *)
Definition good_container : Demux.container :=
  {| Demux.streams := Returns [hd_720; stereo; surround];
     Demux.decode_yields := [ {| Demux.to_ndarray := Returns two_pixels |};
                              {| Demux.to_ndarray := Returns (U8 [ [ [1; 2; 3]; [4; 5; 6] ] ]) |} ];
     Demux.decode_ends := None;
     Demux.close := Returns tt |}.

(** A container whose decoder yields one good frame and then breaks. *)
Definition breaking_container : Demux.container :=
  {| Demux.streams := Returns [];
     Demux.decode_yields := [ {| Demux.to_ndarray := Returns two_pixels |} ];
     Demux.decode_ends := Some "Decode error"%string;
     Demux.close := Returns tt |}.

Definition opens (c : Demux.container) (path : string) : outcome Demux.container :=
  if String.eqb path "test.mp4" then Returns c else Raises "File not found"%string.

(** Three rendered files, all present; the remux tool fails on the
    second one only. *)
Definition second_fails : Mux.tools :=
  {| Mux.path_exists := fun _ _ => true;
     Mux.subprocess_run := fun i _ => Returns (if (i =? 1)%nat then 1 else 0);
     Mux.copy2 := fun _ _ _ => Returns tt |}.

(** The rendered files are there, the remux tool is not installed. *)
Definition no_ffmpeg : Mux.tools :=
  {| Mux.path_exists := fun _ _ => true;
     Mux.subprocess_run := fun _ _ => Raises "No such file or directory: 'ffmpeg'"%string;
     Mux.copy2 := fun _ _ _ => Returns tt |}.

(** An encoder on which every call returns, one packet per frame. *)
Definition quiet_encoder : Render.encoder :=
  {| Render.open_out := Returns tt;
     Render.add_stream := Returns tt;
     Render.from_ndarray := fun _ => Returns tt;
     Render.encode := fun i => Returns [Z.of_nat i];
     Render.mux := fun _ _ => Returns tt;
     Render.flush := Returns [];
     Render.close_out := Returns tt;
     Render.unclosed := None |}.

(** An encoder that cannot open its target. *)
Definition locked_encoder : Render.encoder :=
  {| Render.open_out := Raises "Permission denied"%string;
     Render.add_stream := Returns tt;
     Render.from_ndarray := fun _ => Returns tt;
     Render.encode := fun i => Returns [Z.of_nat i];
     Render.mux := fun _ _ => Returns tt;
     Render.flush := Returns [];
     Render.close_out := Returns tt;
     Render.unclosed := None |}.

(** An encoder that opens its target and has no [libx264]. *)
Definition no_codec : Render.encoder :=
  {| Render.open_out := Returns tt;
     Render.add_stream := Raises "Unknown codec"%string;
     Render.from_ndarray := fun _ => Returns tt;
     Render.encode := fun i => Returns [Z.of_nat i];
     Render.mux := fun _ _ => Returns tt;
     Render.flush := Returns [];
     Render.close_out := Returns tt;
     Render.unclosed := Some [] |}.

(** An encoder that refuses the second frame it is given. *)
Definition chokes_on_second : Render.encoder :=
  {| Render.open_out := Returns tt;
     Render.add_stream := Returns tt;
     Render.from_ndarray := fun i =>
       if (i =? 1)%nat then Raises "Conversion failed"%string else Returns tt;
     Render.encode := fun i => Returns [Z.of_nat i];
     Render.mux := fun _ _ => Returns tt;
     Render.flush := Returns [];
     Render.close_out := Returns tt;
     Render.unclosed := Some [0] |}.


(** A 1x1 black frame. *)
Definition black_pixel : ndarray := U8 [ [ [0; 0; 0] ] ].

(** Library functions that return their input: enough to run a
    pipeline where the theorems quantify over every [Extern]. *)
Definition plain_extern : Extern :=
  {| cast_undefined := fun _ => 0;
     np_power := fun x _ => x;
     np_sin := fun _ => 0%float;
     np_exp := fun _ => 1%float;
     np_linspace := fun a _ _ _ => a;
     np_percentile := fun _ _ => 0%float;
     gaussian_filter := fun a _ => a;
     median_filter := fun a _ => a;
     uniform_filter := fun a _ => a;
     sobel := fun p => p |}.

(** The same library functions with a cast that saturates where C
    leaves the result open. *)
Definition saturating_extern : Extern :=
  {| cast_undefined := fun _ => 255;
     np_power := fun x _ => x;
     np_sin := fun _ => 1%float;
     np_exp := fun _ => 1%float;
     np_linspace := fun a _ _ _ => a;
     np_percentile := fun _ _ => 0%float;
     gaussian_filter := fun a _ => a;
     median_filter := fun a _ => a;
     uniform_filter := fun a _ => a;
     sobel := fun p => p |}.

(** Library functions whose power function fails: it answers NaN. *)
Definition nan_power : Extern :=
  {| cast_undefined := fun _ => 0;
     np_power := fun _ _ => PrimFloat.nan;
     np_sin := fun _ => 0%float;
     np_exp := fun _ => 1%float;
     np_linspace := fun a _ _ _ => a;
     np_percentile := fun _ _ => 0%float;
     gaussian_filter := fun a _ => a;
     median_filter := fun a _ => a;
     uniform_filter := fun a _ => a;
     sobel := fun p => p |}.

(** Draws that hit every mask. *)
Definition heavy_noise : Draws :=
  {| film_grain := fun _ _ _ => 5%float;
     digital_noise := fun _ _ _ => 9;
     corrupt_u := fun _ _ => 0%float;
     corrupt_val := fun _ _ _ => 254;
     moss_texture := fun _ _ _ => 3%float;
     bark_u := fun _ _ _ => 0.9%float;
     sunlight_u := fun _ _ => 0%float;
     organic_grain := fun _ _ _ => 2%float;
     embers_u := fun _ _ => 0%float;
     ember_green := fun _ _ => 199;
     smoke_u := fun _ _ => 0%float;
     flicker := fun _ _ _ => 1.05%float;
     flame_texture := fun _ _ _ => 8%float |}.

Definition no_noise : Draws :=
  {| film_grain := fun _ _ _ => 0%float;
     digital_noise := fun _ _ _ => 0;
     corrupt_u := fun _ _ => 0.5%float;
     corrupt_val := fun _ _ _ => 0;
     moss_texture := fun _ _ _ => 0%float;
     bark_u := fun _ _ _ => 0.5%float;
     sunlight_u := fun _ _ => 0.5%float;
     organic_grain := fun _ _ _ => 0%float;
     embers_u := fun _ _ => 0.5%float;
     ember_green := fun _ _ => 150;
     smoke_u := fun _ _ => 0.5%float;
     flicker := fun _ _ _ => 1%float;
     flame_texture := fun _ _ _ => 0%float |}.

(** A run where the input decodes, the third renderer cannot open its
    target, the remux tool works and every final output is there at
    the end. *)
Definition third_locked : Driver.environment :=
  {| Driver.input_exists := true;
     Driver.av_open := opens good_container;
     Driver.encoders := fun i => if (i =? 2)%nat then locked_encoder else quiet_encoder;
     Driver.draws := fun _ _ => no_noise;
     Driver.schedule := [0; 1; 2; 3]%nat;
     Driver.subprocess_run := fun _ _ => Returns 0;
     Driver.copy2 := fun _ _ _ => Returns tt;
     Driver.output_exists := fun _ => true;
     Driver.remove := fun _ => Returns tt |}.

(** The same run on an input whose decoder breaks. *)
Definition broken_input : Driver.environment :=
  {| Driver.input_exists := true;
     Driver.av_open := opens breaking_container;
     Driver.encoders := fun _ => quiet_encoder;
     Driver.draws := fun _ _ => no_noise;
     Driver.schedule := [0; 1; 2; 3]%nat;
     Driver.subprocess_run := fun _ _ => Returns 0;
     Driver.copy2 := fun _ _ _ => Returns tt;
     Driver.output_exists := fun _ => true;
     Driver.remove := fun _ => Returns tt |}.

End Sample.

(* ================================================================== *)
(** * Properties *)
(* ================================================================== *)

(* ------------------------------------------------------------------ *)
(** ** Demux: failing as a unit *)
(* ------------------------------------------------------------------ *)
Module DemuxSpec.
Import Np Py Demux.

(** An event is not in a log written out in full. *)
Ltac no_such_event :=
  let H := fresh "Hin" in
  intros H;
  repeat (apply elem_of_cons in H as [H|H]; [discriminate H|]);
  apply elem_of_nil in H; exact H.

(** The decode loop either returns every frame the decoder yielded, in
    order and after those already accumulated, or raises; it touches no
    resource. *)
Lemma decode_loop_spec items ending : forall acc l,
  (exists imgs,
      Forall2 (fun f img => to_ndarray f = Returns img) items imgs /\
      ending = None /\
      decode_loop acc items ending l = (Returns (acc ++ imgs), l)) \/
  (exists e,
      decode_loop acc items ending l = (Raises e, l) /\
      (ending = Some e \/
       exists k f, items !! k = Some f /\ to_ndarray f = Raises e)).
Proof.
  induction items as [|f items IH]; intros acc l; simpl.
  - destruct ending as [e|].
    + right. exists e. split; [reflexivity | now left].
    + left. exists []. rewrite app_nil_r. repeat split. constructor.
  - unfold bind, call. destruct (to_ndarray f) as [img|e] eqn:Hf.
    + destruct (IH (acc ++ [img]) l) as [(imgs & Hall & Hend & Hrun)|(e & Hrun & Hwhy)].
      * left. exists (img :: imgs). rewrite Hrun, <- app_assoc. simpl.
        repeat split; [constructor|]; assumption.
      * right. exists e. split; [assumption|].
        destruct Hwhy as [?|(k & f' & Hk & Hf')]; [now left|].
        right. exists (S k), f'. split; assumption.
    + right. exists e. split; [reflexivity|].
      right. exists 0%nat, f. split; [reflexivity | assumption].
Qed.

(** A run that fails anywhere does not return from the body. *)
Lemma demux_body_fails av_open input_file p l :
  fails_at av_open input_file p ->
  exists e l', demux_body av_open input_file l = (Raises e, l').
Proof.
  intros Hfail. unfold demux_body, bind, call, emit, modify, ret.
  destruct (av_open input_file) as [c|e0] eqn:Hopen; [|eauto].
  destruct (streams c) as [ss|e1] eqn:Hss; [|eauto].
  destruct (decode_loop_spec (decode_yields c) (decode_ends c) [] (l ++ [Opened]))
    as [(imgs & Hall & Hend & Hrun)|(e & Hrun & _)]; rewrite Hrun; [|eauto].
  destruct (close c) as [[]|e2] eqn:Hclose; [|eauto].
  exfalso. inversion Hfail; subst; try congruence.
  match goal with
  | Hk : decode_yields ?c' !! _ = Some _ |- _ =>
      assert (c' = c) by congruence; subst c';
      destruct (Forall2_lookup_l _ _ _ _ _ Hall Hk) as (img & _ & Himg)
  end.
  congruence.
Qed.

(** What a run does, case by case: it either returns every frame and
    the first stream of each kind, with the container opened and closed,
    or the absent triple. *)
Lemma demux_cases av_open input_file l :
  (exists c ss frames,
      av_open input_file = Returns c /\ streams c = Returns ss /\
      Forall2 (fun f img => to_ndarray f = Returns img) (decode_yields c) frames /\
      decode_ends c = None /\ close c = Returns tt /\
      demux_video_once av_open input_file l =
        (Returns (Some frames, first_video ss, first_audio ss),
         l ++ [Opened; CloseCalled; Closed])) \/
  (exists l',
      demux_video_once av_open input_file l = (Returns absent, l') /\
      (l' = l \/ l' = l ++ [Opened] \/ l' = l ++ [Opened; CloseCalled])).
Proof.
  unfold demux_video_once, try_except, demux_body, bind, call, emit, modify, ret.
  destruct (av_open input_file) as [c|e0] eqn:Hopen; [|right; eauto].
  destruct (streams c) as [ss|e1] eqn:Hss; [|right; eauto].
  destruct (decode_loop_spec (decode_yields c) (decode_ends c) [] (l ++ [Opened]))
    as [(imgs & Hall & Hend & Hrun)|(e & Hrun & _)]; rewrite Hrun;
    [|right; eauto].
  destruct (close c) as [[]|e2] eqn:Hclose; simpl.
  - left. exists c, ss, imgs. rewrite <- !app_assoc. simpl. repeat split; assumption.
  - right. eexists. split; [reflexivity|]. rewrite <- app_assoc. auto.
Qed.

(** The absent triple comes from a failure: one of the calls of the
    body raised. *)
Lemma demux_absent_fails av_open input_file l :
  fst (demux_video_once av_open input_file l) = Returns absent ->
  exists p, fails_at av_open input_file p.
Proof.
  unfold demux_video_once, try_except, demux_body, bind, call, emit, modify, ret.
  destruct (av_open input_file) as [c|e0] eqn:Hopen;
    [|intros _; exists AtOpen; eapply fails_open; eauto].
  destruct (streams c) as [ss|e1] eqn:Hss;
    [|intros _; exists AtStreams; eapply fails_streams; eauto].
  destruct (decode_loop_spec (decode_yields c) (decode_ends c) [] (l ++ [Opened]))
    as [(imgs & Hall & Hend & Hrun)|(e & Hrun & Hwhy)]; rewrite Hrun.
  - destruct (close c) as [[]|e2] eqn:Hclose; simpl.
    + discriminate.
    + intros _. exists AtClose. eapply fails_close; eauto.
  - intros _. destruct Hwhy as [He|(k & f & Hk & Hf)].
    + exists AtDecode. eapply fails_decode; eauto.
    + exists (AtFrame k). eapply fails_frame; eauto.
Qed.

(** C3: a valid container with zero streams decodes to a present, empty
    frame sequence with both metadata fields absent.  The two cases are
    told apart exactly: the absent triple is what a run returns when,
    and only when, one of its calls fails, and the run on the valid
    empty container is no such run. *)
Theorem demux_empty_container_present av_open input_file c l :
  av_open input_file = Returns c ->
  streams c = Returns [] ->
  decode_yields c = [] ->
  decode_ends c = None ->
  close c = Returns tt ->
  fst (demux_video_once av_open input_file l) = Returns (Some [], None, None) /\
  ~ (exists p, fails_at av_open input_file p) /\
  (forall av_open' input_file' l',
     fst (demux_video_once av_open' input_file' l') = Returns absent <->
     exists p, fails_at av_open' input_file' p).
Proof.
  intros Hopen Hss Hy He Hc.
  assert (Hrun : fst (demux_video_once av_open input_file l)
                 = Returns (Some [], None, None)).
  { unfold demux_video_once, try_except, demux_body, bind, call, emit, modify, ret.
    rewrite Hopen, Hss, Hy, He. simpl. rewrite Hc. reflexivity. }
  split; [exact Hrun|]. split.
  - intros (p & Hfail).
    destruct (demux_body_fails av_open input_file p l Hfail) as (e & l' & Hbody).
    unfold demux_video_once, try_except, bind in Hrun. rewrite Hbody in Hrun.
    discriminate.
  - intros av_open' input_file' l'. split; [apply demux_absent_fails|].
    intros (p & Hfail).
    destruct (demux_body_fails av_open' input_file' p l' Hfail)
      as (e & l'' & Hbody).
    unfold demux_video_once, try_except, bind. rewrite Hbody. reflexivity.
Qed.

Lemma demux_empty_container_witness :
  fst (demux_video_once (Sample.opens Sample.empty_container) "test.mp4" [])
    = Returns (Some [], None, None) /\
  ~ (exists p, fails_at (Sample.opens Sample.empty_container) "test.mp4" p) /\
  (forall av_open' input_file' l',
     fst (demux_video_once av_open' input_file' l') = Returns absent <->
     exists p, fails_at av_open' input_file' p).
Proof.
  apply (demux_empty_container_present
           (Sample.opens Sample.empty_container) "test.mp4" Sample.empty_container []);
    reflexivity.
Defined.

(** C7: whatever fails (the open, the streams, a frame, the decoder
    after some frames, the close), the run returns the absent triple:
    the frames accumulated so far are not returned. *)
Theorem demux_fails_as_a_unit av_open input_file p l :
  fails_at av_open input_file p ->
  fst (demux_video_once av_open input_file l) = Returns absent.
Proof.
  intros Hfail.
  destruct (demux_body_fails av_open input_file p l Hfail) as (e & l' & Hbody).
  unfold demux_video_once, try_except, bind. rewrite Hbody. reflexivity.
Qed.

Lemma demux_fails_as_a_unit_witness :
  fst (demux_video_once (Sample.opens Sample.breaking_container) "test.mp4" [])
    = Returns absent.
Proof.
  apply (demux_fails_as_a_unit
           (Sample.opens Sample.breaking_container) "test.mp4" AtDecode []).
  apply (fails_decode _ _ Sample.breaking_container "Decode error"%string);
    reflexivity.
Defined.

(** A present frame list is the whole of what the decoder yielded. *)
Lemma demux_present_is_complete av_open input_file l frames video audio :
  fst (demux_video_once av_open input_file l) = Returns (Some frames, video, audio) ->
  exists c,
    av_open input_file = Returns c /\
    Forall2 (fun f img => to_ndarray f = Returns img) (decode_yields c) frames /\
    decode_ends c = None.
Proof.
  intros Hres.
  destruct (demux_cases av_open input_file l)
    as [(c & ss & fr & Hopen & _ & Hall & Hend & _ & Hrun)|(l' & Hrun & _)];
    rewrite Hrun in Hres; simpl in Hres.
  - exists c. inversion Hres; subst. auto.
  - discriminate.
Qed.

(** The first video stream in container order gives the video
    metadata; the streams after it are not looked at. *)
Theorem first_video_stream_wins before s after :
  Forall (fun s' => type s' <> Video) before ->
  type s = Video ->
  first_video (before ++ s :: after)
    = Some {| width := s_width s; height := s_height s;
              rate := average_rate s; time_base := s_time_base s |}.
Proof.
  intros Hbefore Hs. induction Hbefore as [|s' before Hs' _ IH]; simpl.
  - rewrite Hs. reflexivity.
  - destruct (type s'); [contradiction|exact IH|exact IH].
Qed.

Lemma first_video_stream_wins_witness :
  first_video ([Sample.subtitles] ++ Sample.hd_720 :: [Sample.sd_480])
    = Some {| width := 1280; height := 720; rate := (30, 1)%Z;
              time_base := (1, 30)%Z |}.
Proof.
  apply (first_video_stream_wins [Sample.subtitles] Sample.hd_720 [Sample.sd_480]).
  - repeat constructor. discriminate.
  - reflexivity.
Defined.

(** C10: the container is closed exactly on the runs that succeed; a
    run that fails before the close (at the open, at the streams, at a
    frame, in the decoder) returns the absent triple without entering
    [container.close()]. *)
Theorem close_only_on_success av_open input_file :
  let r := demux_video_once av_open input_file [] in
  ((Closed ∈ snd r) <->
     (exists frames video audio, fst r = Returns (Some frames, video, audio))) /\
  (forall p, fails_at av_open input_file p -> p <> AtClose ->
     fst r = Returns absent /\ (CloseCalled ∉ snd r) /\ (Closed ∉ snd r)).
Proof.
  cbn zeta. split.
  - destruct (demux_cases av_open input_file [])
      as [(c & ss & fr & _ & _ & _ & _ & _ & Hrun)|(l' & Hrun & Hl)];
      rewrite Hrun; simpl.
    + split; [eauto|]. intros _. do 2 apply list_elem_of_further. apply list_elem_of_here.
    + split.
      * destruct Hl as [->|[->| ->]]; simpl; intros Hin; exfalso; revert Hin;
          no_such_event.
      * intros (? & ? & ? & ?). discriminate.
  - intros p Hfail Hp.
    destruct (demux_body_fails av_open input_file p [] Hfail) as (e & l' & Hbody).
    assert (Hlog : l' = [] \/ l' = [Opened]).
    { revert Hbody.
      unfold demux_body, bind, call, emit, modify, ret.
      destruct (av_open input_file) as [c|e0] eqn:Hopen;
        [|intros [= _ <-]; now left].
      destruct (streams c) as [ss|e1] eqn:Hss; [|intros [= _ <-]; now right].
      destruct (decode_loop_spec (decode_yields c) (decode_ends c) [] ([] ++ [Opened]))
        as [(imgs & Hall & Hend & Hrun)|(e' & Hrun & _)]; rewrite Hrun;
        [|intros [= _ <-]; now right].
      exfalso. inversion Hfail; subst; try congruence.
      match goal with
      | Hk : decode_yields ?c' !! _ = Some _ |- _ =>
          assert (c' = c) by congruence; subst c';
          destruct (Forall2_lookup_l _ _ _ _ _ Hall Hk) as (img & _ & Himg)
      end.
      congruence. }
    unfold demux_video_once, try_except, bind. rewrite Hbody. simpl.
    split; [reflexivity|].
    destruct Hlog as [-> | ->]; split; no_such_event.
Qed.

End DemuxSpec.

(* ------------------------------------------------------------------ *)
(** ** Remux: the fallback copy *)
(* ------------------------------------------------------------------ *)
Module MuxSpec.
Import Py Mux.

(** An iteration never raises, and logs the calls [pair_events] lists. *)
Lemma mux_pair_log T i p o l :
  mux_pair T i p o l = (Returns tt, l ++ pair_events T i p o).
Proof.
  unfold mux_pair, pair_events, try_except, bind, call, emit, modify, ret.
  destruct (path_exists T i p); simpl; [|reflexivity].
  destruct (subprocess_run T i (ffmpeg_cmd p o)) as [rc|e]; simpl.
  - destruct (rc =? 0)%Z; simpl.
    + rewrite <- app_assoc. reflexivity.
    + destruct (copy2 T i p o) as [[]|e]; rewrite <- !app_assoc; reflexivity.
  - rewrite <- app_assoc. reflexivity.
Qed.

Lemma mux_loop_log T pairs : forall i0 l,
  for_each i0 pairs (fun i po => mux_pair T i (fst po) (snd po)) l =
    (Returns tt,
     l ++ mjoin (imap (fun k po => pair_events T (i0 + k) (fst po) (snd po)) pairs)).
Proof.
  induction pairs as [|[p o] pairs IH]; intros i0 l.
  - simpl. rewrite app_nil_r. reflexivity.
  - cbn [for_each]. unfold bind. rewrite mux_pair_log, IH.
    rewrite imap_cons, <- app_assoc, Nat.add_0_r.
    change (mjoin (?x :: ?t)) with (x ++ mjoin t). cbn [fst snd].
    do 4 f_equal. apply imap_ext. intros k po _. unfold compose.
    f_equal. lia.
Qed.

Lemma copy_in_pair_events T i p o j src dst :
  Copy j src dst ∈ pair_events T i p o <->
  j = i /\ src = p /\ dst = o /\ path_exists T i p = true /\
  exists returncode,
    subprocess_run T i (ffmpeg_cmd p o) = Returns returncode /\ returncode <> 0%Z.
Proof.
  unfold pair_events. rewrite elem_of_cons.
  destruct (path_exists T i p).
  - rewrite elem_of_cons.
    destruct (subprocess_run T i (ffmpeg_cmd p o)) as [rc|e].
    + destruct (Z.eqb_spec rc 0) as [->|Hrc].
      * rewrite elem_of_nil. split.
        -- intros [?|[?|[]]]; discriminate.
        -- intros (_ & _ & _ & _ & rc & [= <-] & Hrc). congruence.
      * rewrite elem_of_cons, elem_of_nil. split.
        -- intros [?|[?|[[= -> -> ->]|[]]]]; try discriminate.
           repeat split; eauto.
        -- intros (-> & -> & -> & _). auto.
    + rewrite elem_of_nil. split.
      * intros [?|[?|[]]]; discriminate.
      * intros (_ & _ & _ & _ & rc & ? & _). discriminate.
  - rewrite elem_of_nil. split.
    + intros [?|[]]; discriminate.
    + intros (_ & _ & _ & ? & _). discriminate.
Qed.

(** C9: the fallback copy of a pair is made exactly when its rendered
    file exists and the remux tool returned a non-zero status for it;
    a pair whose tool run returned zero, and every other pair, gets
    none. *)
Theorem fallback_copy_exactly_on_tool_failure T processed_files final_outputs
    j src dst :
  (Copy j src dst ∈ snd (mux_videos T processed_files final_outputs [])) <->
  zip processed_files final_outputs !! j = Some (src, dst) /\
  path_exists T j src = true /\
  exists returncode,
    subprocess_run T j (ffmpeg_cmd src dst) = Returns returncode /\
    returncode <> 0%Z.
Proof.
  unfold mux_videos. rewrite mux_loop_log. simpl.
  rewrite list_elem_of_join. split.
  - intros (evs & Hin & Hevs).
    apply elem_of_lookup_imap in Hevs as (k & [p o] & -> & Hk).
    apply copy_in_pair_events in Hin as (-> & -> & -> & Hex & Hrc).
    simpl in *. auto.
  - intros (Hj & Hex & Hrc).
    exists (pair_events T j src dst). split.
    + apply copy_in_pair_events. auto.
    + apply elem_of_lookup_imap. exists j, (src, dst). auto.
Qed.

Lemma pair_events_one_check T i p o :
  length (filter is_exists (pair_events T i p o)) = 1%nat.
Proof.
  unfold pair_events. destruct (path_exists T i p); [|reflexivity].
  destruct (subprocess_run T i (ffmpeg_cmd p o)) as [rc|e]; [|reflexivity].
  destruct (rc =? 0)%Z; reflexivity.
Qed.

(** Lists of different lengths are processed over their common prefix:
    there are [min (len processed_files) (len final_outputs)] existence
    checks, none for empty lists. *)
Theorem mux_processes_common_prefix T processed_files final_outputs :
  length (filter is_exists (snd (mux_videos T processed_files final_outputs [])))
    = Nat.min (length processed_files) (length final_outputs).
Proof.
  unfold mux_videos. rewrite mux_loop_log. simpl.
  rewrite <- length_zip_with with (f := pair).
  change (zip_with pair processed_files final_outputs)
    with (zip processed_files final_outputs).
  generalize (zip processed_files final_outputs) as pairs.
  assert (Hgen : forall pairs i0,
            length (filter is_exists
                      (mjoin (imap (fun k po =>
                         pair_events T (i0 + k) (fst po) (snd po)) pairs)))
            = length pairs).
  { induction pairs as [|po pairs IH]; intros i0; [reflexivity|].
    rewrite imap_cons. change (mjoin (?x :: ?t)) with (x ++ mjoin t).
    rewrite filter_app, length_app, pair_events_one_check. simpl. f_equal.
    rewrite <- (IH (S i0)). do 3 f_equal. apply imap_ext.
    intros k x _. unfold compose. f_equal. lia. }
  intros pairs. apply (Hgen pairs 0%nat).
Qed.

(** The mixed run of the tests: three pairs, the tool fails on the
    second; one copy, of the second pair. *)
Example mixed_success_failure :
  snd (mux_videos Sample.second_fails
         ["p1.mp4"; "p2.mp4"; "p3.mp4"]%string
         ["o1.mp4"; "o2.mp4"; "o3.mp4"]%string [])
  = [ Exists 0 "p1.mp4"; Ffmpeg 0 (ffmpeg_cmd "p1.mp4" "o1.mp4");
      Exists 1 "p2.mp4"; Ffmpeg 1 (ffmpeg_cmd "p2.mp4" "o2.mp4");
      Copy 1 "p2.mp4" "o2.mp4";
      Exists 2 "p3.mp4"; Ffmpeg 2 (ffmpeg_cmd "p3.mp4" "o3.mp4") ]%string.
Proof. reflexivity. Qed.

End MuxSpec.

(* ------------------------------------------------------------------ *)
(** ** Render: a failure stays inside its renderer *)
(* ------------------------------------------------------------------ *)
Module RenderSpec.
Import Np Py Render.

Lemma same_files_refl path w : same_files_except path w w.
Proof. intros p _. reflexivity. Qed.

Lemma same_files_trans path w1 w2 w3 :
  same_files_except path w1 w2 -> same_files_except path w2 w3 ->
  same_files_except path w1 w3.
Proof. intros H12 H23 p Hp. rewrite H23, H12 by assumption. reflexivity. Qed.

Lemma same_files_write path f w :
  same_files_except path w (set_fs (<[path := f]> (fs w)) w).
Proof. intros p Hp. simpl. apply lookup_insert_ne. congruence. Qed.

Lemma same_files_abandon enc path w : same_files_except path w (abandon enc path w).
Proof.
  unfold abandon. destruct (unclosed enc);
    [apply same_files_write|apply same_files_refl].
Qed.

Lemma arrays_abandon enc path w : arrays (abandon enc path w) = arrays w.
Proof. unfold abandon. destruct (unclosed enc); reflexivity. Qed.

(** What an abandoned output leaves at its path. *)
Lemma target_abandon enc path w :
  fs (abandon enc path w) !! path =
    match unclosed enc with
    | Some written => Some (Partial written)
    | None => fs w !! path
    end.
Proof.
  unfold abandon. destruct (unclosed enc); [|reflexivity].
  apply lookup_insert_eq.
Qed.

Lemma fs_abandon enc path w1 w2 :
  fs w1 = fs w2 -> fs (abandon enc path w1) = fs (abandon enc path w2).
Proof.
  intros H. unfold abandon. destruct (unclosed enc); simpl; rewrite H;
    reflexivity.
Qed.

Lemma abandon_set_arrays enc path s w :
  abandon enc path (set_arrays s w) = set_arrays s (abandon enc path w).
Proof. unfold abandon. destruct (unclosed enc); reflexivity. Qed.

Create HintDb render.
#[local] Hint Resolve same_files_refl same_files_write same_files_abandon : render.

(** How a computation ends on a world: with [Returns] or with
    [Raises]. *)
Lemma bind_returns {W A B} (m : M W A) (k : A -> M W B) w a w' :
  m w = (Returns a, w') -> bind m k w = k a w'.
Proof. intros H. unfold bind. rewrite H. reflexivity. Qed.

Lemma bind_raises {W A B} (m : M W A) (k : A -> M W B) w e w' :
  m w = (Raises e, w') -> bind m k w = (Raises e, w').
Proof. intros H. unfold bind. rewrite H. reflexivity. Qed.

Lemma on_output_spec {A} enc path (o : outcome A) w :
  match o with
  | Returns a => on_output enc path o w = (Returns a, w)
  | Raises e => on_output enc path o w = (Raises e, abandon enc path w)
  end.
Proof. destruct o; reflexivity. Qed.

Section WithExtern.
Context {E : Extern}.

Lemma mux_one_spec enc out i j p acc w :
  if returned (mux enc i j)
  then mux_one enc out i j p acc w = (Returns (acc ++ [p]), w)
  else exists e, mux_one enc out i j p acc w = (Raises e, abandon enc out w).
Proof.
  unfold mux_one, bind, on_output, ret.
  destruct (mux enc i j) as [[]|e]; simpl; eauto.
Qed.

(** The packet loop adds to the output until a [mux] raises. *)
Lemma mux_loop_spec enc out i packets : forall j0 acc w,
  if muxes enc i j0 packets
  then for_fold j0 packets acc (mux_one enc out i) w = (Returns (acc ++ packets), w)
  else exists e,
         for_fold j0 packets acc (mux_one enc out i) w
           = (Raises e, abandon enc out w).
Proof.
  induction packets as [|p packets IH]; intros j0 acc w.
  - simpl. rewrite app_nil_r. reflexivity.
  - cbn [for_fold]. unfold muxes. cbn [length seq forallb].
    pose proof (mux_one_spec enc out i j0 p acc w) as Hone.
    destruct (returned (mux enc i j0)); cbn [andb].
    + rewrite (bind_returns _ _ _ _ _ Hone).
      specialize (IH (S j0) (acc ++ [p]) w). unfold muxes in IH.
      rewrite <- app_assoc in IH. exact IH.
    + destruct Hone as (e & Hrun). exists e.
      apply bind_raises. exact Hrun.
Qed.

(** One frame: the effect call writes arrays only; the rest is the
    encoder's. *)
Lemma render_frame_spec enc draws out v i img acc w :
  let w1 := set_arrays (fst (Engine.apply_video_effects (draws i) (arrays w) img v)) w in
  if frame_ok enc i
  then render_frame enc draws out v i img acc w
         = (Returns (acc ++ frame_packets enc i), w1)
  else exists e, render_frame enc draws out v i img acc w
                   = (Raises e, abandon enc out w1).
Proof.
  intros w1. unfold render_frame, frame_ok, frame_packets.
  unfold bind at 1. unfold effects at 1. fold w1.
  unfold bind at 1. unfold on_output at 1.
  destruct (from_ndarray enc i) as [[]|e]; cbn [returned andb]; [|eauto].
  unfold bind at 1. unfold on_output at 1.
  destruct (encode enc i) as [ps|e]; cbn [returned andb]; [|eauto].
  unfold mux_packets. apply mux_loop_spec.
Qed.

(** The frame loop, the same way.  The arrays it leaves are those of
    the effect calls it made: on every frame when it returns, on the
    frames up to the one the encoder refused when it raises. *)
Lemma frame_loop_spec enc draws out v frames : forall i0 acc w,
  exists o w',
    for_fold i0 frames acc (render_frame enc draws out v) w = (o, w') /\
    (exists k, k <= length frames /\
       arrays w' = render_arrays draws v i0 (take k frames) (arrays w))%nat /\
    (if forallb (frame_ok enc) (seq i0 (length frames))
     then o = Returns (acc ++ concat (map (frame_packets enc)
                                        (seq i0 (length frames)))) /\
          arrays w' = render_arrays draws v i0 frames (arrays w) /\
          fs w' = fs w
     else (exists e, o = Raises e) /\
          fs w' = fs (abandon enc out w)).
Proof.
  induction frames as [|img frames IH]; intros i0 acc w.
  - exists (Returns acc), w. simpl. rewrite app_nil_r.
    split; [reflexivity|]. split; [exists 0%nat; auto|auto].
  - cbn [for_fold length seq forallb map concat render_arrays].
    pose proof (render_frame_spec enc draws out v i0 img acc w) as Hone.
    cbv zeta in Hone.
    set (w1 := set_arrays _ w) in Hone.
    destruct (frame_ok enc i0); cbn [andb].
    + destruct (IH (S i0) (acc ++ frame_packets enc i0) w1)
        as (o & w2 & Hrest & (k & Hk & Harrk) & Hres).
      exists o, w2. rewrite (bind_returns _ _ _ _ _ Hone). split; [exact Hrest|].
      split.
      * exists (S k). split; [lia|]. cbn [take render_arrays]. exact Harrk.
      * rewrite <- app_assoc in Hres.
        destruct (forallb (frame_ok enc) (seq (S i0) (length frames))).
        -- exact Hres.
        -- destruct Hres as (He & Hfs). split; [exact He|].
           rewrite Hfs. subst w1. rewrite abandon_set_arrays. reflexivity.
    + destruct Hone as (e & Hrun).
      exists (Raises e), (abandon enc out w1).
      rewrite (bind_raises _ _ _ _ _ Hrun).
      split; [reflexivity|]. split.
      * exists 1%nat. split; [lia|]. cbn [take render_arrays].
        apply arrays_abandon.
      * split; [eauto|]. subst w1. rewrite abandon_set_arrays. reflexivity.
Qed.

(** The body of the [try], in full: it returns with the target closed
    over every packet exactly when the encoder lets the run through;
    when it raises after the open, the target is what the library
    leaves of an output never closed; when the open raises, nothing has
    changed.  The arrays are those of the effect calls made so far. *)
Lemma render_body_runs enc draws frames out v w :
  exists o w',
    render_body enc draws frames out v w = (o, w') /\
    (exists k, k <= length frames /\
       arrays w' = render_arrays draws v 0 (take k frames) (arrays w))%nat /\
    (if clean enc (length frames)
     then o = Returns tt /\
          arrays w' = render_arrays draws v 0 frames (arrays w) /\
          fs w' = <[out := Finalized (packets_of enc (length frames))]> (fs w)
     else (exists e, o = Raises e) /\
          fs w' = if returned (open_out enc) then fs (abandon enc out w)
                  else fs w).
Proof.
  assert (Hnone : forall w0 : world, arrays w0 = arrays w ->
            (exists k, k <= length frames /\
               arrays w0 = render_arrays draws v 0 (take k frames) (arrays w))%nat)
    by (intros w0 Hw0; exists 0%nat; split; [lia|exact Hw0]).
  unfold render_body, clean, packets_of.
  unfold bind at 1. unfold call at 1.
  destruct (open_out enc) as [[]|e]; cbn [returned andb];
    [|exists (Raises e), w; eauto 10].
  unfold bind at 1. unfold on_output at 1.
  destruct (add_stream enc) as [[]|e]; cbn [returned andb];
    [|exists (Raises e), (abandon enc out w);
      split; [reflexivity|]; split; [apply Hnone, arrays_abandon|eauto]].
  destruct (frame_loop_spec enc draws out v frames 0 [] w)
    as (o2 & w2 & Hloop & Hk & Hres).
  destruct (forallb (frame_ok enc) (seq 0 (length frames))); cbn [andb].
  2:{ destruct Hres as ((e & ->) & Hfs2). exists (Raises e), w2.
      rewrite (bind_raises _ _ _ _ _ Hloop). eauto 10. }
  destruct Hres as (-> & Harr2 & Hfs2). simpl in *.
  rewrite (bind_returns _ _ _ _ _ Hloop).
  unfold bind at 1. unfold on_output at 1. unfold flush_packets.
  destruct (flush enc) as [ps|e]; cbn [returned andb].
  2:{ exists (Raises e), (abandon enc out w2).
      split; [reflexivity|]. split.
      - rewrite arrays_abandon. exact Hk.
      - split; [eauto|]. apply fs_abandon. exact Hfs2. }
  unfold mux_packets.
  pose proof (mux_loop_spec enc out (length frames) ps 0
                (concat (map (frame_packets enc) (seq 0 (length frames)))) w2)
    as Hmux.
  destruct (muxes enc (length frames) 0 ps); cbn [andb].
  2:{ destruct Hmux as (e & Hmux). exists (Raises e), (abandon enc out w2).
      rewrite (bind_raises _ _ _ _ _ Hmux).
      split; [reflexivity|]. split.
      - rewrite arrays_abandon. exact Hk.
      - split; [eauto|]. apply fs_abandon. exact Hfs2. }
  rewrite (bind_returns _ _ _ _ _ Hmux).
  unfold bind, on_output.
  destruct (close_out enc) as [[]|e]; cbn [returned].
  2:{ exists (Raises e), (abandon enc out w2).
      split; [reflexivity|]. split.
      - rewrite arrays_abandon. exact Hk.
      - split; [eauto|]. apply fs_abandon. exact Hfs2. }
  unfold finalize, modify.
  eexists _, _. split; [reflexivity|]. split.
  - simpl. exact Hk.
  - split; [reflexivity|]. split; [exact Harr2|]. simpl. rewrite Hfs2.
    reflexivity.
Qed.

(** The same, file by file: no file but the target is touched, and the
    target is closed over every packet, as it was, or left
    unfinished. *)
Lemma render_body_spec enc draws frames out v w :
  exists o w',
    render_body enc draws frames out v w = (o, w') /\
    same_files_except out w w' /\
    (exists k, k <= length frames /\
       arrays w' = render_arrays draws v 0 (take k frames) (arrays w))%nat /\
    (if clean enc (length frames)
     then o = Returns tt /\
          arrays w' = render_arrays draws v 0 frames (arrays w) /\
          fs w' !! out = Some (Finalized (packets_of enc (length frames)))
     else (exists e, o = Raises e) /\
          (fs w' !! out = fs w !! out \/
           exists acc, fs w' !! out = Some (Partial acc))).
Proof.
  destruct (render_body_runs enc draws frames out v w)
    as (o & w' & Hrun & Hk & Hres).
  exists o, w'. split; [exact Hrun|].
  destruct (clean enc (length frames)).
  - destruct Hres as (-> & Harr & Hfs). split.
    + intros p Hp. rewrite Hfs. apply lookup_insert_ne. congruence.
    + split; [exact Hk|]. split; [reflexivity|]. split; [exact Harr|].
      rewrite Hfs. apply lookup_insert_eq.
  - destruct Hres as (He & Hfs). split.
    + intros p Hp. rewrite Hfs. destruct (returned (open_out enc));
        [apply same_files_abandon; exact Hp|reflexivity].
    + split; [exact Hk|]. split; [exact He|]. rewrite Hfs.
      destruct (returned (open_out enc)); [|left; reflexivity].
      rewrite target_abandon. destruct (unclosed enc); eauto.
Qed.

(** Whatever the encode boundary raises, [process_all_frames] returns
    normally; no file but its own target is touched; its target is
    closed over every packet when nothing raised, and otherwise is as
    it was before the call (missing, on a fresh run) or left
    incomplete; the arrays are those of the effect calls made before
    the failure. *)
Theorem render_failure_is_contained enc draws all_frames output_file
    effect_variant thread_id w :
  let r := process_all_frames enc draws all_frames output_file
             effect_variant thread_id w in
  fst r = Returns tt /\
  same_files_except output_file w (snd r) /\
  (exists k, k <= length all_frames /\
     arrays (snd r)
       = render_arrays draws effect_variant 0 (take k all_frames) (arrays w))%nat /\
  (if clean enc (length all_frames)
   then fs (snd r) !! output_file =
          Some (Finalized (packets_of enc (length all_frames)))
   else fs (snd r) !! output_file = fs w !! output_file \/
        exists acc, fs (snd r) !! output_file = Some (Partial acc)).
Proof.
  cbn zeta. unfold process_all_frames, try_except.
  destruct (render_body_spec enc draws all_frames output_file effect_variant w)
    as (o & w' & Hrun & Hsame & Hk & Hres).
  rewrite Hrun.
  destruct (clean enc (length all_frames)).
  - destruct Hres as (-> & _ & Hfile). auto.
  - destruct Hres as ((e & ->) & Hfile). auto.
Qed.

(** The target after a call, exactly. *)
Lemma target_after_render enc draws all_frames output_file effect_variant
    thread_id w :
  fs (snd (process_all_frames enc draws all_frames output_file
             effect_variant thread_id w)) !! output_file =
    if clean enc (length all_frames)
    then Some (Finalized (packets_of enc (length all_frames)))
    else if returned (open_out enc)
         then match unclosed enc with
              | Some written => Some (Partial written)
              | None => fs w !! output_file
              end
         else fs w !! output_file.
Proof.
  unfold process_all_frames, try_except.
  destruct (render_body_runs enc draws all_frames output_file effect_variant w)
    as (o & w' & Hrun & _ & Hres).
  rewrite Hrun.
  destruct (clean enc (length all_frames)).
  - destruct Hres as (-> & _ & Hfs). simpl. rewrite Hfs.
    apply lookup_insert_eq.
  - destruct Hres as ((e & ->) & Hfs). simpl. rewrite Hfs.
    destruct (returned (open_out enc)); [apply target_abandon|reflexivity].
Qed.

(** The frame loop up to the first frame the encoder refuses: that
    frame has had its effect call, the ones after it have not. *)
Lemma frame_loop_stops enc draws out v frames : forall i0 acc w k,
  (k < length frames)%nat ->
  (forall i, (i < k)%nat -> frame_ok enc (i0 + i) = true) ->
  frame_ok enc (i0 + k) = false ->
  exists e w',
    for_fold i0 frames acc (render_frame enc draws out v) w = (Raises e, w') /\
    arrays w' = render_arrays draws v i0 (take (S k) frames) (arrays w).
Proof.
  induction frames as [|img frames IH]; intros i0 acc w k Hk Hok Hbad;
    [simpl in Hk; lia|].
  cbn [for_fold].
  pose proof (render_frame_spec enc draws out v i0 img acc w) as Hone.
  cbv zeta in Hone. set (w1 := set_arrays _ w) in Hone.
  destruct k as [|k].
  - rewrite Nat.add_0_r in Hbad. rewrite Hbad in Hone.
    destruct Hone as (e & Hrun).
    exists e, (abandon enc out w1). rewrite (bind_raises _ _ _ _ _ Hrun).
    split; [reflexivity|]. cbn [take render_arrays]. apply arrays_abandon.
  - assert (Hfirst : frame_ok enc i0 = true)
      by (rewrite <- (Nat.add_0_r i0); apply Hok; lia).
    rewrite Hfirst in Hone.
    destruct (IH (S i0) (acc ++ frame_packets enc i0) w1 k)
      as (e & w2 & Hrest & Harr2).
    + simpl in Hk. lia.
    + intros i Hi. replace (S i0 + i)%nat with (i0 + S i)%nat by lia.
      apply Hok. lia.
    + replace (S i0 + k)%nat with (i0 + S k)%nat by lia. exact Hbad.
    + exists e, w2. rewrite (bind_returns _ _ _ _ _ Hone).
      split; [exact Hrest|]. cbn [take render_arrays]. exact Harr2.
Qed.

Lemma arrays_at_failing_frame enc draws all_frames output_file effect_variant
    thread_id w k :
  open_out enc = Returns tt ->
  add_stream enc = Returns tt ->
  (k < length all_frames)%nat ->
  (forall i, (i < k)%nat -> frame_ok enc i = true) ->
  frame_ok enc k = false ->
  arrays (snd (process_all_frames enc draws all_frames output_file
                 effect_variant thread_id w))
    = render_arrays draws effect_variant 0 (take (S k) all_frames) (arrays w).
Proof.
  intros Hopen Hadd Hk Hok Hbad.
  unfold process_all_frames, try_except, render_body.
  unfold bind at 1. unfold call at 1. rewrite Hopen.
  unfold bind at 1. unfold on_output at 1. rewrite Hadd.
  destruct (frame_loop_stops enc draws output_file effect_variant all_frames
              0 [] w k Hk Hok Hbad) as (e & w2 & Hloop & Harr).
  rewrite (bind_raises _ _ _ _ _ Hloop). exact Harr.
Qed.

(** A renderer the encoder lets through has made the effect call on
    every frame, in order, on the arrays it shares. *)
Lemma arrays_after_render enc draws all_frames output_file effect_variant
    thread_id w :
  clean enc (length all_frames) = true ->
  arrays (snd (process_all_frames enc draws all_frames output_file
                 effect_variant thread_id w))
    = render_arrays draws effect_variant 0 all_frames (arrays w).
Proof.
  intros Hclean. unfold process_all_frames, try_except.
  destruct (render_body_spec enc draws all_frames output_file effect_variant w)
    as (o & w' & Hrun & _ & _ & Hres).
  rewrite Hrun, Hclean in *. destruct Hres as (-> & Harr & _). exact Harr.
Qed.

End WithExtern.
End RenderSpec.

(* ------------------------------------------------------------------ *)
(** ** Shapes and sample ranges of the array operations *)
(* ------------------------------------------------------------------ *)
Module NpFacts.
Import Np.
Local Open Scope nat_scope.

Lemma Forall_imap {A B} (P : A -> Prop) (Q : B -> Prop) l :
  forall (f : nat -> A -> B),
  (forall i x, P x -> Q (f i x)) -> Forall P l -> Forall Q (imap f l).
Proof.
  induction l as [|x l IH]; intros f Hf Hl; simpl; [constructor|].
  inversion Hl; subst. constructor; [auto|]. apply IH; [|assumption].
  intros i y. apply Hf.
Qed.

Lemma planar_intro {A} (p : list (list A)) h w :
  length p = h -> Forall (fun row => length row = w) p -> planar h w p.
Proof. split; assumption. Qed.

(** A traversal with positions keeps the shape of a plane. *)
Lemma plane_imap_planar {A B} (f : nat -> nat -> A -> B) h w p :
  planar h w p -> planar h w (plane_imap f p).
Proof.
  intros [Hh Hw]. split; unfold plane_imap.
  - rewrite length_imap. exact Hh.
  - eapply Forall_imap; [|exact Hw].
    intros i row Hrow. simpl. rewrite length_imap. exact Hrow.
Qed.

Lemma plane_imap_Forall {A B} (P : A -> Prop) (Q : B -> Prop)
    (f : nat -> nat -> A -> B) p :
  (forall y x a, P a -> Q (f y x a)) ->
  Forall (Forall P) p -> Forall (Forall Q) (plane_imap f p).
Proof.
  intros Hf Hp. unfold plane_imap. eapply Forall_imap; [|exact Hp].
  intros y row Hrow. simpl. eapply Forall_imap; [|exact Hrow].
  intros x a. apply Hf.
Qed.

(** A traversal that keeps the length of every pixel keeps the shape of
    a grid. *)
Lemma pixels_framed {A B} (f : nat -> nat -> list A -> list B) h w g :
  (forall y x px, length (f y x px) = length px) ->
  framed h w g -> framed h w (plane_imap f g).
Proof.
  intros Hf [Hp Hpx]. split; [apply plane_imap_planar; exact Hp|].
  eapply plane_imap_Forall; [|exact Hpx].
  intros y x px Hlen. simpl. rewrite Hf. exact Hlen.
Qed.

Lemma grid_imap_framed {A B} (f : nat -> nat -> nat -> A -> B) h w g :
  framed h w g -> framed h w (grid_imap f g).
Proof.
  apply pixels_framed. intros y x px. simpl. apply length_imap.
Qed.

Lemma grid_imap_samples {A B} (P : A -> Prop) (Q : B -> Prop)
    (f : nat -> nat -> nat -> A -> B) g :
  (forall y x c v, P v -> Q (f y x c v)) ->
  all_samples P g -> all_samples Q (grid_imap f g).
Proof.
  intros Hf Hg. unfold all_samples, grid_imap.
  eapply plane_imap_Forall; [|exact Hg].
  intros y x px Hpx. simpl. eapply Forall_imap; [|exact Hpx].
  intros c v. apply Hf.
Qed.

Lemma map_planar {A B} (f : A -> B) h w (p : list (list A)) :
  planar h w p -> planar h w (map (map f) p).
Proof.
  intros [Hh Hw]. split.
  - rewrite length_map. exact Hh.
  - apply Forall_map. eapply Forall_impl; [exact Hw|].
    intros row Hrow. simpl. rewrite length_map. exact Hrow.
Qed.

Lemma map_Forall2 {A B} (P : A -> Prop) (Q : B -> Prop) (f : A -> B)
    (p : list (list A)) :
  (forall a, P a -> Q (f a)) ->
  Forall (Forall P) p -> Forall (Forall Q) (map (map f) p).
Proof.
  intros Hf Hp. apply Forall_map. eapply Forall_impl; [exact Hp|].
  intros row Hrow. simpl. apply Forall_map. eapply Forall_impl; [exact Hrow|].
  exact Hf.
Qed.

Lemma grid_map_framed {A B} (f : A -> B) h w g :
  framed h w g -> framed h w (grid_map f g).
Proof.
  intros [Hp Hpx]. split; [apply map_planar; exact Hp|].
  unfold grid_map. eapply map_Forall2; [|exact Hpx].
  intros px Hlen. simpl. rewrite length_map. exact Hlen.
Qed.

Lemma grid_map_samples {A B} (P : A -> Prop) (Q : B -> Prop) (f : A -> B) g :
  (forall v, P v -> Q (f v)) -> all_samples P g -> all_samples Q (grid_map f g).
Proof.
  intros Hf Hg. unfold all_samples, grid_map.
  apply Forall_map. eapply Forall_impl; [exact Hg|].
  intros row Hrow. simpl. eapply map_Forall2; [|exact Hrow]. exact Hf.
Qed.

Lemma all_samples_trivial {A} (g : grid A) : all_samples (fun _ => True) g.
Proof.
  unfold all_samples. apply Forall_forall. intros row _.
  apply Forall_forall. intros px _. apply Forall_forall. auto.
Qed.

Lemma wrap8_in_range z : in_range (wrap8 z).
Proof. unfold in_range, wrap8. pose proof (Z.mod_pos_bound z 256%Z). lia. Qed.

(** *** Channels *)

Lemma channel_planar {A} (d : A) c h w g :
  framed h w g -> planar h w (channel d c g).
Proof. intros [Hp _]. apply map_planar. exact Hp. Qed.

Lemma channel_Forall {A} (P : A -> Prop) (d : A) c g :
  P d -> all_samples P g -> Forall (Forall P) (channel d c g).
Proof.
  intros Hd Hg. unfold channel. eapply map_Forall2; [|exact Hg].
  intros px Hpx. simpl.
  destruct (nth_in_or_default c px d) as [Hin| ->]; [|exact Hd].
  rewrite Forall_forall in Hpx. apply Hpx. apply list_elem_of_In. exact Hin.
Qed.

Lemma zip_with_length_same {A B C} (f : A -> B -> C) l k n :
  length l = n -> length k = n -> length (zip_with f l k) = n.
Proof. intros Hl Hk. rewrite length_zip_with. lia. Qed.

Lemma Forall_zip_with {A B C} (P : B -> Prop) (Q : C -> Prop)
    (f : A -> B -> C) l : forall k,
  (forall a b, P b -> Q (f a b)) -> Forall P k -> Forall Q (zip_with f l k).
Proof.
  induction l as [|a l IH]; intros k Hf Hk; simpl; [constructor|].
  destruct k as [|b k]; [constructor|].
  inversion Hk; subst. constructor; auto.
Qed.

Lemma Forall_zip_with_both {A B C} (P : A -> Prop) (Q : B -> Prop)
    (R : C -> Prop) (f : A -> B -> C) l : forall k,
  (forall a b, P a -> Q b -> R (f a b)) ->
  Forall P l -> Forall Q k -> Forall R (zip_with f l k).
Proof.
  induction l as [|a l IH]; intros k Hf Hl Hk; simpl; [constructor|].
  destruct k as [|b k]; [constructor|].
  inversion Hl; inversion Hk; subst. constructor; auto.
Qed.

Lemma zip_plane_planar {A B C} (f : A -> B -> C) h w p q :
  planar h w p -> planar h w q -> planar h w (zip_with (zip_with f) p q).
Proof.
  intros [Hp Hpw] [Hq Hqw]. split.
  - apply zip_with_length_same; assumption.
  - eapply Forall_zip_with_both; [|exact Hpw|exact Hqw].
    intros a b Ha Hb. simpl in *. apply zip_with_length_same; assumption.
Qed.

Lemma set_channel_framed {A} c (p : plane A) h w g :
  planar h w p -> framed h w g -> framed h w (set_channel c p g).
Proof.
  intros [Hp Hpw] [[Hg Hgw] Hpx]. unfold set_channel. split; [split|].
  - apply zip_with_length_same; assumption.
  - eapply Forall_zip_with_both; [|exact Hpw|exact Hgw].
    intros a b Ha Hb. simpl in *. apply zip_with_length_same; assumption.
  - eapply Forall_zip_with; [|exact Hpx].
    intros prow row Hrow. simpl. eapply Forall_zip_with; [|exact Hrow].
    intros v px Hlen. simpl. rewrite length_insert. exact Hlen.
Qed.

Lemma Forall_insert_elem {A} (P : A -> Prop) l i x :
  Forall P l -> P x -> Forall P (<[i := x]> l).
Proof. intros Hl Hx. apply Forall_insert; assumption. Qed.

Lemma set_channel_samples {A} (P : A -> Prop) c (p : plane A) g :
  Forall (Forall P) p -> all_samples P g -> all_samples P (set_channel c p g).
Proof.
  intros Hp Hg. unfold all_samples, set_channel.
  eapply Forall_zip_with_both; [|exact Hp|exact Hg].
  intros prow row Hprow Hrow. simpl.
  eapply Forall_zip_with_both; [|exact Hprow|exact Hrow].
  intros v px Hv Hpx. simpl. apply Forall_insert_elem; assumption.
Qed.

(** *** [np.roll] and the pixelation *)

Lemma np_roll_length {A} k (l : list A) : length (Ops.np_roll k l) = length l.
Proof.
  unfold Ops.np_roll. rewrite length_app, length_drop, length_take. lia.
Qed.

Lemma np_roll_Forall {A} (P : A -> Prop) k (l : list A) :
  Forall P l -> Forall P (Ops.np_roll k l).
Proof.
  intros Hl. unfold Ops.np_roll. apply Forall_app.
  split; [apply Forall_drop|apply Forall_take]; exact Hl.
Qed.

Lemma roll_plane_planar {A} axis k h w (p : plane A) :
  planar h w p -> planar h w (Ops.roll_plane axis k p).
Proof.
  intros [Hh Hw]. destruct axis as [|axis]; simpl; split.
  - rewrite np_roll_length. exact Hh.
  - apply np_roll_Forall. exact Hw.
  - rewrite length_map. exact Hh.
  - apply Forall_map. eapply Forall_impl; [exact Hw|].
    intros row Hrow. simpl. rewrite np_roll_length. exact Hrow.
Qed.

Lemma roll_plane_Forall {A} (P : A -> Prop) axis k (p : plane A) :
  Forall (Forall P) p -> Forall (Forall P) (Ops.roll_plane axis k p).
Proof.
  intros Hp. destruct axis as [|axis]; simpl.
  - apply np_roll_Forall. exact Hp.
  - apply Forall_map. eapply Forall_impl; [exact Hp|].
    intros row Hrow. simpl. apply np_roll_Forall. exact Hrow.
Qed.

Lemma every_second_length {A} (l : list A) :
  length l <= 2 * length (Ops.every_second l).
Proof.
  induction l as [l IH] using (induction_ltof1 _ (@length A)).
  unfold ltof in IH. destruct l as [|x [|y t]]; simpl; [lia|lia|].
  specialize (IH t). simpl in IH. lia.
Qed.

Lemma every_second_Forall {A} (P : A -> Prop) (l : list A) :
  Forall P l -> Forall P (Ops.every_second l).
Proof.
  induction l as [l IH] using (induction_ltof1 _ (@length A)).
  unfold ltof in IH. intros Hl. destruct l as [|x [|y t]]; simpl.
  - constructor.
  - exact Hl.
  - inversion Hl as [|? ? Hx Ht]; subst. inversion Ht; subst.
    constructor; [exact Hx|]. apply IH; [simpl; lia|assumption].
Qed.

Lemma repeat_each_length {A} (l : list A) :
  length (Ops.repeat_each l) = 2 * length l.
Proof. induction l as [|x l IH]; simpl; lia. Qed.

Lemma repeat_each_Forall {A} (P : A -> Prop) (l : list A) :
  Forall P l -> Forall P (Ops.repeat_each l).
Proof. induction 1; simpl; repeat constructor; assumption. Qed.

(** [np.repeat(l[::2], 2)[:n]] has the length of [l]. *)
Lemma pixelate_row_length {A} (l : list A) n :
  length l = n ->
  length (take n (Ops.repeat_each (Ops.every_second l))) = n.
Proof.
  intros Hl. rewrite length_take, repeat_each_length.
  pose proof (every_second_length l). lia.
Qed.

Lemma framed_width {A} h w (g : grid A) :
  framed h w g -> g = [] \/ width g = w.
Proof.
  intros [[_ Hw] _]. destruct g as [|row g]; [now left|right].
  inversion Hw; subst. reflexivity.
Qed.

Lemma pixelate_grid_framed {A} h w (g : grid A) :
  framed h w g -> framed h w (Ops.pixelate_grid g).
Proof.
  intros Hg. destruct (framed_width h w g Hg) as [->|Hwidth].
  { destruct Hg as [[Hh _] _]. simpl in Hh. subst h.
    repeat split; constructor. }
  destruct Hg as [[Hh Hw] Hpx]. unfold Ops.pixelate_grid, height.
  rewrite Hwidth, Hh. split; [split|].
  - rewrite length_map, length_take, length_map, repeat_each_length, length_map.
    pose proof (every_second_length g). lia.
  - apply Forall_map, Forall_take, Forall_map, repeat_each_Forall.
    apply Forall_map, every_second_Forall.
    eapply Forall_impl; [exact Hw|]. intros row Hrow. simpl.
    apply pixelate_row_length. exact Hrow.
  - apply Forall_map, Forall_take, Forall_map, repeat_each_Forall.
    apply Forall_map, every_second_Forall.
    eapply Forall_impl; [exact Hpx|]. intros row Hrow. simpl.
    apply Forall_take, repeat_each_Forall, every_second_Forall. exact Hrow.
Qed.

Lemma pixelate_grid_samples {A} (P : A -> Prop) (g : grid A) :
  all_samples P g -> all_samples P (Ops.pixelate_grid g).
Proof.
  intros Hg. unfold all_samples, Ops.pixelate_grid.
  apply Forall_map, Forall_take, Forall_map, repeat_each_Forall.
  apply Forall_map, every_second_Forall.
  eapply Forall_impl; [exact Hg|]. intros row Hrow. simpl.
  apply Forall_take, repeat_each_Forall, every_second_Forall. exact Hrow.
Qed.

End NpFacts.

(* ------------------------------------------------------------------ *)
(** ** Every array operation keeps a frame a frame *)
(* ------------------------------------------------------------------ *)
Module OpsFacts.
Import Np Ops NpFacts.
Local Open Scope nat_scope.

Section WithExtern.
Context {E : Extern}.

Lemma cast_u8_in_range x : in_range (cast_u8 x).
Proof.
  unfold cast_u8. destruct (trunc x) as [z|]; [|apply wrap8_in_range].
  destruct ((0 <=? z)%Z && (z <=? 255)%Z) eqn:Hz; [|apply wrap8_in_range].
  unfold in_range. apply andb_prop in Hz. lia.
Qed.

Lemma as_float_framed h w a : nd_framed h w a -> framed h w (as_float a).
Proof.
  destruct a as [g|g]; simpl; [|auto].
  intros [Hg _]. apply grid_map_framed. exact Hg.
Qed.

Lemma u8_framed {A} h w (g : grid A) (f : A -> Z) :
  (forall z, in_range (f z)) -> framed h w g -> nd_framed h w (U8 (grid_map f g)).
Proof.
  intros Hf Hg. split; [apply grid_map_framed; exact Hg|].
  eapply grid_map_samples; [|apply all_samples_trivial]. auto.
Qed.

Lemma astype_u8_framed h w a : nd_framed h w a -> nd_framed h w (astype_u8 a).
Proof.
  destruct a as [g|g]; simpl; [auto|].
  apply u8_framed. exact cast_u8_in_range.
Qed.

Lemma add_int_framed k h w a : nd_framed h w a -> nd_framed h w (add_int k a).
Proof.
  destruct a as [g|g]; simpl.
  - intros [Hg _]. apply u8_framed; [|exact Hg]. intros z. apply wrap8_in_range.
  - apply grid_map_framed.
Qed.

Lemma rsub_int_framed k h w a : nd_framed h w a -> nd_framed h w (rsub_int k a).
Proof.
  destruct a as [g|g]; simpl.
  - intros [Hg _]. apply u8_framed; [|exact Hg]. intros z. apply wrap8_in_range.
  - apply grid_map_framed.
Qed.

Lemma np_clip255_framed h w a : nd_framed h w a -> nd_framed h w (np_clip255 a).
Proof.
  destruct a as [g|g]; simpl.
  - intros [Hg _]. apply u8_framed; [|exact Hg]. intros z. unfold in_range. lia.
  - apply grid_map_framed.
Qed.

Lemma fmap_all_framed f h w a : nd_framed h w a -> nd_framed h w (fmap_all f a).
Proof. intros Ha. simpl. apply grid_map_framed, as_float_framed, Ha. Qed.

Lemma fmap_idx_framed f h w a : nd_framed h w a -> nd_framed h w (fmap_idx f a).
Proof. intros Ha. simpl. apply grid_imap_framed, as_float_framed, Ha. Qed.

Lemma fmap_px_framed f h w a : nd_framed h w a -> nd_framed h w (fmap_px f a).
Proof.
  intros Ha. simpl. apply as_float_framed in Ha. destruct Ha as [Hp Hpx].
  split; [apply map_planar; exact Hp|].
  eapply map_Forall2; [|exact Hpx].
  intros px Hlen. simpl. rewrite length_imap. exact Hlen.
Qed.

Lemma update_framed {A} (rd : A -> float) wr upd h w (g : grid A) :
  framed h w g -> framed h w (update rd wr upd g).
Proof.
  apply pixels_framed. intros y x px. simpl. apply length_imap.
Qed.

Lemma update_samples {A} (P : A -> Prop) (rd : A -> float) wr upd (g : grid A) :
  (forall x, P (wr x)) -> all_samples P g -> all_samples P (update rd wr upd g).
Proof.
  intros Hwr Hg. unfold all_samples, update.
  eapply plane_imap_Forall; [|exact Hg].
  intros y x px Hpx. simpl. eapply Forall_imap; [|exact Hpx].
  intros c v Hv. simpl. destruct (upd y x c (map rd px)); auto.
Qed.

(** An assignment into the array keeps its shape and, on uint8, its
    range: the stored double goes through the cast. *)
Lemma inplace_framed upd h w a : nd_framed h w a -> nd_framed h w (inplace upd a).
Proof.
  destruct a as [g|g]; simpl.
  - intros [Hg Hr]. split; [apply update_framed; exact Hg|].
    apply update_samples; [exact cast_u8_in_range|exact Hr].
  - apply update_framed.
Qed.

Lemma chan_inplace_framed c f h w a :
  nd_framed h w a -> nd_framed h w (chan_inplace c f a).
Proof. apply inplace_framed. Qed.

Lemma chan_inplace_idx_framed c f h w a :
  nd_framed h w a -> nd_framed h w (chan_inplace_idx c f a).
Proof. apply inplace_framed. Qed.

Lemma masked_inplace_framed m f h w a :
  nd_framed h w a -> nd_framed h w (masked_inplace m f a).
Proof. apply inplace_framed. Qed.

Lemma chan_masked_framed c m f h w a :
  nd_framed h w a -> nd_framed h w (chan_masked c m f a).
Proof. apply inplace_framed. Qed.

Lemma pixels_inplace_framed m f h w a :
  nd_framed h w a -> nd_framed h w (pixels_inplace m f a).
Proof. apply inplace_framed. Qed.

Lemma assign_channel_framed c p h w a :
  planar h w p -> nd_framed h w a -> nd_framed h w (assign_channel c p a).
Proof.
  intros Hp. destruct a as [g|g]; simpl.
  - intros [Hg Hr]. split.
    + apply set_channel_framed; [apply map_planar; exact Hp|exact Hg].
    + apply set_channel_samples; [|exact Hr].
      eapply map_Forall2 with (P := fun _ => True).
      * intros x _. apply cast_u8_in_range.
      * apply Forall_forall. intros row _. apply Forall_forall. auto.
  - apply set_channel_framed. exact Hp.
Qed.

Lemma roll_channel_framed c axis k h w a :
  nd_framed h w a -> nd_framed h w (roll_channel c axis k a).
Proof.
  destruct a as [g|g]; simpl.
  - intros [Hg Hr]. split.
    + apply set_channel_framed; [|exact Hg].
      apply roll_plane_planar, channel_planar. exact Hg.
    + apply set_channel_samples; [|exact Hr].
      apply roll_plane_Forall, channel_Forall; [|exact Hr].
      unfold in_range. lia.
  - intros Hg. apply set_channel_framed; [|exact Hg].
    apply roll_plane_planar, channel_planar. exact Hg.
Qed.

Lemma roll_columns_grid {A} k h w (g : grid A) :
  framed h w g -> framed h w (map (np_roll k) g).
Proof.
  intros [[Hh Hw] Hpx]. split; [split|].
  - rewrite length_map. exact Hh.
  - apply Forall_map. eapply Forall_impl; [exact Hw|].
    intros row Hrow. simpl. rewrite np_roll_length. exact Hrow.
  - apply Forall_map. eapply Forall_impl; [exact Hpx|].
    intros row Hrow. simpl. apply np_roll_Forall. exact Hrow.
Qed.

Lemma roll_columns_framed k h w a :
  nd_framed h w a -> nd_framed h w (roll_columns k a).
Proof.
  destruct a as [g|g]; simpl.
  - intros [Hg Hr]. split; [apply roll_columns_grid; exact Hg|].
    unfold all_samples. apply Forall_map. eapply Forall_impl; [exact Hr|].
    intros row Hrow. simpl. apply np_roll_Forall. exact Hrow.
  - apply roll_columns_grid.
Qed.

Lemma pixelate_framed h w a : nd_framed h w a -> nd_framed h w (pixelate a).
Proof.
  destruct a as [g|g]; simpl.
  - intros [Hg Hr].
    split; [apply pixelate_grid_framed|apply pixelate_grid_samples]; assumption.
  - apply pixelate_grid_framed.
Qed.

Lemma apply_vignette_framed p lo h w a :
  nd_framed h w a -> nd_framed h w (apply_vignette p lo a).
Proof. apply fmap_idx_framed. Qed.

Lemma mean_plane_planar h w a : nd_framed h w a -> planar h w (mean_plane a).
Proof.
  intros Ha. apply as_float_framed in Ha. destruct Ha as [Hp _].
  apply map_planar. exact Hp.
Qed.

Section WithLaws.
Hypothesis laws : ExternLaws E.

Lemma edge_mask_planar q h w a : nd_framed h w a -> planar h w (edge_mask q a).
Proof.
  intros Ha. unfold edge_mask. apply map_planar.
  apply (sobel_planar E laws), mean_plane_planar, Ha.
Qed.

Lemma add_edges_framed c q k h w a :
  nd_framed h w a -> nd_framed h w (add_edges c q k a).
Proof.
  intros Ha. unfold add_edges. apply assign_channel_framed; [|exact Ha].
  apply zip_plane_planar; [|apply edge_mask_planar; exact Ha].
  apply channel_planar, as_float_framed, Ha.
Qed.

End WithLaws.
End WithExtern.
End OpsFacts.

(* ------------------------------------------------------------------ *)
(** ** The effect engine: shape and range of what a call returns *)
(* ------------------------------------------------------------------ *)
Module EngineFacts.
Import Np Ops Effects Engine NpFacts OpsFacts.
Local Open Scope nat_scope.

Create HintDb framed.
#[local] Hint Resolve astype_u8_framed add_int_framed rsub_int_framed
  np_clip255_framed fmap_all_framed fmap_idx_framed fmap_px_framed
  inplace_framed chan_inplace_framed chan_inplace_idx_framed
  masked_inplace_framed chan_masked_framed pixels_inplace_framed
  roll_channel_framed roll_columns_framed pixelate_framed
  apply_vignette_framed : framed.

Lemma step_value_preserves P st a :
  preserves P st -> P a -> P (step_value st a).
Proof.
  induction st as [f|f|c st IH]; simpl; intros Hst Ha; auto.
  destruct (c a); auto.
Qed.

Lemma eval_preserves P ops : forall a,
  Forall (fun o => preserves P (snd o)) ops -> P a -> P (eval ops a).
Proof.
  unfold eval. induction ops as [|o ops IH]; intros a Hops Ha; simpl; [exact Ha|].
  inversion Hops; subst. apply IH; [assumption|].
  apply step_value_preserves; assumption.
Qed.

Section WithExtern.
Context {E : Extern} (laws : ExternLaws E) (D : Draws).

(** One statement after the other, each keeps a frame a frame. *)
Ltac frame_step :=
  let a := fresh "a" in
  let Ha := fresh "Ha" in
  cbn [snd preserves]; intros a Ha;
  first
    [ solve [auto 6 with framed]
    | apply (gaussian_filter_framed E laws); exact Ha
    | apply (median_filter_framed E laws); exact Ha
    | apply (uniform_filter_framed E laws); exact Ha
    | apply (add_edges_framed laws); exact Ha ].

Ltac frame_steps :=
  repeat (apply Forall_cons; split; [frame_step|]); constructor.

Lemma classic_film_framed h w :
  Forall (fun o => preserves (nd_framed h w) (snd o)) (classic_film D).
Proof. unfold classic_film. frame_steps. Qed.

Lemma cyberpunk_framed h w :
  Forall (fun o => preserves (nd_framed h w) (snd o)) (cyberpunk D).
Proof. unfold cyberpunk. frame_steps. Qed.

Lemma nature_framed h w :
  Forall (fun o => preserves (nd_framed h w) (snd o)) (nature D).
Proof. unfold nature. frame_steps. Qed.

Lemma fire_framed h w :
  Forall (fun o => preserves (nd_framed h w) (snd o)) (fire D).
Proof. unfold fire. frame_steps. Qed.

Lemma pipeline_framed v h w :
  Forall (fun o => preserves (nd_framed h w) (snd o)) (pipeline D v).
Proof.
  unfold pipeline.
  destruct (v =? 0)%Z; [apply classic_film_framed|].
  destruct (v =? 1)%Z; [apply cyberpunk_framed|].
  destruct (v =? 2)%Z; [apply nature_framed|].
  destruct (v =? 3)%Z; [apply fire_framed|constructor].
Qed.

(** C2, on values: a frame of shape [(h, w, 3)] with samples in
    [0, 255] goes to a uint8 array of the same shape, samples in
    [0, 255]. *)
Lemma effect_of_framed v h w a :
  nd_framed h w a ->
  exists g, effect_of D a v = U8 g /\ framed h w g /\ all_samples in_range g.
Proof.
  intros Ha. unfold effect_of.
  assert (Hev : nd_framed h w (eval (pipeline D v) a))
    by (apply eval_preserves; [apply pipeline_framed|exact Ha]).
  apply astype_u8_framed in Hev.
  destruct (eval (pipeline D v) a) as [g|g]; simpl in *; eauto.
Qed.

End WithExtern.

(** *** Running on the store *)

Lemma fetch_new s a : fetch (s ++ [a]) (length s) = a.
Proof.
  unfold fetch. rewrite lookup_app_r by lia.
  rewrite Nat.sub_diag. reflexivity.
Qed.

Lemma fetch_insert s r a : r < length s -> fetch (<[r := a]> s) r = a.
Proof. intros Hr. unfold fetch. rewrite list_lookup_insert_eq by exact Hr. reflexivity. Qed.

Lemma run_cons o ops s r :
  run (o :: ops) s r = run ops (fst (exec (snd o) s r)) (snd (exec (snd o) s r)).
Proof. unfold run. simpl. destruct (exec (snd o) s r). reflexivity. Qed.

Lemma eval_cons o ops a : eval (o :: ops) a = eval ops (step_value (snd o) a).
Proof. reflexivity. Qed.

(** What [img] holds after a statement is the value of the statement. *)
Lemma exec_value st : forall s r,
  r < length s ->
  snd (exec st s r) < length (fst (exec st s r)) /\
  fetch (fst (exec st s r)) (snd (exec st s r)) = step_value st (fetch s r).
Proof.
  induction st as [f|f|c st IH]; intros s r Hr; simpl.
  - rewrite length_app. simpl. split; [lia|apply fetch_new].
  - rewrite length_insert. split; [exact Hr|apply fetch_insert; exact Hr].
  - destruct (c (fetch s r)); [apply IH; exact Hr|auto].
Qed.

Lemma run_value ops : forall s r,
  r < length s ->
  snd (run ops s r) < length (fst (run ops s r)) /\
  fetch (fst (run ops s r)) (snd (run ops s r)) = eval ops (fetch s r).
Proof.
  induction ops as [|o ops IH]; intros s r Hr; [simpl; auto|].
  rewrite run_cons, eval_cons.
  destruct (exec_value (snd o) s r Hr) as [Hr' Hv].
  destruct (IH _ _ Hr') as [Hr'' Hv'].
  split; [exact Hr''|]. rewrite Hv', Hv. reflexivity.
Qed.

(** Once [img] is bound at or above address [n], nothing below [n] is
    written. *)
Lemma exec_private st : forall s r n,
  n <= r -> r < length s ->
  n <= snd (exec st s r) /\
  snd (exec st s r) < length (fst (exec st s r)) /\
  take n (fst (exec st s r)) = take n s.
Proof.
  induction st as [f|f|c st IH]; intros s r n Hn Hr; simpl.
  - rewrite length_app. simpl. split; [lia|]. split; [lia|].
    apply take_app_le. lia.
  - rewrite length_insert. split; [exact Hn|]. split; [exact Hr|].
    apply take_insert_ge. exact Hn.
  - destruct (c (fetch s r)); [apply IH; assumption|auto].
Qed.

Lemma run_private ops : forall s r n,
  n <= r -> r < length s ->
  n <= snd (run ops s r) /\
  snd (run ops s r) < length (fst (run ops s r)) /\
  take n (fst (run ops s r)) = take n s.
Proof.
  induction ops as [|o ops IH]; intros s r n Hn Hr; [simpl; auto|].
  rewrite run_cons.
  destruct (exec_private (snd o) s r n Hn Hr) as (Hn' & Hr' & Ht).
  destruct (IH _ _ n Hn' Hr') as (Hn'' & Hr'' & Ht').
  split; [exact Hn''|]. split; [exact Hr''|]. congruence.
Qed.

(** What a pipeline leaves in the arrays that were there before it ran:
    the array [img] referred to, overwritten by the leading assignments;
    everything else as it was. *)
Lemma run_shared ops : forall s r,
  rebinds_first ops = true -> r < length s ->
  take (length s) (fst (run ops s r)) = <[r := eval (leading ops) (fetch s r)]> s.
Proof.
  induction ops as [|[n [f|f|c st]] ops IH]; intros s r Hops Hr.
  - simpl. rewrite firstn_all. symmetry. apply list_insert_id.
    unfold fetch. destruct (lookup_lt_is_Some_2 s r Hr) as [a ->]. reflexivity.
  - rewrite run_cons. cbn [snd exec fst leading].
    destruct (run_private ops (s ++ [f (fetch s r)]) (length s) (length s))
      as (_ & _ & Ht); [lia|rewrite length_app; simpl; lia|].
    rewrite Ht, take_app_length. symmetry. apply list_insert_id.
    unfold fetch. destruct (lookup_lt_is_Some_2 s r Hr) as [a ->]. reflexivity.
  - rewrite run_cons. cbn [snd exec fst leading].
    specialize (IH (<[r := f (fetch s r)]> s) r Hops).
    rewrite length_insert in IH. rewrite IH by exact Hr.
    rewrite fetch_insert by exact Hr. rewrite list_insert_insert_eq.
    reflexivity.
  - discriminate.
Qed.

End EngineFacts.

(* ------------------------------------------------------------------ *)
(** ** The effect engine: what a call returns and what it overwrites *)
(* ------------------------------------------------------------------ *)
Module EffectsSpec.
Import Np Ops Effects Engine NpFacts OpsFacts EngineFacts.
Local Open Scope nat_scope.

Lemma plain_extern_laws : ExternLaws Sample.plain_extern.
Proof. split; simpl; auto. Qed.

Lemma pipeline_rebinds_first {E : Extern} D v :
  rebinds_first (pipeline D v) = true.
Proof.
  unfold pipeline.
  destruct (v =? 0)%Z; [reflexivity|].
  destruct (v =? 1)%Z; [reflexivity|].
  destruct (v =? 2)%Z; [reflexivity|].
  destruct (v =? 3)%Z; reflexivity.
Qed.

(** The array a call returns is the value of its pipeline, cast. *)
Lemma apply_video_effects_value {E : Extern} D s img v :
  img < length s ->
  fetch (fst (apply_video_effects D s img v)) (snd (apply_video_effects D s img v))
    = effect_of D (fetch s img) v.
Proof.
  intros Himg. unfold apply_video_effects, effect_of.
  destruct (run_value (pipeline D v) s img Himg) as [Hr Hv].
  simpl. rewrite fetch_new, Hv. reflexivity.
Qed.

(** What a call leaves in the arrays of its caller: the frame it was
    given, overwritten by the leading assignments of the variant. *)
Lemma frames_after_call {E : Extern} D s img v :
  img < length s ->
  take (length s) (fst (apply_video_effects D s img v))
    = <[img := eval (leading (pipeline D v)) (fetch s img)]> s.
Proof.
  intros Himg. unfold apply_video_effects. simpl.
  pose proof (run_shared (pipeline D v) s img (pipeline_rebinds_first D v) Himg)
    as Hshared.
  rewrite <- Hshared. rewrite take_app_le; [reflexivity|].
  clear Hshared. revert s img Himg.
  generalize (pipeline D v) as ops.
  induction ops as [|o ops IH]; intros s img Himg; [simpl; lia|].
  rewrite run_cons.
  assert (Hgrow : forall st s r, r < length s ->
            length s <= length (fst (exec st s r)) /\
            snd (exec st s r) < length (fst (exec st s r))).
  { clear. induction st as [f|f|c st IHst]; intros s r Hr; simpl.
    - rewrite length_app. simpl. lia.
    - rewrite length_insert. lia.
    - destruct (c (fetch s r)); [apply IHst; exact Hr|simpl; lia]. }
  destruct (Hgrow (snd o) s img Himg) as [Hle Hlt].
  specialize (IH _ _ Hlt). lia.
Qed.

(** C2: for every frame of shape [(h, w, 3)] with 8-bit samples, and
    every variant id (the four pipelines, and the no-op of any other
    id), the call returns a uint8 array of shape [(h, w, 3)] whose
    samples lie in [0, 255]; the SciPy filters are taken to return
    arrays of the shape of their input. *)
Theorem effects_keep_shape_and_range {E : Extern} (D : Draws) s img g v h w :
  ExternLaws E ->
  s !! img = Some (U8 g) ->
  framed h w g ->
  all_samples in_range g ->
  exists g',
    fetch (fst (apply_video_effects D s img v))
          (snd (apply_video_effects D s img v)) = U8 g' /\
    framed h w g' /\ all_samples in_range g'.
Proof.
  intros laws Himg Hg Hr.
  rewrite apply_video_effects_value by (eapply lookup_lt_Some; exact Himg).
  apply (effect_of_framed laws). unfold fetch. rewrite Himg. simpl. auto.
Qed.

Lemma effects_keep_shape_and_range_witness :
  exists g',
    fetch (fst (apply_video_effects (E := Sample.plain_extern) Sample.no_noise
                  [Sample.two_pixels] 0 1))
          (snd (apply_video_effects (E := Sample.plain_extern) Sample.no_noise
                  [Sample.two_pixels] 0 1)) = U8 g' /\
    framed 1 2 g' /\ all_samples in_range g'.
Proof.
  apply (effects_keep_shape_and_range (E := Sample.plain_extern) Sample.no_noise
           [Sample.two_pixels] 0 [ [ [10; 20; 30]; [200; 220; 240] ] ]%Z 1 1 2).
  - exact plain_extern_laws.
  - reflexivity.
  - repeat constructor.
  - repeat constructor; unfold in_range; lia.
Defined.

(** C5: for an id outside {0, 1, 2, 3} the call runs no statement: it
    returns an array equal to the frame it was given, sample for
    sample, and leaves the caller's arrays as they were. *)
Theorem unknown_variant_is_noop {E : Extern} (D : Draws) s img g v :
  s !! img = Some (U8 g) ->
  (v <> 0 /\ v <> 1 /\ v <> 2 /\ v <> 3)%Z ->
  fetch (fst (apply_video_effects D s img v))
        (snd (apply_video_effects D s img v)) = U8 g /\
  take (length s) (fst (apply_video_effects D s img v)) = s.
Proof.
  intros Himg (H0 & H1 & H2 & H3).
  assert (Hp : pipeline D v = []).
  { unfold pipeline.
    destruct (Z.eqb_spec v 0); [contradiction|].
    destruct (Z.eqb_spec v 1); [contradiction|].
    destruct (Z.eqb_spec v 2); [contradiction|].
    destruct (Z.eqb_spec v 3); [contradiction|reflexivity]. }
  unfold apply_video_effects. rewrite Hp. simpl. split.
  - rewrite fetch_new. unfold fetch. rewrite Himg. reflexivity.
  - apply take_app_length.
Qed.

Lemma unknown_variant_is_noop_witness :
  fetch (fst (apply_video_effects (E := Sample.plain_extern) Sample.no_noise
                [Sample.two_pixels] 0 999))
        (snd (apply_video_effects (E := Sample.plain_extern) Sample.no_noise
                [Sample.two_pixels] 0 999)) = Sample.two_pixels /\
  take 1 (fst (apply_video_effects (E := Sample.plain_extern) Sample.no_noise
                 [Sample.two_pixels] 0 999)) = [Sample.two_pixels].
Proof.
  apply (unknown_variant_is_noop (E := Sample.plain_extern) Sample.no_noise
           [Sample.two_pixels] 0 [ [ [10; 20; 30]; [200; 220; 240] ] ]%Z 999).
  - reflexivity.
  - repeat split; discriminate.
Defined.

(** Variant 0 and the unknown ids never write into the frame they are
    given. *)
Lemma classic_film_spares_the_frame {E : Extern} D s img v :
  img < length s -> (v <> 1 /\ v <> 2 /\ v <> 3)%Z ->
  take (length s) (fst (apply_video_effects D s img v)) = s.
Proof.
  intros Himg (H1 & H2 & H3). rewrite frames_after_call by exact Himg.
  assert (Hl : leading (pipeline D v) = []).
  { unfold pipeline. destruct (v =? 0)%Z; [reflexivity|].
    destruct (Z.eqb_spec v 1); [contradiction|].
    destruct (Z.eqb_spec v 2); [contradiction|].
    destruct (Z.eqb_spec v 3); [contradiction|reflexivity]. }
  rewrite Hl. simpl. apply list_insert_id.
  unfold fetch. destruct (lookup_lt_is_Some_2 s img Himg) as [a ->]. reflexivity.
Qed.

(** One renderer of variant 1 over a store holding the 1x2 frame
    [[10,20,30],[200,220,240]]: after the call the shared frame reads
    [[6,16,42],[120,176,255]].  The three leading channel scalings of
    the variant were written into it, whatever the library functions
    and the draws are. *)
Lemma shared_frame_overwritten {E : Extern} (draws : nat -> Draws) :
  Render.arrays
    (snd (Render.process_all_frames Sample.quiet_encoder draws [0]
            "temp_processed_2.mp4" 1 1
            {| Render.arrays := [Sample.two_pixels]; Render.fs := ∅ |})) !! 0
  = Some (U8 [ [ [6; 16; 42]; [120; 176; 255] ] ]%Z).
Proof.
  rewrite RenderSpec.arrays_after_render by reflexivity.
  cbn [Render.render_arrays Render.arrays].
  rewrite <- (lookup_take_lt _ 1) by lia.
  change 1 with (length [Sample.two_pixels]) at 1.
  rewrite frames_after_call by (simpl; lia).
  vm_compute. reflexivity.
Qed.

(** C4, at the failing input: variant 0 on a 1x1 black frame.  The
    inversion gives 255; the brightness step adds 30 in uint8, so the
    sum wraps to 29 before [np.clip] sees it, and 29 is what the next
    operation receives. *)
Theorem brightness_wraps_before_clip {E : Extern} (D : Draws) :
  eval (upto 1 (classic_film D)) Sample.black_pixel
    = U8 [ [ [255; 255; 255] ] ]%Z /\
  eval (upto 2 (classic_film D)) Sample.black_pixel
    = U8 [ [ [29; 29; 29] ] ]%Z.
Proof. split; vm_compute; reflexivity. Qed.

(** The same slip in the contrast step of variant 1: [img - 128] is
    taken in uint8, so a dark sample comes out at full scale. *)
Lemma contrast_wraps_before_clip {E : Extern} (D : Draws) :
  eval (upto 4 (cyberpunk D)) Sample.black_pixel
    = F64 [ [ [255; 255; 255] ] ]%float.
Proof. vm_compute. reflexivity. Qed.

(** Operation 17 of variant 0 has no clamp: a sample of 251 leaves it
    above 255, and operation 18 clamps the green channel only. *)
Lemma vintage_fade_leaves_the_range {E : Extern} (D : Draws) :
  let x := (251 * 0.95 + 20)%float in
  (255 <? x)%float = true /\
  eval (numbered 18 (classic_film D))
    (eval (numbered 17 (classic_film D)) (U8 [ [ [251; 251; 251] ] ]%Z))
    = F64 [ [ [x; 255%float; x] ] ].
Proof. split; vm_compute; reflexivity. Qed.

(** Whether the four outputs of a frame differ is decided by the
    numerics of the libraries, not by the statements of the pipelines:
    every pipeline ends by multiplying with a vignette computed through
    [np.power], so with a power function that answers NaN the four
    variants return the same array, and with one that returns its
    argument they return four different ones. *)
Lemma outputs_differ_by_the_libraries :
  Forall (fun v => effect_of (E := Sample.nan_power) Sample.no_noise
                     Sample.two_pixels v
                   = U8 [ [ [0; 0; 0]; [0; 0; 0] ] ]%Z) [0; 1; 2; 3]%Z /\
  map (effect_of (E := Sample.plain_extern) Sample.no_noise Sample.two_pixels)
    [0; 1; 2; 3]%Z
  = [ U8 [ [ [70; 68; 64]; [255; 252; 235] ] ];
      U8 [ [ [102; 102; 114]; [255; 255; 255] ] ];
      U8 [ [ [20; 50; 24]; [162; 255; 171] ] ];
      U8 [ [ [30; 0; 0]; [255; 255; 106] ] ] ]%Z.
Proof.
  split; [repeat constructor|]; vm_compute; reflexivity.
Qed.

End EffectsSpec.

(* ------------------------------------------------------------------ *)
(** ** The fan-out: four renderers on one frame sequence *)
(* ------------------------------------------------------------------ *)
Module FanOutSpec.
Import Np Py Ops Effects Engine Render RenderSpec EngineFacts EffectsSpec.
Local Open Scope nat_scope.

Lemma target_path_inj i j :
  i < 4 -> j < 4 ->
  nth i processed_files ""%string = nth j processed_files ""%string -> i = j.
Proof.
  intros Hi Hj.
  destruct i as [|[|[|[|i]]]]; try lia;
    destruct j as [|[|[|[|j]]]]; try lia; simpl; congruence.
Qed.

Section WithExtern.
Context {E : Extern}.

Lemma process_all_frames_returns enc draws frames out v tid w :
  exists w', process_all_frames enc draws frames out v tid w = (Returns tt, w').
Proof.
  unfold process_all_frames, try_except.
  destruct (render_body enc draws frames out v w) as [[[]|e] w']; eauto.
Qed.

Lemma for_each_any_start {W A} (body : A -> M W unit) l : forall i j w,
  for_each i l (fun _ x => body x) w = for_each j l (fun _ x => body x) w.
Proof.
  induction l as [|x l IH]; intros i j w; [reflexivity|].
  cbn [for_each]. unfold bind. destruct (body x w) as [[[]|e] w']; auto.
Qed.

Lemma render_all_cons encs draws frames i sched w :
  render_all encs draws frames (i :: sched) w =
    render_all encs draws frames sched
      (snd (process_all_frames (encs i) (draws i) frames
              (nth i processed_files ""%string) (Z.of_nat i) i w)).
Proof.
  unfold render_all. cbn [for_each].
  destruct (process_all_frames_returns (encs i) (draws i) frames
              (nth i processed_files ""%string) (Z.of_nat i) i w) as [w' Hrun].
  rewrite (bind_returns _ _ _ _ _ Hrun), Hrun. cbn [snd].
  apply (for_each_any_start
           (fun i => process_all_frames (encs i) (draws i) frames
                       (nth i processed_files ""%string) (Z.of_nat i) i)).
Qed.

(** The renderers that come after do not touch a file that is none of
    their targets. *)
Lemma render_all_other_files encs draws frames sched : forall w p,
  (forall i, i ∈ sched -> nth i processed_files ""%string <> p) ->
  fs (snd (render_all encs draws frames sched w)) !! p = fs w !! p.
Proof.
  induction sched as [|i sched IH]; intros w p Hp; [reflexivity|].
  rewrite render_all_cons, IH.
  - destruct (render_body_spec (encs i) (draws i) frames
                (nth i processed_files ""%string) (Z.of_nat i) w)
      as (o & w' & Hrun & Hsame & _ & _).
    unfold process_all_frames, try_except. rewrite Hrun.
    assert (Hw' : fs w' !! p = fs w !! p).
    { apply Hsame. intros ->. eapply Hp; [left|reflexivity]. }
    destruct o; exact Hw'.
  - intros j Hj. apply Hp. right. exact Hj.
Qed.

(** The fan-out always comes back, and every renderer the encoder lets
    through has its file closed over all its packets, whichever of
    its siblings failed. *)
Theorem siblings_finish_regardless encs draws frames sched w :
  NoDup sched -> Forall (fun i => i < 4) sched ->
  fst (render_all encs draws frames sched w) = Returns tt /\
  forall i, i ∈ sched -> clean (encs i) (length frames) = true ->
    fs (snd (render_all encs draws frames sched w))
      !! nth i processed_files ""%string
    = Some (Finalized (packets_of (encs i) (length frames))).
Proof.
  revert w. induction sched as [|j sched IH]; intros w Hnd Hlt.
  - split; [reflexivity|]. intros i Hi. inversion Hi.
  - apply NoDup_cons in Hnd as [Hj Hnd]. apply Forall_cons in Hlt as [Hj4 Hlt].
    rewrite render_all_cons.
    set (w1 := snd (process_all_frames _ _ _ _ _ _ w)).
    destruct (IH w1 Hnd Hlt) as [Hret Hfiles]. split; [exact Hret|].
    intros i Hi Hclean. apply elem_of_cons in Hi as [->|Hi]; [|auto].
    rewrite render_all_other_files.
    + subst w1.
      destruct (render_body_spec (encs j) (draws j) frames
                  (nth j processed_files ""%string) (Z.of_nat j) w)
        as (o & w' & Hrun & _ & _ & Hres).
      unfold process_all_frames, try_except. rewrite Hrun.
      rewrite Hclean in Hres. destruct Hres as (-> & _ & Hfile). exact Hfile.
    + intros k Hk Heq. apply target_path_inj in Heq.
      * subst k. contradiction.
      * rewrite Forall_forall in Hlt. apply Hlt. exact Hk.
      * exact Hj4.
Qed.

(** When every encoder lets its renderer through, the arrays after the
    fan-out are those of the effect calls, renderer after renderer. *)
Lemma render_all_arrays encs draws frames sched : forall w,
  (forall i, i ∈ sched -> clean (encs i) (length frames) = true) ->
  arrays (snd (render_all encs draws frames sched w))
    = fan_out_arrays draws frames sched (arrays w).
Proof.
  induction sched as [|i sched IH]; intros w Hclean; [reflexivity|].
  rewrite render_all_cons, IH by (intros j Hj; apply Hclean; right; exact Hj).
  rewrite arrays_after_render by (apply Hclean; left).
  reflexivity.
Qed.

(** What a call leaves at the address of the frame it was given. *)
Lemma fetch_after_call D s img v :
  img < length s ->
  img < length (fst (apply_video_effects D s img v)) /\
  fetch (fst (apply_video_effects D s img v)) img
    = eval (leading (pipeline D v)) (fetch s img).
Proof.
  intros Himg. pose proof (frames_after_call D s img v Himg) as Hshared.
  assert (Hlen : length s <= length (fst (apply_video_effects D s img v))).
  { apply (f_equal length) in Hshared.
    rewrite length_take, length_insert in Hshared. lia. }
  split; [lia|]. unfold fetch at 1.
  rewrite <- (lookup_take_lt _ (length s)) by exact Himg.
  rewrite Hshared, list_lookup_insert_eq by exact Himg. reflexivity.
Qed.

(** C1 on the whole fan-out: the four renderers of [main], one after
    the other, over a store holding the 1x2 frame
    [[10,20,30],[200,220,240]].  Variant 0 leaves it alone; variants 1,
    2 and 3 each scale its channels in place, so it ends as
    [[6,14,11],[134,153,71]] whatever the library functions and the
    draws are. *)
Theorem four_renderers_overwrite_the_frame (draws : nat -> nat -> Draws) :
  arrays
    (snd (render_all (fun _ => Sample.quiet_encoder) draws [0] [0; 1; 2; 3]
            {| arrays := [Sample.two_pixels]; fs := ∅ |})) !! 0
  = Some (U8 [ [ [6; 14; 11]; [134; 153; 71] ] ]%Z).
Proof.
  rewrite render_all_arrays by (intros; reflexivity).
  cbn [fan_out_arrays fold_left render_arrays arrays].
  set (s0 := [Sample.two_pixels]).
  assert (H0 : 0 < length s0) by (simpl; lia).
  destruct (fetch_after_call (draws 0 0) s0 0 (Z.of_nat 0) H0) as [H1 F1].
  set (s1 := fst (apply_video_effects (draws 0 0) s0 0 (Z.of_nat 0))) in *.
  destruct (fetch_after_call (draws 1 0) s1 0 (Z.of_nat 1) H1) as [H2 F2].
  set (s2 := fst (apply_video_effects (draws 1 0) s1 0 (Z.of_nat 1))) in *.
  destruct (fetch_after_call (draws 2 0) s2 0 (Z.of_nat 2) H2) as [H3 F3].
  set (s3 := fst (apply_video_effects (draws 2 0) s2 0 (Z.of_nat 2))) in *.
  destruct (fetch_after_call (draws 3 0) s3 0 (Z.of_nat 3) H3) as [H4 F4].
  set (s4 := fst (apply_video_effects (draws 3 0) s3 0 (Z.of_nat 3))) in *.
  destruct (lookup_lt_is_Some_2 s4 0 H4) as [a Ha].
  rewrite Ha. f_equal.
  assert (Hf : fetch s4 0 = a) by (unfold fetch; rewrite Ha; reflexivity).
  rewrite <- Hf, F4, F3, F2, F1. vm_compute. reflexivity.
Qed.


End WithExtern.

Lemma siblings_finish_regardless_witness :
  fst (render_all (E := Sample.plain_extern)
         (fun i => Sample.quiet_encoder) (fun _ _ => Sample.no_noise)
         [0] [0; 1; 2; 3]
         {| arrays := [Sample.two_pixels]; fs := ∅ |}) = Returns tt /\
  forall i, i ∈ [0; 1; 2; 3] ->
    clean Sample.quiet_encoder (length [0]) = true ->
    fs (snd (render_all (E := Sample.plain_extern)
               (fun i => Sample.quiet_encoder) (fun _ _ => Sample.no_noise)
               [0] [0; 1; 2; 3]
               {| arrays := [Sample.two_pixels]; fs := ∅ |}))
      !! nth i processed_files ""%string
    = Some (Finalized (packets_of Sample.quiet_encoder (length [0]))).
Proof.
  refine (siblings_finish_regardless (E := Sample.plain_extern)
            (fun i => Sample.quiet_encoder)
            (fun _ _ => Sample.no_noise) [0] [0; 1; 2; 3]
            {| arrays := [Sample.two_pixels]; fs := ∅ |} _ _).
  - repeat (apply NoDup_cons; split;
            [intros Hin; repeat (apply elem_of_cons in Hin as [Hin|Hin];
                                 [discriminate Hin|]);
             apply elem_of_nil in Hin; exact Hin|]).
    apply NoDup_nil. exact I.
  - repeat (apply Forall_cons; split; [lia|]). apply Forall_nil. exact I.
Defined.

End FanOutSpec.

(* ------------------------------------------------------------------ *)
(** ** The effect engine: what a call does to the arrays of its caller *)
(* ------------------------------------------------------------------ *)
Module EngineExtra.
Import Np Ops Effects Engine NpFacts OpsFacts EngineFacts EffectsSpec.
Local Open Scope nat_scope.

Lemma exec_grows st : forall s r,
  r < length s -> length s <= length (fst (exec st s r)).
Proof.
  induction st as [f|f|c st IH]; intros s r Hr; simpl.
  - rewrite length_app. simpl. lia.
  - rewrite length_insert. lia.
  - destruct (c (fetch s r)); [apply IH; exact Hr|simpl; lia].
Qed.

Lemma run_grows ops : forall s r,
  r < length s -> length s <= length (fst (run ops s r)).
Proof.
  induction ops as [|o ops IH]; intros s r Hr; [simpl; lia|].
  rewrite run_cons.
  pose proof (exec_grows (snd o) s r Hr).
  destruct (exec_value (snd o) s r Hr) as [Hr' _].
  specialize (IH _ _ Hr'). lia.
Qed.

Lemma leading_sublist {P : op -> Prop} ops :
  Forall P ops -> Forall P (leading ops).
Proof.
  induction 1 as [|[n [f|f|c st]] ops Ho _ IH]; simpl; constructor; assumption.
Qed.

Lemma upto_sublist {P : op -> Prop} n ops :
  Forall P ops -> Forall P (upto n ops).
Proof.
  intros Hops. rewrite Forall_forall in Hops. apply Forall_forall.
  intros o Ho. unfold upto in Ho. apply list_elem_of_filter in Ho as [_ Ho].
  apply Hops, Ho.
Qed.

Section WithExtern.
Context {E : Extern}.

(** What a call leaves in the arrays that were alive before it: the
    frame it was given, overwritten by the assignments its variant
    makes before it first binds [img] anew (none for variant 0 and for
    unknown ids, three channel scalings for variants 1, 2 and 3);
    every other array as it was. *)
Theorem call_overwrites_only_its_frame (D : Draws) s img v :
  img < length s ->
  take (length s) (fst (apply_video_effects D s img v))
    = <[img := eval (leading (pipeline D v)) (fetch s img)]> s.
Proof. apply frames_after_call. Qed.

(** Variant 0 starts with [img = 255 - img], a new array: it, and any
    id that is not 1, 2 or 3, leaves every array of its caller as it
    was. *)
Theorem classic_film_writes_nothing_shared (D : Draws) s img v :
  img < length s ->
  (v <> 1 /\ v <> 2 /\ v <> 3)%Z ->
  take (length s) (fst (apply_video_effects D s img v)) = s.
Proof. apply classic_film_spares_the_frame. Qed.

(** The array a call returns is a new one: its address is none of the
    caller's, whatever the variant id (the final [astype] copies). *)
Theorem call_returns_a_new_array (D : Draws) s img v :
  img < length s ->
  length s <= snd (apply_video_effects D s img v) /\
  snd (apply_video_effects D s img v)
    < length (fst (apply_video_effects D s img v)).
Proof.
  intros Himg. unfold apply_video_effects. simpl.
  pose proof (run_grows (pipeline D v) s img Himg).
  rewrite length_app. simpl. lia.
Qed.

Lemma leading_keeps_u8 (D : Draws) v :
  Forall (fun o => preserves (fun a => is_u8 a = true) (snd o))
    (leading (pipeline D v)).
Proof.
  unfold pipeline.
  destruct (v =? 0)%Z; [constructor|].
  destruct (v =? 1)%Z;
    [repeat constructor; intros [g|g]; simpl; congruence|].
  destruct (v =? 2)%Z;
    [repeat constructor; intros [g|g]; simpl; congruence|].
  destruct (v =? 3)%Z;
    [repeat constructor; intros [g|g]; simpl; congruence|constructor].
Qed.

Lemma leading_keeps_frames (D : Draws) v h w :
  Forall (fun o => preserves (nd_framed h w) (snd o)) (leading (pipeline D v)).
Proof.
  unfold pipeline.
  destruct (v =? 0)%Z; [constructor|].
  destruct (v =? 1)%Z;
    [repeat constructor; intros a Ha; apply chan_inplace_framed; exact Ha|].
  destruct (v =? 2)%Z;
    [repeat constructor; intros a Ha; apply chan_inplace_framed; exact Ha|].
  destruct (v =? 3)%Z;
    [repeat constructor; intros a Ha; apply chan_inplace_framed; exact Ha
    |constructor].
Qed.

(** However a call overwrites the frame it was given, it leaves it a
    uint8 array of the same shape with samples in [0, 255]: the
    siblings that read it later still get a well-formed frame. *)
Theorem shared_frame_stays_well_formed (D : Draws) s img g v h w :
  s !! img = Some (U8 g) ->
  framed h w g ->
  all_samples in_range g ->
  exists g',
    fst (apply_video_effects D s img v) !! img = Some (U8 g') /\
    framed h w g' /\ all_samples in_range g'.
Proof.
  intros Himg Hg Hr.
  assert (Hlt : img < length s) by (eapply lookup_lt_Some; exact Himg).
  pose proof (frames_after_call D s img v Hlt) as Hshared.
  assert (Hf : fetch s img = U8 g) by (unfold fetch; rewrite Himg; reflexivity).
  rewrite Hf in Hshared.
  assert (Hu : is_u8 (eval (leading (pipeline D v)) (U8 g)) = true)
    by (apply (eval_preserves (fun a => is_u8 a = true));
        [apply leading_keeps_u8|reflexivity]).
  assert (Hn : nd_framed h w (eval (leading (pipeline D v)) (U8 g)))
    by (apply eval_preserves; [apply leading_keeps_frames|split; assumption]).
  destruct (eval (leading (pipeline D v)) (U8 g)) as [g'|g']; [|discriminate].
  exists g'. destruct Hn as [Hg' Hr']. split; [|auto].
  rewrite <- (lookup_take_lt _ (length s)) by exact Hlt.
  rewrite Hshared. apply list_lookup_insert_eq. exact Hlt.
Qed.

(** The shape is kept by every operation, not only by the whole
    pipeline: what [img] holds after the operations numbered up to [n]
    is an array of shape [(h, w, 3)], its samples in [0, 255] where it
    is uint8. *)
Theorem every_operation_keeps_the_shape (D : Draws) a v n h w :
  ExternLaws E ->
  nd_framed h w a ->
  nd_framed h w (eval (upto n (pipeline D v)) a).
Proof.
  intros laws Ha. apply eval_preserves; [|exact Ha].
  apply upto_sublist, (pipeline_framed laws).
Qed.

End WithExtern.

Lemma call_overwrites_only_its_frame_witness :
  take 1 (fst (apply_video_effects (E := Sample.plain_extern) Sample.no_noise
                 [Sample.two_pixels] 0 1))
    = [U8 [ [ [6; 16; 42]; [120; 176; 255] ] ]%Z].
Proof.
  apply (call_overwrites_only_its_frame (E := Sample.plain_extern)
           Sample.no_noise [Sample.two_pixels] 0 1).
  simpl. lia.
Defined.

Lemma classic_film_writes_nothing_shared_witness :
  take 1 (fst (apply_video_effects (E := Sample.plain_extern) Sample.no_noise
                 [Sample.two_pixels] 0 0))
    = [Sample.two_pixels].
Proof.
  apply (classic_film_writes_nothing_shared (E := Sample.plain_extern)
           Sample.no_noise [Sample.two_pixels] 0 0).
  - simpl. lia.
  - repeat split; discriminate.
Defined.

Lemma call_returns_a_new_array_witness :
  1 <= snd (apply_video_effects (E := Sample.plain_extern) Sample.no_noise
              [Sample.two_pixels] 0 999) /\
  snd (apply_video_effects (E := Sample.plain_extern) Sample.no_noise
         [Sample.two_pixels] 0 999)
    < length (fst (apply_video_effects (E := Sample.plain_extern) Sample.no_noise
                     [Sample.two_pixels] 0 999)).
Proof.
  apply (call_returns_a_new_array (E := Sample.plain_extern)
           Sample.no_noise [Sample.two_pixels] 0 999).
  simpl. lia.
Defined.

Lemma shared_frame_stays_well_formed_witness :
  exists g',
    fst (apply_video_effects (E := Sample.plain_extern) Sample.no_noise
           [Sample.two_pixels] 0 3) !! 0 = Some (U8 g') /\
    framed 1 2 g' /\ all_samples in_range g'.
Proof.
  apply (shared_frame_stays_well_formed (E := Sample.plain_extern)
           Sample.no_noise [Sample.two_pixels] 0
           [ [ [10; 20; 30]; [200; 220; 240] ] ]%Z 3 1 2).
  - reflexivity.
  - repeat constructor.
  - repeat constructor; unfold in_range; lia.
Defined.

Lemma every_operation_keeps_the_shape_witness :
  nd_framed 1 2
    (eval (upto 17 (pipeline (E := Sample.plain_extern) Sample.no_noise 2))
       Sample.two_pixels).
Proof.
  apply (every_operation_keeps_the_shape (E := Sample.plain_extern)
           Sample.no_noise Sample.two_pixels 2 17 1 2).
  - exact plain_extern_laws.
  - split; repeat constructor; unfold in_range; lia.
Defined.

End EngineExtra.

(* ------------------------------------------------------------------ *)
(** ** Demux: what a successful run returns *)
(* ------------------------------------------------------------------ *)
Module DemuxExtra.
Import Np Py Demux DemuxSpec.

Lemma decode_loop_all items : forall acc imgs l,
  Forall2 (fun f img => to_ndarray f = Returns img) items imgs ->
  decode_loop acc items None l = (Returns (acc ++ imgs), l).
Proof.
  induction items as [|f items IH]; intros acc imgs l Hall;
    inversion Hall as [|? img ? imgs' Hf Hrest]; subst; simpl.
  - rewrite app_nil_r. reflexivity.
  - unfold bind, call. rewrite Hf, (IH _ imgs' l Hrest), <- app_assoc.
    reflexivity.
Qed.

(** When nothing fails, the run returns every frame the decoder
    yielded, converted, in decode order, together with the metadata of
    the first video and of the first audio stream; the whole sequence
    is there when the function returns. *)
Theorem demux_returns_all_frames_in_order av_open input_file c ss frames l :
  av_open input_file = Returns c ->
  streams c = Returns ss ->
  Forall2 (fun f img => to_ndarray f = Returns img) (decode_yields c) frames ->
  decode_ends c = None ->
  close c = Returns tt ->
  fst (demux_video_once av_open input_file l)
    = Returns (Some frames, first_video ss, first_audio ss).
Proof.
  intros Hopen Hss Hall Hend Hclose.
  unfold demux_video_once, try_except, demux_body, bind, call, emit, modify, ret.
  rewrite Hopen, Hss, Hend, (decode_loop_all _ [] frames _ Hall), Hclose.
  reflexivity.
Qed.

Lemma demux_returns_all_frames_in_order_witness :
  fst (demux_video_once (Sample.opens Sample.good_container) "test.mp4" [])
    = Returns (Some [Sample.two_pixels; U8 [ [ [1; 2; 3]; [4; 5; 6] ] ]%Z],
               first_video [Sample.hd_720; Sample.stereo; Sample.surround],
               first_audio [Sample.hd_720; Sample.stereo; Sample.surround]).
Proof.
  apply (demux_returns_all_frames_in_order
           (Sample.opens Sample.good_container) "test.mp4" Sample.good_container
           [Sample.hd_720; Sample.stereo; Sample.surround]
           [Sample.two_pixels; U8 [ [ [1; 2; 3]; [4; 5; 6] ] ]%Z] []);
    try reflexivity.
  repeat constructor.
Defined.

(** The first audio stream in container order gives the audio
    metadata; streams of other kinds before it are skipped, audio
    streams after it are ignored. *)
Theorem first_audio_stream_wins before s after :
  Forall (fun s' => type s' <> Audio) before ->
  type s = Audio ->
  first_audio (before ++ s :: after)
    = Some {| a_rate := s_rate s; channels := s_channels s;
              layout := s_layout s |}.
Proof.
  intros Hbefore Hs. induction Hbefore as [|s' before Hs' _ IH]; simpl.
  - rewrite Hs. reflexivity.
  - destruct (type s'); [exact IH|contradiction|exact IH].
Qed.

Lemma first_audio_stream_wins_witness :
  first_audio ([Sample.hd_720] ++ Sample.stereo :: [Sample.surround])
    = Some {| a_rate := 44100; channels := 2; layout := "stereo" |}.
Proof.
  apply (first_audio_stream_wins [Sample.hd_720] Sample.stereo [Sample.surround]).
  - repeat constructor. discriminate.
  - reflexivity.
Defined.

Lemma first_video_absent ss :
  first_video ss = None <-> Forall (fun s => type s <> Video) ss.
Proof.
  induction ss as [|s ss IH]; simpl.
  - split; [constructor|reflexivity].
  - destruct (type s) eqn:Hs.
    + split; [discriminate|]. intros H. inversion H; subst. congruence.
    + rewrite IH. split; [constructor; [congruence|assumption]|].
      intros H. inversion H; assumption.
    + rewrite IH. split; [constructor; [congruence|assumption]|].
      intros H. inversion H; assumption.
Qed.

Lemma first_audio_absent ss :
  first_audio ss = None <-> Forall (fun s => type s <> Audio) ss.
Proof.
  induction ss as [|s ss IH]; simpl.
  - split; [constructor|reflexivity].
  - destruct (type s) eqn:Hs.
    + rewrite IH. split; [constructor; [congruence|assumption]|].
      intros H. inversion H; assumption.
    + split; [discriminate|]. intros H. inversion H; subst. congruence.
    + rewrite IH. split; [constructor; [congruence|assumption]|].
      intros H. inversion H; assumption.
Qed.

(** In what [demux_video_once] returns, a metadata field is absent
    exactly when the run failed (the frames are absent too) or the
    container has no stream of its kind: an audio-only file that decodes
    has no video metadata, a silent video no audio metadata, and a run
    that fails has neither, whatever streams the container holds. *)
Theorem metadata_absent_iff_failed_or_no_stream av_open input_file l
    frames video audio :
  fst (demux_video_once av_open input_file l) = Returns (frames, video, audio) ->
  (video = None <->
   frames = None \/
   exists c ss, av_open input_file = Returns c /\ streams c = Returns ss /\
                Forall (fun s => type s <> Video) ss) /\
  (audio = None <->
   frames = None \/
   exists c ss, av_open input_file = Returns c /\ streams c = Returns ss /\
                Forall (fun s => type s <> Audio) ss).
Proof.
  intros Hrun.
  destruct (demux_cases av_open input_file l)
    as [(c & ss & imgs & Hopen & Hss & _ & _ & _ & Hres)|(l' & Hres & _)];
    rewrite Hres in Hrun; simpl in Hrun; injection Hrun as <- <- <-.
  - split; split.
    + intros Hv. right. exists c, ss. rewrite <- first_video_absent. auto.
    + intros [?|(c' & ss' & Hopen' & Hss' & Hall)]; [discriminate|].
      assert (c' = c) by congruence. subst c'.
      assert (ss' = ss) by congruence. subst ss'.
      apply first_video_absent. exact Hall.
    + intros Ha. right. exists c, ss. rewrite <- first_audio_absent. auto.
    + intros [?|(c' & ss' & Hopen' & Hss' & Hall)]; [discriminate|].
      assert (c' = c) by congruence. subst c'.
      assert (ss' = ss) by congruence. subst ss'.
      apply first_audio_absent. exact Hall.
  - split; split; auto.
Qed.

Lemma metadata_absent_iff_failed_or_no_stream_witness :
  ((None : option video_info) = None <->
   Some ([] : list ndarray) = None \/
   exists c ss, Sample.opens Sample.empty_container "test.mp4" = Returns c /\
                streams c = Returns ss /\
                Forall (fun s => type s <> Video) ss) /\
  ((None : option audio_info) = None <->
   Some ([] : list ndarray) = None \/
   exists c ss, Sample.opens Sample.empty_container "test.mp4" = Returns c /\
                streams c = Returns ss /\
                Forall (fun s => type s <> Audio) ss).
Proof.
  apply (metadata_absent_iff_failed_or_no_stream
           (Sample.opens Sample.empty_container) "test.mp4" []
           (Some []) None None).
  reflexivity.
Defined.

End DemuxExtra.

(* ------------------------------------------------------------------ *)
(** ** Mux: what the loop calls, pair by pair *)
(* ------------------------------------------------------------------ *)
Module MuxExtra.
Import Py Mux MuxSpec.
Local Open Scope nat_scope.

(** The calls of the whole loop are the calls of its pairs. *)
Lemma in_mux_log T processed_files final_outputs ev :
  (ev ∈ snd (mux_videos T processed_files final_outputs [])) <->
  exists j p o, zip processed_files final_outputs !! j = Some (p, o) /\
                (ev ∈ pair_events T j p o).
Proof.
  unfold mux_videos. rewrite mux_loop_log. simpl.
  rewrite list_elem_of_join. split.
  - intros (evs & Hin & Hevs).
    apply elem_of_lookup_imap in Hevs as (k & [p o] & -> & Hk).
    exists k, p, o. auto.
  - intros (j & p & o & Hj & Hin).
    exists (pair_events T j p o). split; [exact Hin|].
    apply elem_of_lookup_imap. exists j, (p, o). auto.
Qed.

Lemma ffmpeg_in_pair_events T i p o j cmd :
  (Ffmpeg j cmd ∈ pair_events T i p o) <->
  j = i /\ cmd = ffmpeg_cmd p o /\ path_exists T i p = true.
Proof.
  unfold pair_events. rewrite elem_of_cons.
  destruct (path_exists T i p).
  - rewrite elem_of_cons. split.
    + intros [?|[[= -> ->]|Hin]]; [discriminate|auto|].
      destruct (subprocess_run T i (ffmpeg_cmd p o)) as [rc|e].
      * destruct (rc =? 0)%Z.
        -- apply elem_of_nil in Hin as [].
        -- apply list_elem_of_singleton in Hin. discriminate.
      * apply elem_of_nil in Hin as [].
    + intros (-> & -> & _). auto.
  - rewrite elem_of_nil. split.
    + intros [?|[]]. discriminate.
    + intros (_ & _ & ?). discriminate.
Qed.

(** Whatever the tools do, [mux_videos] returns, and it has looked for
    the rendered file of every pair of the two lists. *)
Theorem mux_never_raises_and_checks_every_pair T processed_files final_outputs :
  fst (mux_videos T processed_files final_outputs []) = Returns tt /\
  forall i p o,
    zip processed_files final_outputs !! i = Some (p, o) ->
    (Exists i p ∈ snd (mux_videos T processed_files final_outputs [])).
Proof.
  split.
  - unfold mux_videos. rewrite mux_loop_log. reflexivity.
  - intros i p o Hi. apply in_mux_log. exists i, p, o.
    split; [exact Hi|]. unfold pair_events. apply list_elem_of_here.
Qed.

(** The remux tool is run for a pair exactly when the rendered file of
    the pair exists, with the rendered file as first input, the fixed
    [test.mp4] as second and the pair's final output as target; a
    missing rendered file is skipped. *)
Theorem tool_runs_exactly_for_existing_files T processed_files final_outputs
    j cmd :
  (Ffmpeg j cmd ∈ snd (mux_videos T processed_files final_outputs [])) <->
  exists p o,
    zip processed_files final_outputs !! j = Some (p, o) /\
    cmd = ffmpeg_cmd p o /\
    path_exists T j p = true.
Proof.
  rewrite in_mux_log. split.
  - intros (i & p & o & Hi & Hin).
    apply ffmpeg_in_pair_events in Hin as (-> & -> & Hex). eauto.
  - intros (p & o & Hj & -> & Hex).
    exists j, p, o. split; [exact Hj|].
    apply ffmpeg_in_pair_events. auto.
Qed.

(** When the call of the remux tool itself raises (the tool is not
    installed, say), the pair gets no fallback copy: the [except] of the
    iteration takes over and the loop goes on with the next pair. *)
Theorem no_fallback_when_the_tool_cannot_run T processed_files final_outputs
    j p o e :
  zip processed_files final_outputs !! j = Some (p, o) ->
  subprocess_run T j (ffmpeg_cmd p o) = Raises e ->
  forall src dst,
    Copy j src dst ∉ snd (mux_videos T processed_files final_outputs []).
Proof.
  intros Hj Hrun src dst Hin.
  apply in_mux_log in Hin as (i & p' & o' & Hi & Hin).
  apply copy_in_pair_events in Hin as (-> & -> & -> & _ & rc & Hrc & _).
  rewrite Hj in Hi. injection Hi as <- <-. congruence.
Qed.

Lemma no_fallback_when_the_tool_cannot_run_witness :
  Copy 1 "p2.mp4" "o2.mp4" ∉ snd (mux_videos Sample.no_ffmpeg
                                    ["p1.mp4"; "p2.mp4"]%string
                                    ["o1.mp4"; "o2.mp4"]%string []).
Proof.
  apply (no_fallback_when_the_tool_cannot_run Sample.no_ffmpeg
           ["p1.mp4"; "p2.mp4"]%string ["o1.mp4"; "o2.mp4"]%string
           1 "p2.mp4"%string "o2.mp4"%string
           "No such file or directory: 'ffmpeg'"%string);
    reflexivity.
Defined.

End MuxExtra.

(* ------------------------------------------------------------------ *)
(** ** Render: what a renderer leaves on disk *)
(* ------------------------------------------------------------------ *)
Module RenderExtra.
Import Np Py Render RenderSpec.
Local Open Scope nat_scope.

Section WithExtern.
Context {E : Extern}.

(** A renderer whose target cannot be opened leaves everything as it
    was: no file is created or changed, no effect call is made on the
    shared arrays, and the call still returns. *)
Theorem failed_open_changes_nothing enc draws all_frames output_file
    effect_variant thread_id w e :
  open_out enc = Raises e ->
  process_all_frames enc draws all_frames output_file effect_variant
    thread_id w = (Returns tt, w).
Proof.
  intros Hopen. unfold process_all_frames, try_except, render_body.
  unfold bind at 1. unfold call at 1. rewrite Hopen. reflexivity.
Qed.

(** After a renderer has run, its target is on disk exactly when it was
    there before, or the run closed it, or the run got it open and the
    library leaves an unfinished file of an output never closed: the
    call itself removes nothing, so whatever a failed run leaves is
    still there when it returns. *)
Theorem target_exists_after_the_call enc draws all_frames output_file
    effect_variant thread_id w :
  is_Some (fs (snd (process_all_frames enc draws all_frames output_file
                      effect_variant thread_id w)) !! output_file) <->
  is_Some (fs w !! output_file) \/
  clean enc (length all_frames) = true \/
  open_out enc = Returns tt /\ is_Some (unclosed enc).
Proof.
  rewrite target_after_render.
  destruct (clean enc (length all_frames)).
  - split; [auto|eauto].
  - destruct (open_out enc) as [[]|e]; cbn [returned].
    + destruct (unclosed enc) as [written|].
      * split; [eauto 6|eauto].
      * split; [auto|]. intros [H|[H|[_ [x H]]]];
          [exact H|discriminate|discriminate].
    + split; [auto|]. intros [H|[H|[H _]]];
        [exact H|discriminate|discriminate].
Qed.

(** A renderer never makes an effect call before its encoder has a
    stream: when [add_stream] (or the open) raises, the shared arrays
    are what they were. *)
Theorem no_effect_call_without_a_stream enc draws all_frames output_file
    effect_variant thread_id w :
  returned (open_out enc) && returned (add_stream enc) = false ->
  arrays (snd (process_all_frames enc draws all_frames output_file
                 effect_variant thread_id w)) = arrays w.
Proof.
  intros Hfail. unfold process_all_frames, try_except, render_body.
  unfold bind at 1. unfold call at 1.
  destruct (open_out enc) as [[]|e]; [|reflexivity].
  unfold bind at 1. unfold on_output at 1.
  destruct (add_stream enc) as [[]|e]; [discriminate|].
  apply arrays_abandon.
Qed.

(** When the encoder first fails on frame [k] (the conversion, the
    encode or a mux of that frame raises), the renderer has made its
    effect call on the frames up to and including [k] and on none after
    it: frame [k] is handed to [apply_video_effects], and overwritten
    where the variant writes in place, before anything of it is
    encoded. *)
Theorem effect_calls_stop_at_the_failing_frame enc draws all_frames output_file
    effect_variant thread_id w k :
  open_out enc = Returns tt ->
  add_stream enc = Returns tt ->
  k < length all_frames ->
  (forall i, i < k -> frame_ok enc i = true) ->
  frame_ok enc k = false ->
  arrays (snd (process_all_frames enc draws all_frames output_file
                 effect_variant thread_id w))
    = render_arrays draws effect_variant 0 (take (S k) all_frames) (arrays w).
Proof. apply arrays_at_failing_frame. Qed.

End WithExtern.

Lemma failed_open_changes_nothing_witness :
  process_all_frames (E := Sample.plain_extern) Sample.locked_encoder
    (fun _ => Sample.no_noise) [0] "temp_processed_2.mp4"%string 1 1
    {| arrays := [Sample.two_pixels]; fs := ∅ |}
  = (Returns tt, {| arrays := [Sample.two_pixels]; fs := ∅ |}).
Proof.
  apply (failed_open_changes_nothing (E := Sample.plain_extern)
           Sample.locked_encoder (fun _ => Sample.no_noise) [0]
           "temp_processed_2.mp4"%string 1%Z 1
           {| arrays := [Sample.two_pixels]; fs := ∅ |}
           "Permission denied"%string).
  reflexivity.
Defined.

Lemma effect_calls_stop_at_the_failing_frame_witness :
  arrays (snd (process_all_frames (E := Sample.plain_extern)
                 Sample.chokes_on_second (fun _ => Sample.no_noise)
                 [0; 1; 2] "temp_processed_2.mp4"%string 1 1
                 {| arrays := [Sample.two_pixels; Sample.black_pixel;
                               Sample.two_pixels];
                    fs := ∅ |}))
  = render_arrays (E := Sample.plain_extern) (fun _ => Sample.no_noise) 1 0
      [0; 1]
      [Sample.two_pixels; Sample.black_pixel; Sample.two_pixels].
Proof.
  apply (effect_calls_stop_at_the_failing_frame (E := Sample.plain_extern)
           Sample.chokes_on_second (fun _ => Sample.no_noise) [0; 1; 2]
           "temp_processed_2.mp4"%string 1%Z 1
           {| arrays := [Sample.two_pixels; Sample.black_pixel;
                         Sample.two_pixels];
              fs := ∅ |} 1).
  - reflexivity.
  - reflexivity.
  - simpl. lia.
  - intros i Hi. destruct i; [reflexivity|lia].
  - reflexivity.
Defined.

Lemma no_effect_call_without_a_stream_witness :
  arrays (snd (process_all_frames (E := Sample.plain_extern) Sample.no_codec
                 (fun _ => Sample.no_noise) [0] "temp_processed_2.mp4"%string 1 1
                 {| arrays := [Sample.two_pixels]; fs := ∅ |}))
  = [Sample.two_pixels].
Proof.
  apply (no_effect_call_without_a_stream (E := Sample.plain_extern)
           Sample.no_codec (fun _ => Sample.no_noise) [0]
           "temp_processed_2.mp4"%string 1%Z 1
           {| arrays := [Sample.two_pixels]; fs := ∅ |}).
  reflexivity.
Defined.

End RenderExtra.

(* ------------------------------------------------------------------ *)
(** ** Driver: [main] from the input check to the cleanup *)
(* ------------------------------------------------------------------ *)
Module DriverSpec.
Import Np Py Driver.
Import DemuxSpec MuxSpec RenderSpec FanOutSpec MuxExtra RenderExtra.
Local Open Scope nat_scope.

(** *** The cleanup loop *)

Lemma not_on_disk files path : on_disk files path = false -> files !! path = None.
Proof.
  unfold on_disk. intros H. apply bool_decide_eq_false in H.
  destruct (files !! path) eqn:Hp; [|reflexivity].
  exfalso. apply H. eauto.
Qed.

(** One temporary file: it is gone when [os.remove] returned; a raise is
    swallowed and leaves the file. *)
Lemma remove_temp_spec env t w :
  exists w', remove_temp env t w = (Returns tt, w') /\
    Render.arrays w' = Render.arrays w /\
    forall p, Render.fs w' !! p =
              if bool_decide (p = t) && returned (remove env t)
              then None else Render.fs w !! p.
Proof.
  unfold remove_temp, try_except.
  destruct (on_disk (Render.fs w) t) eqn:Hdisk.
  - unfold bind, call, modify. destruct (remove env t) as [[]|e]; simpl.
    + eexists. split; [reflexivity|]. split; [reflexivity|].
      intros p. simpl. rewrite andb_true_r.
      destruct (bool_decide_reflect (p = t)) as [->|Hp].
      * apply lookup_delete_eq.
      * apply lookup_delete_ne. congruence.
    + exists w. split; [reflexivity|]. split; [reflexivity|].
      intros p. rewrite andb_false_r. reflexivity.
  - exists w. split; [reflexivity|]. split; [reflexivity|].
    intros p. destruct (bool_decide_reflect (p = t)) as [->|Hp]; [|reflexivity].
    rewrite (not_on_disk _ _ Hdisk). destruct (returned _); reflexivity.
Qed.

Lemma remove_loop_spec env temps : forall i0 w,
  exists w', for_each i0 temps (fun _ t => remove_temp env t) w = (Returns tt, w') /\
    Render.arrays w' = Render.arrays w /\
    forall p, Render.fs w' !! p =
              if bool_decide (p ∈ temps) && returned (remove env p)
              then None else Render.fs w !! p.
Proof.
  induction temps as [|t temps IH]; intros i0 w.
  - exists w. split; [reflexivity|]. split; [reflexivity|].
    intros p. rewrite bool_decide_eq_false_2; [reflexivity|].
    apply not_elem_of_nil.
  - cbn [for_each].
    destruct (remove_temp_spec env t w) as (w1 & Hrun & Harr1 & Hfs1).
    destruct (IH (S i0) w1) as (w2 & Hrest & Harr2 & Hfs2).
    exists w2. rewrite (bind_returns _ _ _ _ _ Hrun).
    split; [exact Hrest|]. split; [congruence|].
    intros p. rewrite Hfs2, Hfs1.
    destruct (decide (p = t)) as [->|Hp].
    + rewrite (bool_decide_eq_true_2 (t = t)) by reflexivity.
      rewrite (bool_decide_eq_true_2 (t ∈ t :: temps)) by apply list_elem_of_here.
      cbn [andb]. destruct (returned (remove env t)).
      * destruct (bool_decide (t ∈ temps)); reflexivity.
      * rewrite andb_false_r. reflexivity.
    + rewrite (bool_decide_eq_false_2 (p = t)) by exact Hp. cbn [andb].
      destruct (decide (p ∈ temps)) as [Hin|Hin].
      * rewrite (bool_decide_eq_true_2 (p ∈ t :: temps))
          by (apply list_elem_of_further; exact Hin).
        rewrite (bool_decide_eq_true_2 (p ∈ temps)) by exact Hin.
        reflexivity.
      * rewrite (bool_decide_eq_false_2 (p ∈ t :: temps))
          by (rewrite elem_of_cons; tauto).
        rewrite (bool_decide_eq_false_2 (p ∈ temps)) by exact Hin.
        reflexivity.
Qed.

Lemma cleanup_spec env w :
  exists w', cleanup env w = (Returns tt, w') /\
    Render.arrays w' = Render.arrays w /\
    forall p, Render.fs w' !! p =
              if forallb (output_exists env) final_outputs &&
                 bool_decide (p ∈ Render.processed_files) &&
                 returned (remove env p)
              then None else Render.fs w !! p.
Proof.
  unfold cleanup. destruct (forallb (output_exists env) final_outputs).
  - apply remove_loop_spec.
  - exists w. auto.
Qed.

(** *** The remux phase and the cleanup *)

Lemma mux_videos_returns T ps os l :
  fst (Mux.mux_videos T ps os l) = Returns tt.
Proof. unfold Mux.mux_videos. rewrite mux_loop_log. reflexivity. Qed.

Lemma mux_and_cleanup_spec env w :
  mux_and_cleanup env w =
    (Returns tt,
     {| decoding := decoding w;
        rendering := snd (cleanup env (rendering w));
        muxing := snd (Mux.mux_videos (tools_of env (Render.fs (rendering w)))
                         Render.processed_files final_outputs (muxing w)) |}).
Proof.
  unfold mux_and_cleanup, bind, in_muxing, in_rendering.
  pose proof (mux_videos_returns (tools_of env (Render.fs (rendering w)))
                Render.processed_files final_outputs (muxing w)) as Hmux.
  destruct (Mux.mux_videos _ _ _ (muxing w)) as [o l']. simpl in Hmux. subst o.
  cbn [fst snd rendering decoding muxing].
  destruct (cleanup_spec env (rendering w)) as (w' & Hrun & _).
  rewrite Hrun. reflexivity.
Qed.

Section WithExtern.
Context {E : Extern}.

(** *** The fan-out *)

Lemma render_all_returns encs draws frames sched : forall w,
  fst (Render.render_all encs draws frames sched w) = Returns tt.
Proof.
  induction sched as [|i sched IH]; intros w; [reflexivity|].
  rewrite render_all_cons. apply IH.
Qed.

Lemma process_all_frames_other_files enc draws frames out v tid w p :
  p <> out ->
  Render.fs (snd (Render.process_all_frames enc draws frames out v tid w)) !! p
    = Render.fs w !! p.
Proof.
  intros Hp.
  destruct (render_body_spec enc draws frames out v w)
    as (o & w' & Hrun & Hsame & _ & _).
  unfold Render.process_all_frames, try_except. rewrite Hrun.
  destruct o; apply Hsame; exact Hp.
Qed.

(** After the fan-out a target is on disk exactly when it was there
    before, or a renderer writing to it closed it, or one got it open
    and the library leaves an unfinished file of an output never
    closed. *)
Lemma render_all_targets encs draws frames sched : forall w j,
  Forall (fun i => i < 4) sched -> j < 4 ->
  is_Some (Render.fs (snd (Render.render_all encs draws frames sched w))
             !! nth j Render.processed_files ""%string) <->
  is_Some (Render.fs w !! nth j Render.processed_files ""%string) \/
  (j ∈ sched) /\
  (Render.clean (encs j) (length frames) = true \/
   Render.open_out (encs j) = Returns tt /\ is_Some (Render.unclosed (encs j))).
Proof.
  induction sched as [|i sched IH]; intros w j Hlt Hj.
  - simpl. split; [auto|]. intros [H|[H _]]; [exact H|].
    apply elem_of_nil in H as [].
  - apply Forall_cons in Hlt as [Hi Hlt].
    rewrite render_all_cons, IH by assumption.
    rewrite elem_of_cons.
    destruct (decide (j = i)) as [->|Hne].
    + rewrite target_after_render.
      destruct (Render.clean (encs i) (length frames)).
      * split; [auto|eauto].
      * destruct (Render.open_out (encs i)) as [[]|e]; cbn [returned].
        -- destruct (Render.unclosed (encs i)) as [written|].
           ++ split; [intros _; right; eauto 6|eauto].
           ++ split; [tauto|].
              intros [H|[_ [H|[_ [x H]]]]]; [auto|discriminate|discriminate].
        -- split; [tauto|].
           intros [H|[_ [H|[H _]]]]; [auto|discriminate|discriminate].
    + rewrite process_all_frames_other_files.
      * tauto.
      * intros Heq. apply Hne. apply target_path_inj; assumption.
Qed.

(** *** [main] up to the join *)

Lemma stops_without_input env w :
  input_exists env = false -> decode_and_render env w = (Returns None, w).
Proof. intros H. unfold decode_and_render. rewrite H. reflexivity. Qed.

Lemma stops_without_frames env w video audio l' :
  Demux.demux_video_once (av_open env) input_file (decoding w)
    = (Returns (None, video, audio), l') ->
  exists w', decode_and_render env w = (Returns None, w') /\
             rendering w' = rendering w /\ muxing w' = muxing w.
Proof.
  intros Hd. unfold decode_and_render.
  destruct (input_exists env); cbn [negb]; [|exists w; auto].
  unfold bind at 1. unfold in_decoding at 1. rewrite Hd. cbn [fst snd].
  eexists. split; [reflexivity|]. auto.
Qed.

Lemma proceeds_with_frames env w frames video audio l' :
  input_exists env = true ->
  Demux.demux_video_once (av_open env) input_file (decoding w)
    = (Returns (Some frames, video, audio), l') ->
  let all_frames := seq (length (Render.arrays (rendering w))) (length frames) in
  decode_and_render env w =
    (Returns (Some all_frames),
     {| decoding := l';
        rendering :=
          snd (Render.render_all (encoders env) (draws env) all_frames
                 (schedule env)
                 (Render.set_arrays (Render.arrays (rendering w) ++ frames)
                    (rendering w)));
        muxing := muxing w |}).
Proof.
  intros Hin Hd all_frames. unfold decode_and_render. rewrite Hin. cbn [negb].
  unfold bind at 1. unfold in_decoding at 1. rewrite Hd. cbn [fst snd].
  unfold bind at 1. unfold in_rendering at 1, load. cbn [fst snd].
  unfold bind, in_rendering. cbn [fst snd rendering decoding muxing].
  fold all_frames.
  pose proof (render_all_returns (encoders env) (draws env) all_frames
                (schedule env)
                (Render.set_arrays (Render.arrays (rendering w) ++ frames)
                   (rendering w))) as Hret.
  destruct (Render.render_all _ _ _ _ _) as [o w1]. simpl in Hret. subst o.
  reflexivity.
Qed.

Lemma main_after env w r w1 :
  decode_and_render env w = (Returns r, w1) ->
  main env w = match r with
               | None => (Returns tt, w1)
               | Some _ => mux_and_cleanup env w1
               end.
Proof.
  intros H. unfold main. rewrite (bind_returns _ _ _ _ _ H).
  destruct r; reflexivity.
Qed.

(** Whatever the decoder, the encoders, the remux tool and the
    filesystem do, [main] returns: every failure is caught in the
    function where it occurs. *)
Theorem main_never_raises env w : fst (main env w) = Returns tt.
Proof.
  destruct (input_exists env) eqn:Hin.
  2:{ rewrite (main_after _ _ _ _ (stops_without_input env w Hin)). reflexivity. }
  destruct (demux_cases (av_open env) input_file (decoding w))
    as [(c & ss & frames & _ & _ & _ & _ & _ & Hd)|(l' & Hd & _)].
  - rewrite (main_after _ _ _ _ (proceeds_with_frames env w _ _ _ _ Hin Hd)).
    rewrite mux_and_cleanup_spec. reflexivity.
  - destruct (stops_without_frames env w _ _ _ Hd) as (w' & Hrun & _).
    rewrite (main_after _ _ _ _ Hrun). reflexivity.
Qed.

(** Without an input file, or when the demux fails at any of its calls,
    [main] stops there: no frame is loaded, no renderer runs, no file is
    written or removed, the remux tool is not called. *)
Theorem nothing_runs_without_frames env w :
  input_exists env = false \/
  (exists p, Demux.fails_at (av_open env) input_file p) ->
  rendering (snd (main env w)) = rendering w /\
  muxing (snd (main env w)) = muxing w.
Proof.
  intros [Hin|(p & Hfail)].
  - rewrite (main_after _ _ _ _ (stops_without_input env w Hin)). auto.
  - destruct (demux_body_fails _ _ _ (decoding w) Hfail) as (e & l' & Hbody).
    assert (Hd : Demux.demux_video_once (av_open env) input_file (decoding w)
                 = (Returns (None, None, None), l')).
    { unfold Demux.demux_video_once, try_except.
      rewrite (bind_raises _ _ _ _ _ Hbody). reflexivity. }
    destruct (stops_without_frames env w _ _ _ Hd) as (w' & Hrun & Hr & Hm).
    rewrite (main_after _ _ _ _ Hrun). auto.
Qed.

(** When the demux gave frames, what [main] does after the join changes
    no array and removes nothing but temporary files: a file is gone at
    the end exactly when it is one of the four temporary files, all four
    final outputs exist after the remux phase, and [os.remove] returned
    for it.  A remove that raises leaves its file and does not stop the
    removal of the others; one missing final output keeps all four
    temporary files. *)
Theorem cleanup_removes_only_temporary_files env w frames video audio :
  input_exists env = true ->
  fst (Demux.demux_video_once (av_open env) input_file (decoding w))
    = Returns (Some frames, video, audio) ->
  let joined := rendering (snd (decode_and_render env w)) in
  let final := rendering (snd (main env w)) in
  Render.arrays final = Render.arrays joined /\
  forall p, Render.fs final !! p =
            if forallb (output_exists env) final_outputs &&
               bool_decide (p ∈ Render.processed_files) &&
               returned (remove env p)
            then None else Render.fs joined !! p.
Proof.
  intros Hin Hd.
  destruct (Demux.demux_video_once (av_open env) input_file (decoding w))
    as [o l'] eqn:Hrun. simpl in Hd. subst o.
  pose proof (proceeds_with_frames env w _ _ _ _ Hin Hrun) as Hjoin.
  cbv zeta in Hjoin. cbv zeta.
  rewrite (main_after _ _ _ _ Hjoin), Hjoin, mux_and_cleanup_spec.
  cbn [fst snd rendering].
  destruct (cleanup_spec env
              (snd (Render.render_all (encoders env) (draws env)
                      (seq (length (Render.arrays (rendering w))) (length frames))
                      (schedule env)
                      (Render.set_arrays (Render.arrays (rendering w) ++ frames)
                         (rendering w)))))
    as (w' & Hclean & Harr & Hfs).
  rewrite Hclean. cbn [snd]. auto.
Qed.

Lemma pair_of_main j p o :
  zip Render.processed_files final_outputs !! j = Some (p, o) <->
  j < 4 /\ p = nth j Render.processed_files ""%string /\
  o = nth j final_outputs ""%string.
Proof.
  destruct j as [|[|[|[|j]]]]; simpl; split;
    try (intros [= <- <-]; repeat split; lia);
    try (intros (_ & -> & ->); reflexivity);
    try discriminate; intros (? & _); lia.
Qed.

(** On a fresh start with the four threads run in any order, the remux
    tool is called for a pair exactly when the rendered file of the pair
    is on disk after the join: it was left there by an earlier run, or
    the renderer of this run closed it, or the renderer got it open and
    the library leaves an unfinished file of an output never closed.
    Nothing checks that the renderer finished: a stale file, or an
    unfinished one, is remuxed like a complete one. *)
Theorem tool_runs_for_every_target_on_disk env files frames video audio :
  schedule env ≡ₚ [0; 1; 2; 3] ->
  input_exists env = true ->
  fst (Demux.demux_video_once (av_open env) input_file []) =
    Returns (Some frames, video, audio) ->
  forall j cmd,
    (Mux.Ffmpeg j cmd ∈ muxing (snd (main env (boot files)))) <->
    j < 4 /\
    cmd = Mux.ffmpeg_cmd (nth j Render.processed_files ""%string)
            (nth j final_outputs ""%string) /\
    (is_Some (files !! nth j Render.processed_files ""%string) \/
     Render.clean (encoders env j) (length frames) = true \/
     Render.open_out (encoders env j) = Returns tt /\
     is_Some (Render.unclosed (encoders env j))).
Proof.
  intros Hperm Hin Hd j cmd.
  destruct (Demux.demux_video_once (av_open env) input_file []) as [o l'] eqn:Hrun.
  simpl in Hd. subst o.
  pose proof (proceeds_with_frames env (boot files) _ _ _ _ Hin Hrun) as Hjoin.
  cbv zeta in Hjoin.
  rewrite (main_after _ _ _ _ Hjoin), mux_and_cleanup_spec.
  cbn [snd muxing rendering boot].
  rewrite in_mux_log.
  assert (Hlt : Forall (fun i => i < 4) (schedule env)).
  { rewrite Hperm. repeat (apply Forall_cons; split; [lia|]). constructor. }
  assert (Hall : forall i, i < 4 -> i ∈ schedule env).
  { intros i Hi. rewrite Hperm.
    destruct i as [|[|[|[|i]]]]; [| | | |lia];
      repeat first [apply list_elem_of_here | apply list_elem_of_further]. }
  split.
  - intros (i & p & o & Hi & Hev).
    apply ffmpeg_in_pair_events in Hev as (-> & -> & Hex).
    apply pair_of_main in Hi as (Hi & -> & ->).
    split; [exact Hi|]. split; [reflexivity|].
    cbn [tools_of Mux.path_exists] in Hex. unfold on_disk in Hex.
    apply bool_decide_eq_true in Hex.
    apply render_all_targets in Hex; [|exact Hlt|exact Hi].
    cbn [Render.set_arrays Render.fs Render.arrays] in Hex.
    rewrite length_seq in Hex. tauto.
  - intros (Hj & -> & Hdisk).
    exists j, (nth j Render.processed_files ""%string),
           (nth j final_outputs ""%string).
    split; [apply pair_of_main; auto|].
    apply ffmpeg_in_pair_events. split; [reflexivity|]. split; [reflexivity|].
    cbn [tools_of Mux.path_exists]. unfold on_disk.
    apply bool_decide_eq_true.
    apply render_all_targets; [exact Hlt|exact Hj|].
    cbn [Render.set_arrays Render.fs Render.arrays].
    rewrite length_seq. destruct Hdisk as [H|H]; auto.
Qed.

End WithExtern.

Lemma nothing_runs_without_frames_witness :
  rendering (snd (main (E := Sample.plain_extern) Sample.broken_input (boot ∅)))
    = rendering (boot ∅) /\
  muxing (snd (main (E := Sample.plain_extern) Sample.broken_input (boot ∅)))
    = muxing (boot ∅).
Proof.
  apply (nothing_runs_without_frames (E := Sample.plain_extern)
           Sample.broken_input (boot ∅)).
  right. exists Demux.AtDecode.
  apply (Demux.fails_decode _ _ Sample.breaking_container "Decode error"%string);
    reflexivity.
Defined.

Lemma cleanup_removes_only_temporary_files_witness :
  Render.arrays (rendering (snd (main (E := Sample.plain_extern)
                                   Sample.third_locked (boot ∅))))
    = Render.arrays (rendering (snd (decode_and_render (E := Sample.plain_extern)
                                       Sample.third_locked (boot ∅)))) /\
  forall p,
    Render.fs (rendering (snd (main (E := Sample.plain_extern)
                                 Sample.third_locked (boot ∅)))) !! p =
    if forallb (output_exists Sample.third_locked) final_outputs &&
       bool_decide (p ∈ Render.processed_files) &&
       returned (remove Sample.third_locked p)
    then None
    else Render.fs (rendering (snd (decode_and_render (E := Sample.plain_extern)
                                      Sample.third_locked (boot ∅)))) !! p.
Proof.
  apply (cleanup_removes_only_temporary_files (E := Sample.plain_extern)
           Sample.third_locked (boot ∅)
           [Sample.two_pixels; U8 [ [ [1; 2; 3]; [4; 5; 6] ] ]%Z]
           (Demux.first_video [Sample.hd_720; Sample.stereo; Sample.surround])
           (Demux.first_audio [Sample.hd_720; Sample.stereo; Sample.surround]));
    reflexivity.
Defined.

Lemma tool_runs_for_every_target_on_disk_witness :
  (Mux.Ffmpeg 2 (Mux.ffmpeg_cmd "temp_processed_3.mp4" "out3.mp4") ∈
     muxing (snd (main (E := Sample.plain_extern) Sample.third_locked (boot ∅))))
  <->
  2 < 4 /\
  Mux.ffmpeg_cmd "temp_processed_3.mp4" "out3.mp4"
    = Mux.ffmpeg_cmd (nth 2 Render.processed_files ""%string)
        (nth 2 final_outputs ""%string) /\
  (is_Some ((∅ : gmap string Render.file)
              !! nth 2 Render.processed_files ""%string) \/
   Render.clean (encoders Sample.third_locked 2)
     (length [Sample.two_pixels; U8 [ [ [1; 2; 3]; [4; 5; 6] ] ]%Z]) = true \/
   Render.open_out (encoders Sample.third_locked 2) = Returns tt /\
   is_Some (Render.unclosed (encoders Sample.third_locked 2))).
Proof.
  apply (tool_runs_for_every_target_on_disk (E := Sample.plain_extern)
           Sample.third_locked ∅
           [Sample.two_pixels; U8 [ [ [1; 2; 3]; [4; 5; 6] ] ]%Z]
           (Demux.first_video [Sample.hd_720; Sample.stereo; Sample.surround])
           (Demux.first_audio [Sample.hd_720; Sample.stereo; Sample.surround]));
    reflexivity.
Defined.

End DriverSpec.

(* ------------------------------------------------------------------ *)
(** ** Effects: what is fixed in a call whatever the draws *)
(* ------------------------------------------------------------------ *)
Module EffectsExtra.
Import Np Ops Effects Engine NpFacts OpsFacts EngineFacts.
Local Open Scope nat_scope.

(** *** Pixelation *)

Lemma every_second_lookup {A} (l : list A) : forall i,
  every_second l !! i = l !! (2 * i).
Proof.
  assert (Hgen : forall n (l : list A), length l <= n ->
            forall i, every_second l !! i = l !! (2 * i)).
  { induction n as [|n IH]; intros k Hk i.
    - destruct k; [reflexivity|simpl in Hk; lia].
    - destruct k as [|x [|x' k]]; [reflexivity| |].
      + destruct i; reflexivity.
      + destruct i as [|i]; [reflexivity|].
        cbn [every_second]. rewrite lookup_cons.
        replace (2 * S i) with (S (S (2 * i))) by lia.
        rewrite !lookup_cons. apply IH. simpl in Hk. lia. }
  apply (Hgen (length l)). lia.
Qed.

Lemma repeat_each_lookup {A} (l : list A) : forall i,
  repeat_each l !! i = l !! (i / 2).
Proof.
  induction l as [|x l IH]; intros i.
  - reflexivity.
  - destruct i as [|[|i]]; [reflexivity|reflexivity|].
    cbn [repeat_each]. rewrite !lookup_cons, IH.
    replace (S (S i)) with (i + 1 * 2) by lia.
    rewrite Nat.div_add by lia. rewrite Nat.add_1_r. reflexivity.
Qed.

Lemma lookup_map {A B} (f : A -> B) (l : list A) i :
  map f l !! i = f <$> l !! i.
Proof. exact (list_lookup_fmap f l i). Qed.

Lemma pixelate_grid_row {A} (g : grid A) y :
  y < height g ->
  pixelate_grid g !! y
    = (fun row => take (width g) (repeat_each (every_second row)))
        <$> g !! (2 * (y / 2)).
Proof.
  intros Hy. unfold pixelate_grid, grid in *. cbv zeta.
  rewrite lookup_map, lookup_take_lt by exact Hy.
  rewrite lookup_map, repeat_each_lookup, lookup_map.
  rewrite every_second_lookup.
  destruct (g !! (2 * (y / 2))); reflexivity.
Qed.

(** Operation 15 of variant 1 ([img[::2, ::2]], repeated twice along
    both axes and cut back to [h x w]): every pixel of the result is
    the pixel at the top-left corner of its 2x2 block in the input, so
    three pixels out of four are dropped. *)
Theorem pixelation_copies_block_corners {A} (g : grid A) y x :
  y < height g -> x < width g ->
  pixelate_grid g !! y ≫= (fun row => row !! x)
    = g !! (2 * (y / 2)) ≫= (fun row => row !! (2 * (x / 2))).
Proof.
  intros Hy Hx. rewrite pixelate_grid_row by exact Hy. unfold grid in *.
  destruct (g !! (2 * (y / 2))) as [row|]; [|reflexivity].
  cbn [fmap option_fmap option_map mbind option_bind].
  rewrite lookup_take_lt by exact Hx.
  rewrite repeat_each_lookup, every_second_lookup. reflexivity.
Qed.

(** *** The frame a call overwrites *)

Lemma cast_u8_defined {E : Extern} x t :
  trunc x = Some t -> in_range t -> cast_u8 x = t.
Proof.
  intros Hx [Hlo Hhi]. unfold cast_u8. rewrite Hx.
  destruct (Z.leb_spec 0 t); [|lia]. destruct (Z.leb_spec t 255); [|lia].
  reflexivity.
Qed.

(** A scaling whose result fits a byte on each of the 256 sample
    values: the cast of the product is then a plain truncation. *)
Lemma fits_every_sample (f : float -> float) :
  forallb (fun n => match trunc (f (of_nat n)) with
                    | Some t => (0 <=? t)%Z && (t <=? 255)%Z
                    | None => false
                    end) (seq 0 256) = true ->
  forall z, in_range z -> exists t, trunc (f (of_Z z)) = Some t /\ in_range t.
Proof.
  intros Hall z [Hlo Hhi]. rewrite forallb_forall in Hall.
  specialize (Hall (Z.to_nat z)).
  unfold of_nat in Hall. rewrite Z2Nat.id in Hall by exact Hlo.
  destruct (trunc (f (of_Z z))) as [t|].
  - exists t. split; [reflexivity|].
    assert (Ht : ((0 <=? t)%Z && (t <=? 255)%Z) = true)
      by (apply Hall, in_seq; lia).
    apply andb_prop in Ht. unfold in_range. lia.
  - assert (Hf : false = true) by (apply Hall, in_seq; lia). discriminate.
Qed.

Section TwoWorlds.
Context (E1 E2 : Extern).

Lemma chan_inplace_same c (f : float -> float) a :
  (forall z, in_range z -> exists t, trunc (f (of_Z z)) = Some t /\ in_range t) ->
  (exists g, a = U8 g /\ all_samples in_range g) ->
  chan_inplace (E := E1) c f a = chan_inplace (E := E2) c f a /\
  exists g', chan_inplace (E := E1) c f a = U8 g' /\ all_samples in_range g'.
Proof.
  intros Hf (g & -> & Hg). split.
  - unfold chan_inplace, inplace, update, plane_imap. f_equal.
    apply imap_ext. intros y row Hrow.
    apply imap_ext. intros x px Hpx. cbv beta.
    apply imap_ext. intros k v Hv. cbv beta.
    destruct (Nat.eqb_spec k c) as [->|_]; [|reflexivity].
    assert (Hin : in_range v).
    { unfold all_samples in Hg.
      pose proof (Forall_lookup_1 _ _ _ _ Hg Hrow) as H1.
      pose proof (Forall_lookup_1 _ _ _ _ H1 Hpx) as H2.
      exact (Forall_lookup_1 _ _ _ _ H2 Hv). }
    assert (Hc : chan (map of_Z px) c = of_Z v).
    { unfold chan. rewrite nth_lookup.
      rewrite lookup_map, Hv. reflexivity. }
    rewrite Hc. destruct (Hf v Hin) as (t & Ht & Hr).
    rewrite (cast_u8_defined (E := E1) _ _ Ht Hr).
    rewrite (cast_u8_defined (E := E2) _ _ Ht Hr). reflexivity.
  - eexists. split; [reflexivity|].
    apply update_samples; [|exact Hg]. intros x. apply cast_u8_in_range.
Qed.

Lemma three_scalings_same c1 f1 c2 f2 c3 f3 n1 n2 n3 g :
  forallb (fun n => match trunc (f1 (of_nat n)) with
                    | Some t => (0 <=? t)%Z && (t <=? 255)%Z
                    | None => false
                    end) (seq 0 256) = true ->
  forallb (fun n => match trunc (f2 (of_nat n)) with
                    | Some t => (0 <=? t)%Z && (t <=? 255)%Z
                    | None => false
                    end) (seq 0 256) = true ->
  forallb (fun n => match trunc (f3 (of_nat n)) with
                    | Some t => (0 <=? t)%Z && (t <=? 255)%Z
                    | None => false
                    end) (seq 0 256) = true ->
  all_samples in_range g ->
  eval [ (n1, InPlace (chan_inplace (E := E1) c1 f1));
         (n2, InPlace (chan_inplace (E := E1) c2 f2));
         (n3, InPlace (chan_inplace (E := E1) c3 f3)) ] (U8 g)
  = eval [ (n1, InPlace (chan_inplace (E := E2) c1 f1));
           (n2, InPlace (chan_inplace (E := E2) c2 f2));
           (n3, InPlace (chan_inplace (E := E2) c3 f3)) ] (U8 g).
Proof.
  intros H1 H2 H3 Hg. unfold eval. cbn [fold_left step_value snd].
  pose proof (fits_every_sample f1 H1) as F1.
  pose proof (fits_every_sample f2 H2) as F2.
  pose proof (fits_every_sample f3 H3) as F3.
  destruct (chan_inplace_same c1 f1 (U8 g) F1) as [Ha Hr1]; [eauto|].
  rewrite <- Ha.
  destruct (chan_inplace_same c2 f2 _ F2 Hr1) as [Hb Hr2].
  rewrite <- Hb.
  destruct (chan_inplace_same c3 f3 _ F3 Hr2) as [Hc _].
  exact Hc.
Qed.

(** What a call writes into the frame of its caller is a function of
    the frame and of the variant id alone: it depends neither on the
    random draws nor on how the libraries round or cast, because each
    of the channel scalings a variant starts with lands in [0, 255] on
    every 8-bit sample and is stored by plain truncation. *)
Theorem overwritten_frame_is_determined (D1 D2 : Draws) g v :
  all_samples in_range g ->
  eval (leading (pipeline (E := E1) D1 v)) (U8 g)
    = eval (leading (pipeline (E := E2) D2 v)) (U8 g).
Proof.
  intros Hg. unfold pipeline.
  destruct (v =? 0)%Z; [reflexivity|].
  destruct (v =? 1)%Z;
    [apply three_scalings_same; try exact Hg; vm_compute; reflexivity|].
  destruct (v =? 2)%Z;
    [apply three_scalings_same; try exact Hg; vm_compute; reflexivity|].
  destruct (v =? 3)%Z;
    [apply three_scalings_same; try exact Hg; vm_compute; reflexivity
    |reflexivity].
Qed.

End TwoWorlds.

Lemma pixelation_copies_block_corners_witness :
  pixelate_grid [ [ [1; 1; 1]; [2; 2; 2]; [3; 3; 3] ];
                  [ [4; 4; 4]; [5; 5; 5]; [6; 6; 6] ];
                  [ [7; 7; 7]; [8; 8; 8]; [9; 9; 9] ] ]%Z !! 1
    ≫= (fun row => row !! 2)
  = Some [3; 3; 3]%Z.
Proof.
  apply (pixelation_copies_block_corners
           [ [ [1; 1; 1]; [2; 2; 2]; [3; 3; 3] ];
             [ [4; 4; 4]; [5; 5; 5]; [6; 6; 6] ];
             [ [7; 7; 7]; [8; 8; 8]; [9; 9; 9] ] ]%Z 1 2);
    unfold height, width; simpl; lia.
Defined.

Lemma overwritten_frame_is_determined_witness :
  eval (leading (pipeline (E := Sample.plain_extern) Sample.no_noise 3))
    (U8 [ [ [10; 20; 30]; [200; 220; 240] ] ]%Z)
  = eval (leading (pipeline (E := Sample.saturating_extern) Sample.heavy_noise 3))
      (U8 [ [ [10; 20; 30]; [200; 220; 240] ] ]%Z).
Proof.
  apply (overwritten_frame_is_determined Sample.plain_extern
           Sample.saturating_extern Sample.no_noise Sample.heavy_noise
           [ [ [10; 20; 30]; [200; 220; 240] ] ]%Z 3).
  repeat constructor; unfold in_range; lia.
Defined.

End EffectsExtra.
